(** * ssb-spoofer: the attack-orchestration core, embedded and verified

    Shallow embedding of the orchestration logic of the SSB spoofer
    (configuration validation, MIB mutation, burst construction and
    normalisation, the paced transmission loop and the windowed scan loop),
    followed by the properties stated about it.

    Conventions.
    - [uint32_t], [uint64_t] and [int] values are integers in [Z]; every
      conversion or arithmetic step that can leave the range of its C++
      type is written with an explicit wrap.
    - [double] values are the primitive binary64 floats of the kernel;
      [float] samples are binary32 numbers ([SpecFloat], precision 24).
    - Console output is not modelled, except where a message is the only
      trace of a decision (the FATAL line of the transmission loop).
    - The radio transport, the PHY library, the steady clock and the
      [running] flag are inputs of the loops: oracles indexed by the number
      of the call that consults them.  Loops take fuel; a result is one of
      [Returns], [Undefined] (a copy outside a buffer) and [OutOfFuel]. *)

From Stdlib Require Import ZArith Bool Lia String Ascii List.
From Stdlib Require Import Floats Reals Lra.
Import ListNotations.

Local Open Scope Z_scope.

(** ** Machine integers *)

Module MachInt.

Definition two32 : Z := 2 ^ 32.
Definition two31 : Z := 2 ^ 31.

(** Conversion to [uint32_t]: reduction modulo 2^32. *)
Definition to_uint32 (z : Z) : Z := z mod two32.

(** Conversion to [int] (32 bits, two's complement), as in
    [(int)config.attack.max_bursts]. *)
Definition to_int (z : Z) : Z := (z + two31) mod two32 - two31.

Definition is_uint32 (z : Z) : Prop := 0 <= z < two32.
Definition is_int (z : Z) : Prop := - two31 <= z < two31.

End MachInt.
Import MachInt.

(** ** Configuration records (config.h) *)

Record RfConfig := {
  device_name : string;
  device_args : string;
  tx_freq_hz : float;
  rx_freq_hz : float;
  srate_hz : float;
  tx_gain_db : float;
  rx_gain_db : float
}.

Record SsbConfig := {
  pattern : string;
  scs_khz : Z;
  periodicity_ms : Z;
  f_offset_hz : float;
  ssb_freq_offset_hz : float;
  beta_pss : float;
  beta_sss : float;
  beta_pbch : float;
  beta_pbch_dmrs : float
}.

Record AttackConfig := {
  target_pci : Z;
  scan_for_target : bool;
  modify_coreset0_idx : bool;
  modify_ss0_idx : bool;
  modify_cell_barred : bool;
  modify_intra_freq_resel : bool;
  coreset0_idx_value : Z;
  ss0_idx_value : Z;
  cell_barred_value : bool;
  intra_freq_resel_value : bool;
  tx_power_db : float;
  tx_power_offset_db : float;
  continuous_tx : bool;
  max_bursts : Z;          (* uint64_t, 0 = unlimited *)
  burst_interval_us : Z;   (* uint32_t *)
  burst_length_ms : Z      (* uint32_t *)
}.

Record OperationalConfig := {
  scan_duration_sec : float;
  log_level : string;
  log_file : string;
  save_samples : bool;
  samples_file : string
}.

Record Config := {
  rf : RfConfig;
  ssb : SsbConfig;
  attack : AttackConfig;
  operation : OperationalConfig
}.

(** ** The decoded MIB and its mutation (SsbProcessor::modify_mib) *)

Module Mib.

Inductive srsran_subcarrier_spacing_t :=
| scs_15kHz | scs_30kHz | scs_60kHz | scs_120kHz | scs_240kHz | scs_invalid.

(** Modelled from the spec: the declaration of [srsran_mib_nr_t], which
    lives in a header of the PHY library, outside this repository.  The record has
    the fields of the spec's decoded system-information entity under the
    names the sources use for them ([print_mib], [modify_mib]), and the two
    further fields [print_mib] reads ([ssb_idx], [scs_common]).  The two
    index fields are 32-bit unsigned, like the configuration values stored
    into them ([print_mib] prints them without the cast it gives the narrow
    fields). *)
Record srsran_mib_nr_t := {
  sfn : Z;
  ssb_idx : Z;
  hrf : bool;
  scs_common : srsran_subcarrier_spacing_t;
  ssb_offset : Z;
  dmrs_typeA_pos : Z;
  coreset0_idx : Z;
  ss0_idx : Z;
  cell_barred : bool;
  intra_freq_reselection : bool
}.

Definition set_cell_barred (b : bool) (m : srsran_mib_nr_t) :=
  {| sfn := sfn m; ssb_idx := ssb_idx m; hrf := hrf m;
     scs_common := scs_common m; ssb_offset := ssb_offset m;
     dmrs_typeA_pos := dmrs_typeA_pos m; coreset0_idx := coreset0_idx m;
     ss0_idx := ss0_idx m; cell_barred := b;
     intra_freq_reselection := intra_freq_reselection m |}.

Definition set_coreset0_idx (v : Z) (m : srsran_mib_nr_t) :=
  {| sfn := sfn m; ssb_idx := ssb_idx m; hrf := hrf m;
     scs_common := scs_common m; ssb_offset := ssb_offset m;
     dmrs_typeA_pos := dmrs_typeA_pos m; coreset0_idx := to_uint32 v;
     ss0_idx := ss0_idx m; cell_barred := cell_barred m;
     intra_freq_reselection := intra_freq_reselection m |}.

Definition set_ss0_idx (v : Z) (m : srsran_mib_nr_t) :=
  {| sfn := sfn m; ssb_idx := ssb_idx m; hrf := hrf m;
     scs_common := scs_common m; ssb_offset := ssb_offset m;
     dmrs_typeA_pos := dmrs_typeA_pos m; coreset0_idx := coreset0_idx m;
     ss0_idx := to_uint32 v; cell_barred := cell_barred m;
     intra_freq_reselection := intra_freq_reselection m |}.

Definition set_intra_freq_reselection (b : bool) (m : srsran_mib_nr_t) :=
  {| sfn := sfn m; ssb_idx := ssb_idx m; hrf := hrf m;
     scs_common := scs_common m; ssb_offset := ssb_offset m;
     dmrs_typeA_pos := dmrs_typeA_pos m; coreset0_idx := coreset0_idx m;
     ss0_idx := ss0_idx m; cell_barred := cell_barred m;
     intra_freq_reselection := b |}.

(** One guarded assignment of [modify_mib]: when the flag is set, the
    field is written and [modified] becomes true. *)
Definition rule (flag : bool) (upd : srsran_mib_nr_t -> srsran_mib_nr_t)
    (st : srsran_mib_nr_t * bool) : srsran_mib_nr_t * bool :=
  if flag then (upd (fst st), true) else st.

(** [bool SsbProcessor::modify_mib(srsran_mib_nr_t& mib, const AttackConfig&)]:
    the MIB after the call and the returned [modified] flag.  The three
    rules are, in source order: cell_barred (always set to [true]),
    coreset0_idx, ss0_idx.  The function has no rule for
    [modify_intra_freq_resel] and never reads [cell_barred_value]. *)
Definition modify_mib (mib : srsran_mib_nr_t) (attack_config : AttackConfig)
    : srsran_mib_nr_t * bool :=
  let st := (mib, false) in
  let st := rule (modify_cell_barred attack_config) (set_cell_barred true) st in
  let st := rule (modify_coreset0_idx attack_config)
                 (set_coreset0_idx (coreset0_idx_value attack_config)) st in
  let st := rule (modify_ss0_idx attack_config)
                 (set_ss0_idx (ss0_idx_value attack_config)) st in
  st.

(** The MIB with the four fields a rule may target replaced. *)
Definition with_targets (m : srsran_mib_nr_t) (cb : bool) (c0 s0 : Z) (ifr : bool) :=
  set_intra_freq_reselection ifr (set_cell_barred cb
    {| sfn := sfn m; ssb_idx := ssb_idx m; hrf := hrf m;
       scs_common := scs_common m; ssb_offset := ssb_offset m;
       dmrs_typeA_pos := dmrs_typeA_pos m; coreset0_idx := c0;
       ss0_idx := s0; cell_barred := cell_barred m;
       intra_freq_reselection := intra_freq_reselection m |}).

(** Selectivity as the specification words it: a disabled rule leaves
    its field alone, an enabled rule stores the configured value. *)
Definition selectivity_as_stated (m : srsran_mib_nr_t) (c : AttackConfig) : Prop :=
  let out := fst (modify_mib m c) in
  (cell_barred out =
     if modify_cell_barred c then cell_barred_value c else cell_barred m) /\
  (coreset0_idx out =
     if modify_coreset0_idx c then coreset0_idx_value c else coreset0_idx m) /\
  (ss0_idx out =
     if modify_ss0_idx c then ss0_idx_value c else ss0_idx m) /\
  (intra_freq_reselection out =
     if modify_intra_freq_resel c then intra_freq_resel_value c
     else intra_freq_reselection m).

(** Concrete inputs used to exercise the function. *)
Definition mib_sample : srsran_mib_nr_t :=
  {| sfn := 512; ssb_idx := 0; hrf := false; scs_common := scs_30kHz;
     ssb_offset := 6; dmrs_typeA_pos := 2; coreset0_idx := 1; ss0_idx := 0;
     cell_barred := false; intra_freq_reselection := true |}.

Definition attack_base : AttackConfig :=
  {| target_pci := 42; scan_for_target := true;
     modify_coreset0_idx := false; modify_ss0_idx := false;
     modify_cell_barred := false; modify_intra_freq_resel := false;
     coreset0_idx_value := 15; ss0_idx_value := 7;
     cell_barred_value := true; intra_freq_resel_value := false;
     tx_power_db := 0; tx_power_offset_db := 0; continuous_tx := true;
     max_bursts := 0; burst_interval_us := 500; burst_length_ms := 1 |}.

Definition with_flags (a : AttackConfig) (cb c0 s0 ifr cbv : bool) : AttackConfig :=
  {| target_pci := target_pci a; scan_for_target := scan_for_target a;
     modify_coreset0_idx := c0; modify_ss0_idx := s0;
     modify_cell_barred := cb; modify_intra_freq_resel := ifr;
     coreset0_idx_value := coreset0_idx_value a;
     ss0_idx_value := ss0_idx_value a;
     cell_barred_value := cbv;
     intra_freq_resel_value := intra_freq_resel_value a;
     tx_power_db := tx_power_db a; tx_power_offset_db := tx_power_offset_db a;
     continuous_tx := continuous_tx a; max_bursts := max_bursts a;
     burst_interval_us := burst_interval_us a;
     burst_length_ms := burst_length_ms a |}.

(** [modify_cell_barred] on, with [cell_barred_value = false]. *)
Definition attack_unbar : AttackConfig :=
  with_flags attack_base true false false false false.

(** Only [modify_intra_freq_resel] on, with [intra_freq_resel_value = false]. *)
Definition attack_resel : AttackConfig :=
  with_flags attack_base false false false true true.

(** The three rules the function implements, all on. *)
Definition attack_all : AttackConfig :=
  with_flags attack_base true true true false true.

End Mib.

(** ** Configuration validation (ConfigParser::validate) *)

Module Validate.

(** The five SSB patterns [validate] accepts. *)
Definition ssb_patterns : list string := ["A"; "B"; "C"; "D"; "E"]%string.

(** [bool ConfigParser::validate(const Config&)].  Every check runs; a
    failing check prints a line and clears [valid].  Comparisons of
    [double] fields are the IEEE ones ([<=?] is false on NaN). *)
Definition validate (config : Config) : bool :=
  let valid := true in
  let valid :=
    if (srate_hz (rf config) <=? 0)%float then false else valid in
  let valid :=
    if ((rx_freq_hz (rf config) <=? 0)%float || (tx_freq_hz (rf config) <=? 0)%float)%bool
    then false else valid in
  let valid :=
    if (negb (pattern (ssb config) =? "A")%string &&
        negb (pattern (ssb config) =? "B")%string &&
        negb (pattern (ssb config) =? "C")%string &&
        negb (pattern (ssb config) =? "D")%string &&
        negb (pattern (ssb config) =? "E")%string)%bool
    then false else valid in
  let valid :=
    if (negb (scs_khz (ssb config) =? 15) && negb (scs_khz (ssb config) =? 30))%bool
    then false else valid in
  let valid := if target_pci (attack config) >? 1007 then false else valid in
  let valid := if coreset0_idx_value (attack config) >? 15 then false else valid in
  let valid := if ss0_idx_value (attack config) >? 15 then false else valid in
  valid.

(** The rejection conditions, one disjunct per check. *)
Definition rejected (config : Config) : Prop :=
  (srate_hz (rf config) <=? 0)%float = true \/
  ((rx_freq_hz (rf config) <=? 0)%float = true \/
   (tx_freq_hz (rf config) <=? 0)%float = true) \/
  ~ In (pattern (ssb config)) ssb_patterns \/
  (scs_khz (ssb config) <> 15 /\ scs_khz (ssb config) <> 30) \/
  target_pci (attack config) > 1007 \/
  coreset0_idx_value (attack config) > 15 \/
  ss0_idx_value (attack config) > 15.

End Validate.

(** ** Burst construction (transmit_spoofed_ssb, the repeat loop) *)

Module Burst.

Section Construction.
Context {A : Type}.

(** [std::memcpy(&dst[off], src, n * sizeof(A))] on vectors: defined only
    when the [n] elements lie inside both buffers. *)
Definition memcpy_at (dst : list A) (off : Z) (src : list A) (n : Z)
    : option (list A) :=
  if ((0 <=? off) && (0 <=? n) && (off + n <=? Z.of_nat (length dst))
      && (n <=? Z.of_nat (length src)))%bool
  then Some (firstn (Z.to_nat off) dst ++ firstn (Z.to_nat n) src
             ++ skipn (Z.to_nat (off + n)) dst)
  else None.

(** The loop [for (uint32_t i = 0; i < burst_length; i++)
    memcpy(&tx_buffer[i * base_samples], ssb_buffer.data(), ...)], with
    [count] iterations left and the index product taken in [uint32_t]. *)
Fixpoint copy_loop (count : nat) (i base_samples : Z)
    (ssb_buffer tx_buffer : list A) : option (list A) :=
  match count with
  | O => Some tx_buffer
  | S count' =>
      match memcpy_at tx_buffer (to_uint32 (i * base_samples))
                      ssb_buffer base_samples with
      | Some tx_buffer' =>
          copy_loop count' (i + 1) base_samples ssb_buffer tx_buffer'
      | None => None
      end
  end.

(** Lines 253-262: [total_samples = base_samples * burst_length] in
    [uint32_t], a value-initialised vector of that size, then the copy
    loop.  [None] is an out-of-bounds copy. *)
Definition build_burst (zero : A) (ssb_buffer : list A)
    (base_samples burst_length : Z) : option (list A) :=
  let total_samples := to_uint32 (base_samples * burst_length) in
  let tx_buffer := repeat zero (Z.to_nat total_samples) in
  copy_loop (Z.to_nat burst_length) 0 base_samples ssb_buffer tx_buffer.

(** [r] copies of [w], one after the other. *)
Definition repeated (w : list A) (r : nat) : list A := concat (repeat w r).

End Construction.

(** A three-sample waveform. *)
Definition short_waveform : list Z := [1; 2; 3].

(** A configuration whose product leaves [uint32_t]: the default 23.04 MHz
    subframe (23040 samples) and [burst_length_ms = 186414]. *)
Definition overflow_base_samples : Z := 23040.
Definition overflow_burst_length : Z := 186414.
Definition overflow_waveform : list Z :=
  repeat 1 (Z.to_nat overflow_base_samples).

End Burst.

(** ** Burst normalisation (transmit_spoofed_ssb, lines 267-280) *)

Module Normalize.

(** The arithmetic the normalisation step uses, as an interface; the
    program computes with the binary32 instance below. *)
Class SampleArith (F : Type) := {
  f_zero : F;                 (* 0.0f *)
  f_add : F -> F -> F;
  f_mul : F -> F -> F;
  f_div : F -> F -> F;
  f_sqrt : F -> F;            (* std::sqrt *)
  f_of_uint32 : Z -> F;       (* conversion of [nsamples] to float *)
  target_amplitude : F;       (* 0.7f *)
  f_epsilon : F               (* 1e-12f *)
}.

Section Generic.
Context {F : Type} `{SampleArith F}.

(** [std::norm] of a [std::complex<float>]: re*re + im*im. *)
Definition norm (z : F * F) : F :=
  f_add (f_mul (fst z) (fst z)) (f_mul (snd z) (snd z)).

(** [z *= s] for a real scalar [s]: both parts are multiplied. *)
Definition scale (s : F) (z : F * F) : F * F :=
  (f_mul (fst z) s, f_mul (snd z) s).

(** [check_power] after the accumulation loop. *)
Definition check_power (tx_buffer : list (F * F)) : F :=
  fold_left (fun acc z => f_add acc (norm z)) tx_buffer f_zero.

(** [std::sqrt(check_power / nsamples)], with [nsamples] the buffer size. *)
Definition current_amplitude (tx_buffer : list (F * F)) : F :=
  f_sqrt (f_div (check_power tx_buffer)
                (f_of_uint32 (Z.of_nat (length tx_buffer)))).

Definition scale_factor (tx_buffer : list (F * F)) : F :=
  f_div target_amplitude (f_add (current_amplitude tx_buffer) f_epsilon).

(** The buffer after the rescale loop. *)
Definition normalize_burst (tx_buffer : list (F * F)) : list (F * F) :=
  map (scale (scale_factor tx_buffer)) tx_buffer.

End Generic.

(** *** binary32 *)

Definition prec32 : Z := 24.
Definition emax32 : Z := 128.

Definition binary32 : Type := spec_float.

Definition b32_of_Z (z : Z) : binary32 := binary_normalize prec32 emax32 z 0 false.

(** The literals [0.7f] and [1e-12f] as binary32 numbers. *)
Definition b32_0_7 : binary32 := S754_finite false 11744051 (-24).
Definition b32_1em12 : binary32 := S754_finite false 9223372 (-63).

#[global] Instance binary32_arith : SampleArith binary32 := {|
  f_zero := S754_zero false;
  f_add := SFadd prec32 emax32;
  f_mul := SFmul prec32 emax32;
  f_div := SFdiv prec32 emax32;
  f_sqrt := SFsqrt prec32 emax32;
  f_of_uint32 := b32_of_Z;
  target_amplitude := b32_0_7;
  f_epsilon := b32_1em12
|}.

Definition is_zero (x : binary32) : bool :=
  match x with S754_zero _ => true | _ => false end.

Definition is_nan_or_inf (x : binary32) : bool :=
  match x with S754_nan | S754_infinity _ => true | _ => false end.

Definition zero_sample (z : binary32 * binary32) : Prop :=
  is_zero (fst z) = true /\ is_zero (snd z) = true.

Definition nonzero_sample (z : binary32 * binary32) : bool :=
  negb (is_zero (fst z) && is_zero (snd z)).

(** "Within a small tolerance of the target", read generously: the RMS
    amplitude differs from 0.7 by at most 0.07 (ten per cent). *)
Definition b32_0_07 : binary32 := S754_finite false 9395241 (-27).

Definition near_target (tx_buffer : list (binary32 * binary32)) : bool :=
  SFleb (SFabs (SFsub prec32 emax32 (current_amplitude tx_buffer) b32_0_7))
        b32_0_07.

(** Normalisation as the specification words it: a buffer with a non-zero
    sample comes out with RMS amplitude near the target. *)
Definition normalizes_to_target (tx_buffer : list (binary32 * binary32)) : Prop :=
  existsb nonzero_sample tx_buffer = true ->
  near_target (normalize_burst tx_buffer) = true.

(** A one-sample burst of amplitude 2^-40 (about 9.1e-13). *)
Definition faint_burst : list (binary32 * binary32) :=
  [(S754_finite false 8388608 (-63), S754_zero false)].

(** Half the target, 0.35f. *)
Definition b32_0_35 : binary32 := S754_finite false 11744051 (-25).

(** A silent burst, with zeros of both signs. *)
Definition silent_burst : list (binary32 * binary32) :=
  [(S754_zero false, S754_zero true); (S754_zero false, S754_zero false)].

(** Neither part of the sample is a NaN or an infinity. *)
Definition finite_sample (z : binary32 * binary32) : Prop :=
  is_nan_or_inf (fst z) = false /\ is_nan_or_inf (snd z) = false.

End Normalize.

(** ** The outside world: transport, codec, clock, cancellation flag *)

(** What running a loop model gives: a returned value, a run the C++
    standard leaves undefined (a copy outside a buffer), or a model that
    ran out of fuel before the loop ended. *)
Inductive outcome (A : Type) : Type :=
| Returns (a : A)
| Undefined
| OutOfFuel.
Arguments Returns {A} a.
Arguments Undefined {A}.
Arguments OutOfFuel {A}.

Module World.

Section Records.
Context {F pbch : Type}.

(** [RfHandler], seen from its callers.  The [k]-th call of a method is
    answered by the oracle at index [k]. *)
Record RfHandler := {
  start_rx : bool;
  start_tx : bool;
  (** returned count and the contents of the caller's buffer afterwards *)
  receive : nat -> Z -> Z * list (F * F);
  (** buffer, nsamples, start_of_burst, end_of_burst *)
  transmit : nat -> list (F * F) -> Z -> bool -> bool -> Z
}.

(** [srsran_ssb_search_res_t], the fields [SsbProcessor::scan] reads. *)
Record srsran_ssb_search_res_t := {
  N_id : Z;
  pbch_crc : bool;
  pbch_ssb_idx : Z;
  pbch_msg_of : pbch;
  snr_dB : F;
  rsrp_dB : F
}.

(** The PHY library behind [SsbProcessor]. *)
Record Phy := {
  initialized_ : bool;
  sf_sz : Z;
  (** [srsran_ssb_search]: success flag and result of the [k]-th search *)
  srsran_ssb_search : nat -> list (F * F) -> Z -> bool * srsran_ssb_search_res_t;
  (** [srsran_pbch_msg_nr_mib_unpack] *)
  mib_unpack : pbch -> Mib.srsran_mib_nr_t;
  (** [srsran_pbch_msg_nr_mib_pack], [None] on failure *)
  mib_pack : Mib.srsran_mib_nr_t -> option pbch;
  (** [srsran_ssb_add] into a zeroed subframe: [None] on failure *)
  srsran_ssb_add : Z -> pbch -> option (list (F * F));
  (** assignment of the [ssb_idx] and [hrf] fields of a PBCH message *)
  pbch_set_idx_hrf : pbch -> Z -> bool -> pbch;
  pbch_zero : pbch
}.

Record SsbSearchResult := {
  found : bool;
  pci : Z;
  ssb_idx : Z;
  mib : Mib.srsran_mib_nr_t;
  pbch_msg : pbch;
  snr_db : F;
  rsrp_dbm : F
}.

End Records.
Arguments RfHandler F : clear implicits.
Arguments srsran_ssb_search_res_t F pbch : clear implicits.
Arguments Phy F pbch : clear implicits.
Arguments SsbSearchResult F pbch : clear implicits.

(** [static_cast<uint32_t>] of a [double]: truncation (not defined by the
    language outside the range of the target; taken modulo 2^32 here, and
    0 for negative numbers, infinities and NaN). *)
Definition double_to_uint32 (x : float) : Z :=
  match Prim2SF x with
  | S754_finite false m e =>
      to_uint32 (if 0 <=? e then Zpos m * 2 ^ e else Zpos m / 2 ^ (- e))
  | _ => 0
  end.

(** Conversion of an integer tick count to [double]. *)
Definition double_of_Z (z : Z) : float :=
  SF2Prim (binary_normalize FloatOps.prec FloatOps.emax z 0 false).

(** [std::chrono::duration<double>(t1 - t0).count()] for two readings of
    the steady clock, in nanosecond ticks. *)
Definition duration_sec (t0 t1 : Z) : float :=
  (double_of_Z (t1 - t0) / 1000000000)%float.

End World.

(** ** SsbProcessor: the methods the orchestration calls *)

Module SsbProcessor.
Import World.

Section Methods.
Context {F pbch : Type} `{Normalize.SampleArith F}.
Variable phy : Phy F pbch.

Definition mib_zero : Mib.srsran_mib_nr_t :=
  {| Mib.sfn := 0; Mib.ssb_idx := 0; Mib.hrf := false;
     Mib.scs_common := Mib.scs_15kHz; Mib.ssb_offset := 0;
     Mib.dmrs_typeA_pos := 0; Mib.coreset0_idx := 0; Mib.ss0_idx := 0;
     Mib.cell_barred := false; Mib.intra_freq_reselection := false |}.

(** [SsbSearchResult result = {}; result.found = false;] *)
Definition result_zero : SsbSearchResult F pbch :=
  {| found := false; pci := 0; ssb_idx := 0; mib := mib_zero;
     pbch_msg := pbch_zero phy; snr_db := Normalize.f_zero;
     rsrp_dbm := Normalize.f_zero |}.

(** [SsbProcessor::scan], for the [k]-th search of the run. *)
Definition scan (k : nat) (buffer : list (F * F)) (nsamples : Z)
    (target_pci : option Z) : SsbSearchResult F pbch :=
  if negb (initialized_ phy) then result_zero
  else
    let '(ok, search_res) := srsran_ssb_search phy k buffer nsamples in
    if negb ok then result_zero
    else if negb (pbch_crc search_res) then result_zero
    else if match target_pci with
            | Some t => negb (N_id search_res =? t)
            | None => false
            end
    then result_zero
    else
      {| found := true;
         pci := N_id search_res;
         ssb_idx := pbch_ssb_idx search_res;
         mib := mib_unpack phy (pbch_msg_of search_res);
         pbch_msg := pbch_msg_of search_res;
         snr_db := snr_dB search_res;
         rsrp_dbm := rsrp_dB search_res |}.

(** [SsbProcessor::encode_mib]: the PBCH message, or [None] when packing
    fails. *)
Definition encode_mib (m : Mib.srsran_mib_nr_t) (idx : Z) (half : bool)
    : option pbch :=
  match mib_pack phy m with
  | None => None
  | Some msg => Some (pbch_set_idx_hrf phy msg idx half)
  end.

Definition get_subframe_size : Z :=
  if negb (initialized_ phy) then 0 else sf_sz phy.

(** [SsbProcessor::generate_ssb]: the returned sample count and the
    contents of the output buffer (which entered the call zero-filled with
    [get_subframe_size ()] samples). *)
Definition generate_ssb (cell : Z) (msg : pbch) (output : list (F * F))
    : Z * list (F * F) :=
  if negb (initialized_ phy) then (0, output)
  else
    let sf_size := get_subframe_size in
    if sf_size =? 0 then (0, output)
    else
      match srsran_ssb_add phy cell msg with
      | None => (0, output)
      | Some samples => (sf_size, samples)
      end.

End Methods.

End SsbProcessor.

(** ** Burst transmitter (transmit_spoofed_ssb) *)

Module Transmitter.
Import World.

Section Transmit.
Context {F pbch : Type} `{Normalize.SampleArith F}.
Variable rf : RfHandler F.
Variable phy : Phy F pbch.
(** value of the [running] flag at the [k]-th test of the loop condition *)
Variable running : nat -> bool.
Variable config : Config.

Definition max_consecutive_errors : Z := 10.

(** Loop variables.  [iterations] counts the loop bodies entered so far;
    each of them makes exactly one [rf.transmit] call. *)
Record tx_state := {
  tx_count : Z;
  consecutive_errors : Z;
  iterations : nat
}.

Inductive tx_exit :=
| exit_cancelled     (* [running] read as false *)
| exit_max_bursts    (* [tx_count < (int)max_bursts] false *)
| exit_fatal.        (* the FATAL line and [break] *)

Inductive tx_step_result :=
| TxContinue (st : tx_state)
| TxStop (st : tx_state) (why : tx_exit).

(** One evaluation of the loop condition and, when it holds, one loop
    body (lines 330-390; the statistics display is not modelled).
    [tx_count++] is taken with 32-bit wrap-around. *)
Definition tx_step (tx_buffer : list (F * F)) (nsamples : Z) (st : tx_state)
    : tx_step_result :=
  if negb (running (iterations st)) then TxStop st exit_cancelled
  else if negb ((max_bursts (attack config) =? 0)
                || (tx_count st <? to_int (max_bursts (attack config))))
  then TxStop st exit_max_bursts
  else
    let is_start := tx_count st =? 0 in
    let is_end := burst_interval_us (attack config) >? 0 in
    let nsent := transmit rf (iterations st) tx_buffer nsamples is_start is_end in
    if nsent <? 0 then
      let errors := consecutive_errors st + 1 in
      let st' := {| tx_count := tx_count st;
                    consecutive_errors := errors;
                    iterations := S (iterations st) |} in
      if errors >=? max_consecutive_errors then TxStop st' exit_fatal
      else TxContinue st'
    else
      TxContinue {| tx_count := to_int (tx_count st + 1);
                    consecutive_errors := 0;
                    iterations := S (iterations st) |}.

Fixpoint tx_loop (fuel : nat) (tx_buffer : list (F * F)) (nsamples : Z)
    (st : tx_state) : outcome (tx_state * tx_exit) :=
  match fuel with
  | O => OutOfFuel
  | S fuel' =>
      match tx_step tx_buffer nsamples st with
      | TxStop st' why => Returns (st', why)
      | TxContinue st' => tx_loop fuel' tx_buffer nsamples st'
      end
  end.

Definition tx_init : tx_state :=
  {| tx_count := 0; consecutive_errors := 0; iterations := 0 |}.

(** What a call of [transmit_spoofed_ssb] leaves behind: its return value,
    the final [tx_count], the number of [rf.transmit] calls, and whether
    the FATAL line was printed. *)
Record TxReport := {
  returned : bool;
  bursts_sent : Z;
  transmit_calls : nat;
  fatal_reported : bool
}.

Definition early_return (b : bool) : TxReport :=
  {| returned := b; bursts_sent := 0; transmit_calls := 0;
     fatal_reported := false |}.

(** [bool transmit_spoofed_ssb(rf, ssb_proc, config, original_ssb)]. *)
Definition transmit_spoofed_ssb (fuel : nat)
    (original_ssb : SsbSearchResult F pbch) : outcome TxReport :=
  let modified_mib := fst (Mib.modify_mib (mib original_ssb) (attack config)) in
  match SsbProcessor.encode_mib phy modified_mib (ssb_idx original_ssb)
          (Mib.hrf (mib original_ssb)) with
  | None => Returns (early_return false)
  | Some modified_pbch_msg =>
    let ssb_size := SsbProcessor.get_subframe_size phy in
    let '(base_samples, ssb_buffer) :=
      SsbProcessor.generate_ssb phy (pci original_ssb) modified_pbch_msg
        (repeat (Normalize.f_zero, Normalize.f_zero) (Z.to_nat ssb_size)) in
    if base_samples =? 0 then Returns (early_return false)
    else
      let burst_length := burst_length_ms (attack config) in
      let total_samples := to_uint32 (base_samples * burst_length) in
      match Burst.build_burst (Normalize.f_zero, Normalize.f_zero)
              ssb_buffer base_samples burst_length with
      | None => Undefined
      | Some tx_buffer =>
        let nsamples := total_samples in
        let tx_buffer := Normalize.normalize_burst tx_buffer in
        if negb (start_tx rf) then Returns (early_return false)
        else if continuous_tx (attack config) then
          match tx_loop fuel tx_buffer nsamples tx_init with
          | Returns (st, why) =>
              Returns {| returned := true;
                         bursts_sent := tx_count st;
                         transmit_calls := iterations st;
                         fatal_reported :=
                           match why with exit_fatal => true | _ => false end |}
          | Undefined => Undefined
          | OutOfFuel => OutOfFuel
          end
        else
          let nsent := transmit rf 0 tx_buffer nsamples true true in
          if nsent <? 0 then
            Returns {| returned := false; bursts_sent := 0;
                       transmit_calls := 1; fatal_reported := false |}
          else
            Returns {| returned := true; bursts_sent := 1;
                       transmit_calls := 1; fatal_reported := false |}
      end
  end.

End Transmit.

(** A transport whose transmit call always returns a negative result. *)
Definition always_fails {F : Type} (rf : RfHandler F) : Prop :=
  forall k buf n sob eob, transmit rf k buf n sob eob < 0.

(** A transport whose transmit call never returns a negative result. *)
Definition always_sends {F : Type} (rf : RfHandler F) : Prop :=
  forall k buf n sob eob, 0 <= transmit rf k buf n sob eob.

(** The burst limit lets the loop body be entered with [tx_count = 0]. *)
Definition can_start (config : Config) : Prop :=
  max_bursts (attack config) = 0 \/ 0 < to_int (max_bursts (attack config)).

End Transmitter.

(** ** Acquisition scanner (scan_for_ssb) *)

Module Scanner.
Import World.

(** [config.rf.srate_hz] *)
Definition config_srate_hz (config : Config) : float := srate_hz (rf config).

Section Scan.
Context {F pbch : Type} `{Normalize.SampleArith F}.
Variable rf : RfHandler F.
Variable phy : Phy F pbch.
(** value of the [running] flag at the [k]-th test of [while (running)] *)
Variable running : nat -> bool.
(** [k]-th reading of [steady_clock::now()], in ticks of a nanosecond;
    reading 0 is [start_time] *)
Variable steady_clock : nat -> Z.
Variable config : Config.

(** 1 ms chunks, accumulated into a 10 ms search window. *)
Definition samples_per_iter : Z :=
  double_to_uint32 (config_srate_hz config * 0x1.0624dd2f1a9fcp-10)%float.
Definition search_buffer_size : Z :=
  double_to_uint32 (config_srate_hz config * 0x1.47ae147ae147bp-7)%float.

Record scan_state := {
  search_buffer : list (F * F);
  search_buffer_pos : Z;
  rx_calls : nat;              (* [rf.receive] calls made so far *)
  checks : nat;                (* tests of the loop condition so far *)
  searches : nat;              (* [ssb_proc.scan] calls made so far *)
  successful_receives : Z;
  result : option (SsbSearchResult F pbch)   (* last value assigned to [result] *)
}.

Inductive scan_step_result :=
| ScanContinue (st : scan_state)
| ScanFound (r : SsbSearchResult F pbch)
| ScanTimeout (st : scan_state)
| ScanCancelled (st : scan_state)
| ScanUndefined.

Definition target_filter : option Z :=
  if scan_for_target (attack config) then Some (target_pci (attack config))
  else None.

(** One test of [while (running)] and, when it holds, one loop body
    (lines 117-196; the sample sink and progress display are not
    modelled). *)
Definition scan_step (st : scan_state) : scan_step_result :=
  if negb (running (checks st)) then ScanCancelled st
  else
    let elapsed_sec :=
      duration_sec (steady_clock 0) (steady_clock (S (checks st))) in
    if (scan_duration_sec (operation config) <? elapsed_sec)%float
    then ScanTimeout st
    else
      let '(nrecv, rx_buffer) := receive rf (rx_calls st) samples_per_iter in
      if nrecv <=? 0 then
        ScanContinue {| search_buffer := search_buffer st;
                        search_buffer_pos := search_buffer_pos st;
                        rx_calls := S (rx_calls st);
                        checks := S (checks st);
                        searches := searches st;
                        successful_receives := successful_receives st;
                        result := result st |}
      else
        let samples_to_copy :=
          Z.min (to_uint32 nrecv)
                (to_uint32 (search_buffer_size - search_buffer_pos st)) in
        match Burst.memcpy_at (search_buffer st) (search_buffer_pos st)
                rx_buffer samples_to_copy with
        | None => ScanUndefined
        | Some buffer =>
          let pos := to_uint32 (search_buffer_pos st + samples_to_copy) in
          if pos >=? search_buffer_size then
            let r := SsbProcessor.scan phy (searches st) buffer
                       search_buffer_size target_filter in
            if found r then ScanFound r
            else
              ScanContinue {| search_buffer := buffer;
                              search_buffer_pos := 0;
                              rx_calls := S (rx_calls st);
                              checks := S (checks st);
                              searches := S (searches st);
                              successful_receives := successful_receives st + 1;
                              result := Some r |}
          else
            ScanContinue {| search_buffer := buffer;
                            search_buffer_pos := pos;
                            rx_calls := S (rx_calls st);
                            checks := S (checks st);
                            searches := searches st;
                            successful_receives := successful_receives st + 1;
                            result := result st |}
        end.

(** State at loop entry: an empty (zero-filled) window, and ten
    [rf.receive] calls already spent flushing stale samples. *)
Definition scan_init : scan_state :=
  {| search_buffer :=
       repeat (Normalize.f_zero, Normalize.f_zero) (Z.to_nat search_buffer_size);
     search_buffer_pos := 0;
     rx_calls := 10;
     checks := 0;
     searches := 0;
     successful_receives := 0;
     result := None |}.

(** The state after [n] complete loop bodies, if the loop gets that far. *)
Fixpoint scan_iter (n : nat) : option scan_state :=
  match n with
  | O => Some scan_init
  | S n' =>
      match scan_iter n' with
      | Some st =>
          match scan_step st with
          | ScanContinue st' => Some st'
          | _ => None
          end
      | None => None
      end
  end.

Fixpoint scan_loop (fuel : nat) (st : scan_state)
    : outcome (bool * option (SsbSearchResult F pbch)) :=
  match fuel with
  | O => OutOfFuel
  | S fuel' =>
      match scan_step st with
      | ScanContinue st' => scan_loop fuel' st'
      | ScanFound r => Returns (true, Some r)
      | ScanTimeout st' => Returns (false, result st')
      | ScanCancelled st' => Returns (false, result st')
      | ScanUndefined => Undefined
      end
  end.

(** [bool scan_for_ssb(rf, ssb_proc, config, result)]: the returned flag
    and the value left in [result]. *)
Definition scan_for_ssb (fuel : nat)
    : outcome (bool * option (SsbSearchResult F pbch)) :=
  if negb (start_rx rf) then Returns (false, None)
  else scan_loop fuel scan_init.

(** The window cursor is inside the window, which has its full size. *)
Definition window_ok (st : scan_state) : Prop :=
  0 <= search_buffer_pos st <= search_buffer_size /\
  Z.of_nat (length (search_buffer st)) = search_buffer_size.

(** The codec never reports a successful find. *)
Definition never_found : Prop :=
  forall k buffer nsamples target,
    found (SsbProcessor.scan phy k buffer nsamples target) = false.

(** A positive count returned by [rf.receive] is backed by that many
    samples in the receive buffer. *)
Definition delivers : Prop :=
  forall k n, 0 < fst (receive rf k n) ->
    to_uint32 (fst (receive rf k n)) <= Z.of_nat (length (snd (receive rf k n))).

(** [elapsed_sec > config.operation.scan_duration_sec] at the [k]-th test
    of the loop condition. *)
Definition deadline_passed (k : nat) : bool :=
  (scan_duration_sec (operation config)
   <? duration_sec (steady_clock 0) (steady_clock (S k)))%float.

End Scan.

End Scanner.

(** ** main *)

Module Main.
Import World.

Section Main.
Context {F pbch : Type}.

(** [ConfigParser::load_from_file] once the file is parsed: the parsed
    configuration is kept only if [validate] accepts it. *)
Definition load_from_file (parsed : option Config) : option Config :=
  match parsed with
  | Some config => if Validate.validate config then Some config else None
  | None => None
  end.

(** [main] after command-line parsing; the value is the exit code.  The two
    stages are passed in as functions of what [main] hands them. *)
Definition main (parsed : option Config) (rf_init ssb_proc_init : bool)
    (scan_for_ssb : Config -> outcome (bool * option (SsbSearchResult F pbch)))
    (transmit_spoofed_ssb :
       Config -> SsbSearchResult F pbch -> outcome Transmitter.TxReport)
    : outcome Z :=
  match load_from_file parsed with
  | None => Returns 1
  | Some config =>
    if negb rf_init then Returns 1
    else if negb ssb_proc_init then Returns 1
    else
      match scan_for_ssb config with
      | Returns (true, Some ssb_result) =>
          match transmit_spoofed_ssb config ssb_result with
          | Returns report =>
              if Transmitter.returned report then Returns 0 else Returns 1
          | Undefined => Undefined
          | OutOfFuel => OutOfFuel
          end
      | Returns _ => Returns 1
      | Undefined => Undefined
      | OutOfFuel => OutOfFuel
      end
  end.

End Main.

End Main.

(** ** Concrete worlds *)

(** Small, fully concrete configurations, transports and codecs on which
    the models are run. *)
Module Scenario.
Import World.

(** The defaults of [load_from_file], at a 2500 Hz sample rate (2-sample
    chunks, 25-sample window) and a 3 s scan. *)
Definition base_config : Config :=
  {| rf := {| device_name := "uhd"; device_args := "";
              tx_freq_hz := 3510000000; rx_freq_hz := 3510000000;
              srate_hz := 2500; tx_gain_db := 60; rx_gain_db := 40 |};
     ssb := {| pattern := "C"; scs_khz := 30; periodicity_ms := 20;
               f_offset_hz := 0; ssb_freq_offset_hz := 0;
               beta_pss := 0; beta_sss := 0; beta_pbch := 0;
               beta_pbch_dmrs := 0 |};
     attack := {| target_pci := 42; scan_for_target := true;
                  modify_coreset0_idx := false; modify_ss0_idx := false;
                  modify_cell_barred := true; modify_intra_freq_resel := false;
                  coreset0_idx_value := 15; ss0_idx_value := 15;
                  cell_barred_value := true; intra_freq_resel_value := false;
                  tx_power_db := 0; tx_power_offset_db := 0;
                  continuous_tx := true; max_bursts := 0;
                  burst_interval_us := 500; burst_length_ms := 1 |};
     operation := {| scan_duration_sec := 3; log_level := "info";
                     log_file := "ssb_spoofer.log"; save_samples := false;
                     samples_file := "rx_samples.dat" |} |}.

Definition with_max_bursts (n : Z) (c : Config) : Config :=
  {| rf := rf c; ssb := ssb c; operation := operation c;
     attack :=
       {| target_pci := target_pci (attack c);
          scan_for_target := scan_for_target (attack c);
          modify_coreset0_idx := modify_coreset0_idx (attack c);
          modify_ss0_idx := modify_ss0_idx (attack c);
          modify_cell_barred := modify_cell_barred (attack c);
          modify_intra_freq_resel := modify_intra_freq_resel (attack c);
          coreset0_idx_value := coreset0_idx_value (attack c);
          ss0_idx_value := ss0_idx_value (attack c);
          cell_barred_value := cell_barred_value (attack c);
          intra_freq_resel_value := intra_freq_resel_value (attack c);
          tx_power_db := tx_power_db (attack c);
          tx_power_offset_db := tx_power_offset_db (attack c);
          continuous_tx := continuous_tx (attack c);
          max_bursts := n;
          burst_interval_us := burst_interval_us (attack c);
          burst_length_ms := burst_length_ms (attack c) |} |}.

Definition with_target_pci (n : Z) (c : Config) : Config :=
  {| rf := rf c; ssb := ssb c; operation := operation c;
     attack :=
       {| target_pci := n;
          scan_for_target := scan_for_target (attack c);
          modify_coreset0_idx := modify_coreset0_idx (attack c);
          modify_ss0_idx := modify_ss0_idx (attack c);
          modify_cell_barred := modify_cell_barred (attack c);
          modify_intra_freq_resel := modify_intra_freq_resel (attack c);
          coreset0_idx_value := coreset0_idx_value (attack c);
          ss0_idx_value := ss0_idx_value (attack c);
          cell_barred_value := cell_barred_value (attack c);
          intra_freq_resel_value := intra_freq_resel_value (attack c);
          tx_power_db := tx_power_db (attack c);
          tx_power_offset_db := tx_power_offset_db (attack c);
          continuous_tx := continuous_tx (attack c);
          max_bursts := max_bursts (attack c);
          burst_interval_us := burst_interval_us (attack c);
          burst_length_ms := burst_length_ms (attack c) |} |}.

Definition b32_one : Normalize.binary32 := S754_finite false 8388608 (-23).
Definition one_sample : Normalize.binary32 * Normalize.binary32 :=
  (b32_one, S754_zero false).

(** A codec with a 4-sample subframe whose search decodes cell 42 with a
    good CRC from the [first_hit]-th search on (never, when [first_hit] is
    [None]). *)
Definition phy (first_hit : option nat) : Phy Normalize.binary32 unit :=
  {| initialized_ := true;
     sf_sz := 4;
     srsran_ssb_search := fun k _ _ =>
       (true,
        {| N_id := 42;
           pbch_crc := match first_hit with
                       | Some h => (h <=? k)%nat
                       | None => false
                       end;
           pbch_ssb_idx := 0; pbch_msg_of := tt;
           snr_dB := b32_one; rsrp_dB := b32_one |});
     mib_unpack := fun _ => Mib.mib_sample;
     mib_pack := fun _ => Some tt;
     srsran_ssb_add := fun _ _ => Some (repeat one_sample 4);
     pbch_set_idx_hrf := fun msg _ _ => msg;
     pbch_zero := tt |}.

(** A transport that delivers every requested sample and whose transmit
    call returns [tx_result nsamples]. *)
Definition radio (tx_result : Z -> Z) : RfHandler Normalize.binary32 :=
  {| start_rx := true;
     start_tx := true;
     receive := fun _ n => (n, repeat one_sample (Z.to_nat n));
     transmit := fun _ _ nsamples _ _ => tx_result nsamples |}.

Definition tx_always_fails (nsamples : Z) : Z := -1.
Definition tx_always_sends (nsamples : Z) : Z := Z.max nsamples 0.

(** The search result [phy (Some 0)] produces, as [main] hands it on. *)
Definition found_result : SsbSearchResult Normalize.binary32 unit :=
  {| found := true; pci := 42; ssb_idx := 0; mib := Mib.mib_sample;
     pbch_msg := tt; snr_db := b32_one; rsrp_dbm := b32_one |}.

Definition always_running (k : nat) : bool := true.
Definition running_until (n k : nat) : bool := (k <? n)%nat.

(** A steady clock that advances one second between readings. *)
Definition one_second_clock (k : nat) : Z := Z.of_nat k * 1000000000.
(** A steady clock that advances one millisecond between readings. *)
Definition one_ms_clock (k : nat) : Z := Z.of_nat k * 1000000.

(** A valid configuration except for its target cell id. *)
Definition bad_pci_config : Config := with_target_pci 2000 base_config.

End Scenario.

(** ** Configuration file reader (parse_config_file, get_value, load_from_file) *)

Module ConfigFile.

Local Open Scope string_scope.

Definition tab : ascii := "009"%char.
Definition quote : ascii := "034"%char.

(** A character of the set [" \t"]. *)
Definition is_blank (c : ascii) : bool :=
  ((c =? " ")%char || (c =? tab)%char)%bool.

(** [s.find(c)]: position of the first [c], [None] for [npos]. *)
Fixpoint find (c : ascii) (s : string) : option nat :=
  match s with
  | EmptyString => None
  | String a s' => if (a =? c)%char then Some O else option_map S (find c s')
  end.

(** [s.find_first_not_of(" \t")]. *)
Fixpoint find_first_not_of_blank (s : string) : option nat :=
  match s with
  | EmptyString => None
  | String a s' =>
      if is_blank a then option_map S (find_first_not_of_blank s') else Some O
  end.

(** [s.find_last_not_of(" \t")]. *)
Fixpoint find_last_not_of_blank (s : string) : option nat :=
  match s with
  | EmptyString => None
  | String a s' =>
      match find_last_not_of_blank s' with
      | Some i => Some (S i)
      | None => if is_blank a then None else Some O
      end
  end.

(** [s.substr(pos)]: the rest of [s] from [pos] on. *)
Fixpoint substr_from (pos : nat) (s : string) : string :=
  match pos, s with
  | O, _ => s
  | S pos', String _ s' => substr_from pos' s'
  | S _, EmptyString => EmptyString
  end.

(** [s.substr(0, len)], which is also [s] after [s.erase(len)]. *)
Fixpoint prefix_of (len : nat) (s : string) : string :=
  match len, s with
  | S len', String a s' => String a (prefix_of len' s')
  | _, _ => EmptyString
  end.

(** [s.substr(pos, len)]. *)
Definition substr (pos len : nat) (s : string) : string :=
  prefix_of len (substr_from pos s).

(** [s.back()], for a non-empty [s]. *)
Fixpoint back (s : string) : option ascii :=
  match s with
  | EmptyString => None
  | String a EmptyString => Some a
  | String _ s' => back s'
  end.

(** [s.front()], for a non-empty [s]. *)
Definition front (s : string) : option ascii :=
  match s with
  | EmptyString => None
  | String a _ => Some a
  end.

(** [s.erase(0, s.find_first_not_of(" \t"))]: an [npos] count erases
    everything. *)
Definition erase_leading_blanks (s : string) : string :=
  match find_first_not_of_blank s with
  | Some n => substr_from n s
  | None => EmptyString
  end.

(** [s.erase(s.find_last_not_of(" \t") + 1)]: [npos + 1] is 0. *)
Definition erase_trailing_blanks (s : string) : string :=
  match find_last_not_of_blank s with
  | Some n => prefix_of (S n) s
  | None => EmptyString
  end.

(** [std::map<std::string, std::string>], as the bindings made so far,
    newest first; [find] sees the newest binding of a key. *)
Definition config_map : Type := list (string * string).

Fixpoint lookup (key : string) (m : config_map) : option string :=
  match m with
  | [] => None
  | (k, v) :: m' => if (k =? key)%string then Some v else lookup key m'
  end.

(** [config_map[full_key] = value] *)
Definition assign (key value : string) (m : config_map) : config_map :=
  (key, value) :: m.

Definition has_char (c : ascii) (o : option ascii) : bool :=
  match o with
  | Some a => (a =? c)%char
  | None => false
  end.

(** The key a line's key is stored under. *)
Definition full_key (current_section key : string) : string :=
  match current_section with
  | EmptyString => key
  | _ => current_section ++ "." ++ key
  end.

(** The body of the [while (std::getline(file, line))] loop of
    [parse_config_file]: the map and the current section after one line. *)
Definition parse_line (st : config_map * string) (line : string)
    : config_map * string :=
  let '(m, current_section) := st in
  (* strip comments *)
  let line :=
    match find "#" line with
    | Some comment_pos => substr 0 comment_pos line
    | None => line
    end in
  (* trim whitespace *)
  match find_first_not_of_blank line with
  | None => st
  | Some start =>
    let last :=
      match find_last_not_of_blank line with Some e => e | None => O end in
    let line := substr start (last - start + 1) line in
    match line with
    | EmptyString => st
    | _ =>
      (* section headers end with : *)
      if (has_char ":" (back line)
          && match find ":" line with
             | Some p => (p =? String.length line - 1)%nat
             | None => false
             end)%bool
      then (m, substr 0 (String.length line - 1) line)
      else
        (* parse key: value *)
        match find ":" line with
        | Some colon_pos =>
          let key := substr 0 colon_pos line in
          let value := substr_from (colon_pos + 1) line in
          let key := erase_trailing_blanks (erase_leading_blanks key) in
          let value := erase_trailing_blanks (erase_leading_blanks value) in
          (* remove quotes *)
          let value :=
            if (has_char quote (front value) && has_char quote (back value))%bool
            then substr 1 (String.length value - 2) value
            else value in
          (assign (full_key current_section key) value m, current_section)
        | None => st
        end
    end
  end.

(** [parse_config_file] on the lines [std::getline] yields; [None] stands
    for a file that could not be opened (the map stays empty). *)
Definition parse_config_file (file : option (list string)) : config_map :=
  match file with
  | None => []
  | Some lines => fst (fold_left parse_line lines ([], EmptyString))
  end.

(** [get_value<std::string>] *)
Definition get_string (m : config_map) (key default_value : string) : string :=
  match lookup key m with
  | Some v => v
  | None => default_value
  end.

(** [get_value<bool>] *)
Definition get_bool (m : config_map) (key : string) (default_value : bool)
    : bool :=
  match lookup key m with
  | None => default_value
  | Some value =>
      ((value =? "true") || (value =? "True") || (value =? "TRUE")
       || (value =? "1"))%bool
  end.

(** The generic [get_value<T>]: [extract] is the stream extraction
    [iss >> value] of the standard library, [None] when it fails. *)
Definition get_value {T : Type} (extract : string -> option T)
    (m : config_map) (key : string) (default_value : T) : T :=
  match lookup key m with
  | None => default_value
  | Some text =>
      match extract text with
      | Some value => value
      | None => default_value
      end
  end.

Section Load.
(** Stream extraction at the numeric types the loader reads. *)
Variable extract_double : string -> option float.
Variable extract_float : string -> option float.
Variable extract_uint32 : string -> option Z.
Variable extract_uint64 : string -> option Z.

(** The assignments of [ConfigParser::load_from_file].  [config] is the
    caller's object as it enters; the two fields the function never
    assigns ([ssb.f_offset_hz], [attack.tx_power_db]) keep what it held. *)
Definition fill (m : config_map) (config : Config) : Config :=
  {| rf :=
       {| device_name := get_string m "rf.device_name" "uhd";
          device_args := get_string m "rf.device_args" "";
          rx_freq_hz := get_value extract_double m "rf.rx_freq_hz" 3510000000%float;
          tx_freq_hz := get_value extract_double m "rf.tx_freq_hz" 3510000000%float;
          srate_hz := get_value extract_double m "rf.sample_rate_hz" 23040000%float;
          rx_gain_db := get_value extract_double m "rf.rx_gain_db" 40%float;
          tx_gain_db := get_value extract_double m "rf.tx_gain_db" 60%float |};
     ssb :=
       {| pattern := get_string m "ssb.pattern" "C";
          scs_khz := get_value extract_uint32 m "ssb.scs_khz" 30%Z;
          periodicity_ms := get_value extract_uint32 m "ssb.periodicity_ms" 20%Z;
          f_offset_hz := f_offset_hz (ssb config);
          ssb_freq_offset_hz :=
            get_value extract_double m "ssb.ssb_freq_offset_hz" 0%float;
          beta_pss := get_value extract_float m "ssb.beta_pss" 0%float;
          beta_sss := get_value extract_float m "ssb.beta_sss" 0%float;
          beta_pbch := get_value extract_float m "ssb.beta_pbch" 0%float;
          beta_pbch_dmrs := get_value extract_float m "ssb.beta_pbch_dmrs" 0%float |};
     attack :=
       {| target_pci := get_value extract_uint32 m "attack.target_pci" 0%Z;
          scan_for_target := get_bool m "attack.scan_for_target" true;
          modify_cell_barred := get_bool m "attack.modify_cell_barred" true;
          cell_barred_value := get_bool m "attack.cell_barred_value" true;
          modify_coreset0_idx := get_bool m "attack.modify_coreset0_idx" false;
          coreset0_idx_value :=
            get_value extract_uint32 m "attack.coreset0_idx_value" 15%Z;
          modify_ss0_idx := get_bool m "attack.modify_ss0_idx" false;
          ss0_idx_value := get_value extract_uint32 m "attack.ss0_idx_value" 15%Z;
          modify_intra_freq_resel :=
            get_bool m "attack.modify_intra_freq_resel" false;
          intra_freq_resel_value :=
            get_bool m "attack.intra_freq_resel_value" false;
          tx_power_db := tx_power_db (attack config);
          tx_power_offset_db :=
            get_value extract_double m "attack.tx_power_offset_db" 0%float;
          continuous_tx := get_bool m "attack.continuous_tx" true;
          max_bursts := get_value extract_uint64 m "attack.max_bursts" 0%Z;
          burst_interval_us :=
            get_value extract_uint32 m "attack.burst_interval_us" 500%Z;
          burst_length_ms :=
            get_value extract_uint32 m "attack.burst_length_ms" 1%Z |};
     operation :=
       {| scan_duration_sec :=
            get_value extract_double m "operation.scan_duration_sec" 10%float;
          log_level := get_string m "operation.log_level" "info";
          log_file := get_string m "operation.log_file" "ssb_spoofer.log";
          save_samples := get_bool m "operation.save_samples" false;
          samples_file :=
            get_string m "operation.samples_file" "rx_samples.dat" |} |}.

(** [bool ConfigParser::load_from_file(filename, config)]: the returned
    flag and the caller's object afterwards. *)
Definition load_from_file (file : option (list string)) (config : Config)
    : bool * Config :=
  let m := parse_config_file file in
  match m with
  | [] => (false, config)
  | _ => (Validate.validate (fill m config), fill m config)
  end.

End Load.

(** The keys [load_from_file] looks up. *)
Definition known_keys : list string :=
  [ "rf.device_name"; "rf.device_args"; "rf.rx_freq_hz"; "rf.tx_freq_hz";
    "rf.sample_rate_hz"; "rf.rx_gain_db"; "rf.tx_gain_db";
    "ssb.pattern"; "ssb.scs_khz"; "ssb.periodicity_ms";
    "ssb.ssb_freq_offset_hz"; "ssb.beta_pss"; "ssb.beta_sss";
    "ssb.beta_pbch"; "ssb.beta_pbch_dmrs";
    "attack.target_pci"; "attack.scan_for_target";
    "attack.modify_cell_barred"; "attack.cell_barred_value";
    "attack.modify_coreset0_idx"; "attack.coreset0_idx_value";
    "attack.modify_ss0_idx"; "attack.ss0_idx_value";
    "attack.modify_intra_freq_resel"; "attack.intra_freq_resel_value";
    "attack.tx_power_offset_db"; "attack.continuous_tx";
    "attack.max_bursts"; "attack.burst_interval_us"; "attack.burst_length_ms";
    "operation.scan_duration_sec"; "operation.log_level";
    "operation.log_file"; "operation.save_samples";
    "operation.samples_file" ].

(** A string of spaces and tabs. *)
Fixpoint all_blank (s : string) : bool :=
  match s with
  | EmptyString => true
  | String a s' => (is_blank a && all_blank s')%bool
  end.

(** [c] does not occur in [s]. *)
Fixpoint lacks (c : ascii) (s : string) : bool :=
  match s with
  | EmptyString => true
  | String a s' => (negb (a =? c)%char && lacks c s')%bool
  end.

(** Neither the first nor the last character of [s] is a blank. *)
Definition trimmed (s : string) : bool :=
  match front s, back s with
  | Some a, Some b => (negb (is_blank a) && negb (is_blank b))%bool
  | _, _ => true
  end.

(** A string that starts with a character outside the blanks. *)
Definition starts_nonblank (s : string) : Prop :=
  exists a s', s = String a s' /\ is_blank a = false.

(** A string that ends with a character outside the blanks. *)
Definition ends_nonblank (s : string) : Prop :=
  exists a, back s = Some a /\ is_blank a = false.

(** What may follow the payload of a line: nothing, or a comment. *)
Definition comment_or_empty (s : string) : bool :=
  match s with
  | EmptyString => true
  | String a _ => (a =? "#")%char
  end.

(** A line that assigns nothing: once its comment is cut, no colon is
    left. *)
Definition inert_line (line : string) : Prop :=
  exists payload comment,
    line = payload ++ comment /\
    lacks "#" payload = true /\ lacks ":" payload = true /\
    comment_or_empty comment = true.

(** The configuration [load_from_file] builds when the file sets none of
    the keys it looks up. *)
Definition defaults (config : Config) : Config :=
  {| rf :=
       {| device_name := "uhd"; device_args := "";
          rx_freq_hz := 3510000000; tx_freq_hz := 3510000000;
          srate_hz := 23040000; rx_gain_db := 40; tx_gain_db := 60 |};
     ssb :=
       {| pattern := "C"; scs_khz := 30; periodicity_ms := 20;
          f_offset_hz := f_offset_hz (ssb config); ssb_freq_offset_hz := 0;
          beta_pss := 0; beta_sss := 0; beta_pbch := 0; beta_pbch_dmrs := 0 |};
     attack :=
       {| target_pci := 0; scan_for_target := true;
          modify_coreset0_idx := false; modify_ss0_idx := false;
          modify_cell_barred := true; modify_intra_freq_resel := false;
          coreset0_idx_value := 15; ss0_idx_value := 15;
          cell_barred_value := true; intra_freq_resel_value := false;
          tx_power_db := tx_power_db (attack config); tx_power_offset_db := 0;
          continuous_tx := true; max_bursts := 0;
          burst_interval_us := 500; burst_length_ms := 1 |};
     operation :=
       {| scan_duration_sec := 10; log_level := "info";
          log_file := "ssb_spoofer.log"; save_samples := false;
          samples_file := "rx_samples.dat" |} |}.

(** Extractors that read nothing, and a file with one unrelated key. *)
Definition extract_nothing {T : Type} (text : string) : option T := None.
Definition unrelated_file : option (list string) := Some ["note: hello"].
Definition comment_file : option (list string) :=
  Some ["# ssb spoofer"; ""; "   # nothing set"; "plain words"].

End ConfigFile.

(** ** RF handler (rf_handler.cc) over the srsRAN RF library *)

Module RfDevice.

Definition SRSRAN_SUCCESS : Z := 0.

(** The calls the handler makes into the RF library, with the arguments it
    passes; [rf_open] also keeps the status the library returned. *)
Inductive rf_event : Type :=
| rf_load_plugins
| rf_open (args : string) (status : Z)
| rf_close
| rf_set_rx_gain (gain_db : float)
| rf_set_tx_gain (gain_db : float)
| rf_set_rx_srate (srate_hz : float)
| rf_set_tx_srate (srate_hz : float)
| rf_set_rx_freq (ch : Z) (freq_hz : float)
| rf_set_tx_freq (ch : Z) (freq_hz : float)
| rf_start_rx_stream (now : bool)
| rf_stop_rx_stream
| rf_recv (nsamples : Z) (blocking : Z)
| rf_send_multi (nsamples : Z) (blocking start_of_burst end_of_burst : bool)
| rf_get_time.

(** The calls made so far, oldest first. *)
Definition trace : Type := list rf_event.

(** The RF library: what each call returns after the calls in the trace. *)
Record srsran_rf (A : Type) := {
  srsran_rf_open : trace -> string -> Z;
  srsran_rf_set_rx_gain : trace -> float -> Z;
  srsran_rf_set_tx_gain : trace -> float -> Z;
  srsran_rf_set_rx_srate : trace -> float -> float;
  srsran_rf_set_tx_srate : trace -> float -> float;
  srsran_rf_set_rx_freq : trace -> Z -> float -> float;
  srsran_rf_set_tx_freq : trace -> Z -> float -> float;
  srsran_rf_start_rx_stream : trace -> bool -> Z;
  srsran_rf_stop_rx_stream : trace -> Z;
  srsran_rf_recv : trace -> Z -> Z -> Z * list A;
  srsran_rf_send_multi : trace -> list A -> Z -> bool -> bool -> bool -> Z;
  srsran_rf_get_time : trace -> Z * float
}.

Arguments srsran_rf_open {A}.
Arguments srsran_rf_set_rx_gain {A}.
Arguments srsran_rf_set_tx_gain {A}.
Arguments srsran_rf_set_rx_srate {A}.
Arguments srsran_rf_set_tx_srate {A}.
Arguments srsran_rf_set_rx_freq {A}.
Arguments srsran_rf_set_tx_freq {A}.
Arguments srsran_rf_start_rx_stream {A}.
Arguments srsran_rf_stop_rx_stream {A}.
Arguments srsran_rf_recv {A}.
Arguments srsran_rf_send_multi {A}.
Arguments srsran_rf_get_time {A}.

(** The object: [initialized_], [config_] ([None] until [init] assigns it)
    and the calls it has made on [rf_device_]. *)
Record handler := {
  initialized_ : bool;
  config_ : option RfConfig;
  calls : trace
}.

(** [RfHandler::RfHandler()] *)
Definition fresh : handler :=
  {| initialized_ := false; config_ := None; calls := [] |}.

Definition NUL : ascii := "000"%char.

(** What [%s] reads of [args.c_str()]: the characters before the first
    NUL. *)
Fixpoint until_nul (s : string) : string :=
  match s with
  | EmptyString => EmptyString
  | String a s' => if (a =? NUL)%char then EmptyString else String a (until_nul s')
  end.

(** [std::snprintf(buf, size, "%s", s.c_str())]: at most [size - 1]
    characters are stored. *)
Definition snprintf (size : nat) (s : string) : string :=
  ConfigFile.prefix_of (size - 1) (until_nul s).

Definition called (e : rf_event) (h : handler) : handler :=
  {| initialized_ := initialized_ h; config_ := config_ h;
     calls := calls h ++ [e] |}.

Section Methods.
Context {A : Type}.
Variable dev : srsran_rf A.

(** [bool RfHandler::init(const RfConfig& config)] *)
Definition init (config : RfConfig) (h : handler) : bool * handler :=
  if initialized_ h then (false, h)
  else
    let h := {| initialized_ := false; config_ := Some config;
                calls := calls h |} in
    let args_cstr := snprintf 256 (device_args config) in
    let h := called rf_load_plugins h in
    let status := srsran_rf_open dev (calls h) args_cstr in
    let h := called (rf_open args_cstr status) h in
    if negb (status =? SRSRAN_SUCCESS) then (false, h)
    else
      let rx_gain := srsran_rf_set_rx_gain dev (calls h) (rx_gain_db config) in
      let h := called (rf_set_rx_gain (rx_gain_db config)) h in
      if negb (rx_gain =? SRSRAN_SUCCESS) then (false, called rf_close h)
      else
        let h := called (rf_set_rx_srate (srate_hz config)) h in
        let h := called (rf_set_tx_srate (srate_hz config)) h in
        let h := called (rf_set_rx_freq 0 (rx_freq_hz config)) h in
        let h := called (rf_set_tx_freq 0 (tx_freq_hz config)) h in
        let tx_gain := srsran_rf_set_tx_gain dev (calls h) (tx_gain_db config) in
        let h := called (rf_set_tx_gain (tx_gain_db config)) h in
        if negb (tx_gain =? SRSRAN_SUCCESS) then (false, called rf_close h)
        else
          (true, {| initialized_ := true; config_ := config_ h;
                    calls := calls h |}).

(** [RfHandler::~RfHandler()] *)
Definition destroy (h : handler) : handler :=
  if initialized_ h then called rf_close h else h.

(** [bool RfHandler::start_rx()] *)
Definition start_rx (h : handler) : bool * handler :=
  if negb (initialized_ h) then (false, h)
  else
    (srsran_rf_start_rx_stream dev (calls h) false =? SRSRAN_SUCCESS,
     called (rf_start_rx_stream false) h).

(** [bool RfHandler::stop_rx()] *)
Definition stop_rx (h : handler) : bool * handler :=
  if negb (initialized_ h) then (false, h)
  else
    (srsran_rf_stop_rx_stream dev (calls h) =? SRSRAN_SUCCESS,
     called rf_stop_rx_stream h).

(** [bool RfHandler::start_tx()] *)
Definition start_tx (h : handler) : bool * handler :=
  if negb (initialized_ h) then (false, h) else (true, h).

(** [bool RfHandler::stop_tx()] *)
Definition stop_tx (h : handler) : bool * handler :=
  if negb (initialized_ h) then (false, h) else (true, h).

(** [int RfHandler::receive(buffer, nsamples)]: the returned count and
    what the library wrote to [buffer] ([None]: untouched). *)
Definition receive (nsamples : Z) (h : handler)
    : (Z * option (list A)) * handler :=
  if negb (initialized_ h) then ((-1, None), h)
  else
    let '(nrecv, data) := srsran_rf_recv dev (calls h) nsamples 1 in
    ((nrecv, Some data), called (rf_recv nsamples 1) h).

(** [int RfHandler::transmit(buffer, nsamples, start_of_burst,
    end_of_burst)] *)
Definition transmit (buffer : list A) (nsamples : Z)
    (start_of_burst end_of_burst : bool) (h : handler) : Z * handler :=
  if negb (initialized_ h) then (-1, h)
  else
    (srsran_rf_send_multi dev (calls h) buffer nsamples true
       start_of_burst end_of_burst,
     called (rf_send_multi nsamples true start_of_burst end_of_burst) h).

(** [double RfHandler::set_rx_freq(double freq_hz)] *)
Definition set_rx_freq (freq_hz : float) (h : handler) : float * handler :=
  if negb (initialized_ h) then (0%float, h)
  else (srsran_rf_set_rx_freq dev (calls h) 0 freq_hz,
        called (rf_set_rx_freq 0 freq_hz) h).

(** [double RfHandler::set_tx_freq(double freq_hz)] *)
Definition set_tx_freq (freq_hz : float) (h : handler) : float * handler :=
  if negb (initialized_ h) then (0%float, h)
  else (srsran_rf_set_tx_freq dev (calls h) 0 freq_hz,
        called (rf_set_tx_freq 0 freq_hz) h).

(** [bool RfHandler::set_rx_gain(double gain_db)] *)
Definition set_rx_gain (gain_db : float) (h : handler) : bool * handler :=
  if negb (initialized_ h) then (false, h)
  else (srsran_rf_set_rx_gain dev (calls h) gain_db =? SRSRAN_SUCCESS,
        called (rf_set_rx_gain gain_db) h).

(** [bool RfHandler::set_tx_gain(double gain_db)] *)
Definition set_tx_gain (gain_db : float) (h : handler) : bool * handler :=
  if negb (initialized_ h) then (false, h)
  else (srsran_rf_set_tx_gain dev (calls h) gain_db =? SRSRAN_SUCCESS,
        called (rf_set_tx_gain gain_db) h).

(** [double RfHandler::set_sample_rate(double srate_hz)] *)
Definition set_sample_rate (srate_hz : float) (h : handler) : float * handler :=
  if negb (initialized_ h) then (0%float, h)
  else
    let actual_srate_rx := srsran_rf_set_rx_srate dev (calls h) srate_hz in
    let h := called (rf_set_rx_srate srate_hz) h in
    let h := called (rf_set_tx_srate srate_hz) h in
    (actual_srate_rx, h).

(** [void RfHandler::get_time(time_t& full_secs, double& frac_secs)] *)
Definition get_time (h : handler) : (Z * float) * handler :=
  if negb (initialized_ h) then ((0, 0%float), h)
  else (srsran_rf_get_time dev (calls h), called rf_get_time h).

(** A use a client can make of the object. *)
Inductive method : Type :=
| call_init (config : RfConfig)
| call_start_rx | call_stop_rx | call_start_tx | call_stop_tx
| call_receive (nsamples : Z)
| call_transmit (buffer : list A) (nsamples : Z) (start_of_burst end_of_burst : bool)
| call_set_rx_freq (freq_hz : float) | call_set_tx_freq (freq_hz : float)
| call_set_rx_gain (gain_db : float) | call_set_tx_gain (gain_db : float)
| call_set_sample_rate (srate_hz : float)
| call_get_time.

(** The object after one use. *)
Definition after (h : handler) (m : method) : handler :=
  match m with
  | call_init config => snd (init config h)
  | call_start_rx => snd (start_rx h)
  | call_stop_rx => snd (stop_rx h)
  | call_start_tx => snd (start_tx h)
  | call_stop_tx => snd (stop_tx h)
  | call_receive nsamples => snd (receive nsamples h)
  | call_transmit buffer nsamples sob eob => snd (transmit buffer nsamples sob eob h)
  | call_set_rx_freq f => snd (set_rx_freq f h)
  | call_set_tx_freq f => snd (set_tx_freq f h)
  | call_set_rx_gain g => snd (set_rx_gain g h)
  | call_set_tx_gain g => snd (set_tx_gain g h)
  | call_set_sample_rate r => snd (set_sample_rate r h)
  | call_get_time => snd (get_time h)
  end.

(** A newly constructed object after the uses [ms], in order. *)
Definition lifetime (ms : list method) : handler := fold_left after ms fresh.

End Methods.

(** Whether the device is open after the calls of a trace, given whether
    it was before. *)
Fixpoint is_open (was_open : bool) (t : trace) : bool :=
  match t with
  | [] => was_open
  | rf_open _ status :: t' => is_open (status =? SRSRAN_SUCCESS) t'
  | rf_close :: t' => is_open false t'
  | _ :: t' => is_open was_open t'
  end.

(** The library's rules of use: a device is opened only while closed, and
    every other call on it, [rf_close] included, is made while it is open;
    loading the plugins is always allowed. *)
Fixpoint well_used (was_open : bool) (t : trace) : bool :=
  match t with
  | [] => true
  | rf_load_plugins :: t' => well_used was_open t'
  | rf_open _ status :: t' =>
      (negb was_open && well_used (status =? SRSRAN_SUCCESS) t')%bool
  | rf_close :: t' => (was_open && well_used false t')%bool
  | _ :: t' => (was_open && well_used was_open t')%bool
  end.

(** The argument strings the device was opened with. *)
Fixpoint open_args (t : trace) : list string :=
  match t with
  | [] => []
  | rf_open args _ :: t' => args :: open_args t'
  | _ :: t' => open_args t'
  end.

(** [config] with another device name. *)
Definition with_device_name (name : string) (config : RfConfig) : RfConfig :=
  {| device_name := name; device_args := device_args config;
     tx_freq_hz := tx_freq_hz config; rx_freq_hz := rx_freq_hz config;
     srate_hz := srate_hz config; tx_gain_db := tx_gain_db config;
     rx_gain_db := rx_gain_db config |}.

(** A library on which every call succeeds, and one that opens the device
    but refuses the transmit gain. *)
Definition obliging : srsran_rf unit :=
  {| srsran_rf_open := fun _ _ => 0;
     srsran_rf_set_rx_gain := fun _ _ => 0;
     srsran_rf_set_tx_gain := fun _ _ => 0;
     srsran_rf_set_rx_srate := fun _ r => r;
     srsran_rf_set_tx_srate := fun _ r => r;
     srsran_rf_set_rx_freq := fun _ _ f => f;
     srsran_rf_set_tx_freq := fun _ _ f => f;
     srsran_rf_start_rx_stream := fun _ _ => 0;
     srsran_rf_stop_rx_stream := fun _ => 0;
     srsran_rf_recv := fun _ n _ => (n, repeat tt (Z.to_nat n));
     srsran_rf_send_multi := fun _ _ n _ _ _ => n;
     srsran_rf_get_time := fun _ => (0, 0%float) |}.

Definition no_tx_gain : srsran_rf unit :=
  {| srsran_rf_open := fun _ _ => 0;
     srsran_rf_set_rx_gain := fun _ _ => 0;
     srsran_rf_set_tx_gain := fun _ _ => -1;
     srsran_rf_set_rx_srate := fun _ r => r;
     srsran_rf_set_tx_srate := fun _ r => r;
     srsran_rf_set_rx_freq := fun _ _ f => f;
     srsran_rf_set_tx_freq := fun _ _ f => f;
     srsran_rf_start_rx_stream := fun _ _ => 0;
     srsran_rf_stop_rx_stream := fun _ => 0;
     srsran_rf_recv := fun _ n _ => (n, repeat tt (Z.to_nat n));
     srsran_rf_send_multi := fun _ _ n _ _ _ => n;
     srsran_rf_get_time := fun _ => (0, 0%float) |}.

(** What every method keeps true of the object. *)
Definition sound (h : handler) : Prop :=
  well_used false (calls h) = true /\
  is_open false (calls h) = initialized_ h /\
  Forall (fun args => (String.length args <= 255)%nat) (open_args (calls h)).

(** A configuration whose device arguments do not fit the 256-byte
    buffer. *)
Fixpoint padding (n : nat) : string :=
  match n with
  | O => EmptyString
  | S n' => String "a"%char (padding n')
  end.

Definition long_args_config : RfConfig :=
  {| device_name := "uhd"; device_args := padding 300;
     tx_freq_hz := 3510000000; rx_freq_hz := 3510000000;
     srate_hz := 23040000; tx_gain_db := 60; rx_gain_db := 40 |}.

End RfDevice.

(** ** File analyzer: its command line (parse_args) *)

Module AnalyzerCli.

Local Open Scope string_scope.

Record AnalyzerArgs := {
  input_file : string;
  sample_rate_hz : float;
  center_freq_hz : float;
  ssb_pattern : string;
  scs_khz : Z;
  periodicity_ms : Z;
  ssb_freq_offset_hz : float;
  target_pci : Z;
  scan_for_target : bool;
  max_samples : Z;
  window_size_ms : Z;
  verbose : bool
}.

(** The member initialisers of [AnalyzerArgs]. *)
Definition default_args : AnalyzerArgs :=
  {| input_file := ""; sample_rate_hz := 23040000;
     center_freq_hz := 1842500000; ssb_pattern := "A"; scs_khz := 15;
     periodicity_ms := 20; ssb_freq_offset_hz := 0; target_pci := 0;
     scan_for_target := false; max_samples := 0; window_size_ms := 10;
     verbose := false |}.

Section Parse.
(** [std::stod] and [std::stoul]; [None] when they throw. *)
Variable stod : string -> option float.
Variable stoul : string -> option Z.

(** The options that read the next argument. *)
Definition takes_value (arg : string) : bool :=
  ((arg =? "-f") || (arg =? "--file") || (arg =? "-s") || (arg =? "--srate")
   || (arg =? "-c") || (arg =? "--center-freq") || (arg =? "-p")
   || (arg =? "--pattern") || (arg =? "--scs") || (arg =? "--period")
   || (arg =? "--offset") || (arg =? "--pci") || (arg =? "--max-samples")
   || (arg =? "--window"))%bool.

(** The assignment an option makes from its value; [None] when the
    conversion throws.  A [std::stoul] result is narrowed to 32 bits. *)
Definition store (arg value : string) (a : AnalyzerArgs)
    : option AnalyzerArgs :=
  if ((arg =? "-f") || (arg =? "--file"))%bool then
    Some {| input_file := value; sample_rate_hz := sample_rate_hz a;
            center_freq_hz := center_freq_hz a; ssb_pattern := ssb_pattern a;
            scs_khz := scs_khz a; periodicity_ms := periodicity_ms a;
            ssb_freq_offset_hz := ssb_freq_offset_hz a;
            target_pci := target_pci a; scan_for_target := scan_for_target a;
            max_samples := max_samples a; window_size_ms := window_size_ms a;
            verbose := verbose a |}
  else if ((arg =? "-s") || (arg =? "--srate"))%bool then
    option_map (fun x =>
      {| input_file := input_file a; sample_rate_hz := x;
         center_freq_hz := center_freq_hz a; ssb_pattern := ssb_pattern a;
         scs_khz := scs_khz a; periodicity_ms := periodicity_ms a;
         ssb_freq_offset_hz := ssb_freq_offset_hz a;
         target_pci := target_pci a; scan_for_target := scan_for_target a;
         max_samples := max_samples a; window_size_ms := window_size_ms a;
         verbose := verbose a |}) (stod value)
  else if ((arg =? "-c") || (arg =? "--center-freq"))%bool then
    option_map (fun x =>
      {| input_file := input_file a; sample_rate_hz := sample_rate_hz a;
         center_freq_hz := x; ssb_pattern := ssb_pattern a;
         scs_khz := scs_khz a; periodicity_ms := periodicity_ms a;
         ssb_freq_offset_hz := ssb_freq_offset_hz a;
         target_pci := target_pci a; scan_for_target := scan_for_target a;
         max_samples := max_samples a; window_size_ms := window_size_ms a;
         verbose := verbose a |}) (stod value)
  else if ((arg =? "-p") || (arg =? "--pattern"))%bool then
    Some {| input_file := input_file a; sample_rate_hz := sample_rate_hz a;
            center_freq_hz := center_freq_hz a; ssb_pattern := value;
            scs_khz := scs_khz a; periodicity_ms := periodicity_ms a;
            ssb_freq_offset_hz := ssb_freq_offset_hz a;
            target_pci := target_pci a; scan_for_target := scan_for_target a;
            max_samples := max_samples a; window_size_ms := window_size_ms a;
            verbose := verbose a |}
  else if (arg =? "--scs") then
    option_map (fun n =>
      {| input_file := input_file a; sample_rate_hz := sample_rate_hz a;
         center_freq_hz := center_freq_hz a; ssb_pattern := ssb_pattern a;
         scs_khz := to_uint32 n; periodicity_ms := periodicity_ms a;
         ssb_freq_offset_hz := ssb_freq_offset_hz a;
         target_pci := target_pci a; scan_for_target := scan_for_target a;
         max_samples := max_samples a; window_size_ms := window_size_ms a;
         verbose := verbose a |}) (stoul value)
  else if (arg =? "--period") then
    option_map (fun n =>
      {| input_file := input_file a; sample_rate_hz := sample_rate_hz a;
         center_freq_hz := center_freq_hz a; ssb_pattern := ssb_pattern a;
         scs_khz := scs_khz a; periodicity_ms := to_uint32 n;
         ssb_freq_offset_hz := ssb_freq_offset_hz a;
         target_pci := target_pci a; scan_for_target := scan_for_target a;
         max_samples := max_samples a; window_size_ms := window_size_ms a;
         verbose := verbose a |}) (stoul value)
  else if (arg =? "--offset") then
    option_map (fun x =>
      {| input_file := input_file a; sample_rate_hz := sample_rate_hz a;
         center_freq_hz := center_freq_hz a; ssb_pattern := ssb_pattern a;
         scs_khz := scs_khz a; periodicity_ms := periodicity_ms a;
         ssb_freq_offset_hz := x;
         target_pci := target_pci a; scan_for_target := scan_for_target a;
         max_samples := max_samples a; window_size_ms := window_size_ms a;
         verbose := verbose a |}) (stod value)
  else if (arg =? "--pci") then
    option_map (fun n =>
      {| input_file := input_file a; sample_rate_hz := sample_rate_hz a;
         center_freq_hz := center_freq_hz a; ssb_pattern := ssb_pattern a;
         scs_khz := scs_khz a; periodicity_ms := periodicity_ms a;
         ssb_freq_offset_hz := ssb_freq_offset_hz a;
         target_pci := to_uint32 n; scan_for_target := true;
         max_samples := max_samples a; window_size_ms := window_size_ms a;
         verbose := verbose a |}) (stoul value)
  else if (arg =? "--max-samples") then
    option_map (fun n =>
      {| input_file := input_file a; sample_rate_hz := sample_rate_hz a;
         center_freq_hz := center_freq_hz a; ssb_pattern := ssb_pattern a;
         scs_khz := scs_khz a; periodicity_ms := periodicity_ms a;
         ssb_freq_offset_hz := ssb_freq_offset_hz a;
         target_pci := target_pci a; scan_for_target := scan_for_target a;
         max_samples := to_uint32 n; window_size_ms := window_size_ms a;
         verbose := verbose a |}) (stoul value)
  else if (arg =? "--window") then
    option_map (fun n =>
      {| input_file := input_file a; sample_rate_hz := sample_rate_hz a;
         center_freq_hz := center_freq_hz a; ssb_pattern := ssb_pattern a;
         scs_khz := scs_khz a; periodicity_ms := periodicity_ms a;
         ssb_freq_offset_hz := ssb_freq_offset_hz a;
         target_pci := target_pci a; scan_for_target := scan_for_target a;
         max_samples := max_samples a; window_size_ms := to_uint32 n;
         verbose := verbose a |}) (stoul value)
  else Some a.

Definition set_verbose (a : AnalyzerArgs) : AnalyzerArgs :=
  {| input_file := input_file a; sample_rate_hz := sample_rate_hz a;
     center_freq_hz := center_freq_hz a; ssb_pattern := ssb_pattern a;
     scs_khz := scs_khz a; periodicity_ms := periodicity_ms a;
     ssb_freq_offset_hz := ssb_freq_offset_hz a;
     target_pci := target_pci a; scan_for_target := scan_for_target a;
     max_samples := max_samples a; window_size_ms := window_size_ms a;
     verbose := true |}.

(** The checks after the loop. *)
Definition checked (a : AnalyzerArgs) : bool :=
  if (input_file a =? "") then false
  else if (sample_rate_hz a <=? 0)%float then false
  else if (center_freq_hz a <=? 0)%float then false
  else true.

(** The loop [for (int i = 1; i < argc; i++)] from some [i] on, then the
    checks: the returned flag and [args]; [None] when a conversion throws. *)
Fixpoint parse_from (argv : list string) (a : AnalyzerArgs)
    : option (bool * AnalyzerArgs) :=
  match argv with
  | [] => Some (checked a, a)
  | arg :: rest =>
      if ((arg =? "-h") || (arg =? "--help"))%bool then Some (false, a)
      else if takes_value arg then
        match rest with
        | [] => Some (checked a, a)
        | value :: rest' =>
            match store arg value a with
            | Some a' => parse_from rest' a'
            | None => None
            end
        end
      else if ((arg =? "-v") || (arg =? "--verbose"))%bool then
        parse_from rest (set_verbose a)
      else Some (false, a)
  end.

(** [bool parse_args(argc, argv, args)] on [argv[1]], ..., with [args]
    entering with its member initialisers. *)
Definition parse_args (argv : list string) : option (bool * AnalyzerArgs) :=
  match argv with
  | [] => Some (false, default_args)
  | _ => parse_from argv default_args
  end.

End Parse.

(** An option with the value it reads, or an option that stands alone. *)
Definition token : Type := string * option string.

Definition well_formed (t : token) : bool :=
  match snd t with
  | Some _ => takes_value (fst t)
  | None => negb (takes_value (fst t))
  end.

Fixpoint flatten (tokens : list token) : list string :=
  match tokens with
  | [] => []
  | (arg, Some value) :: rest => arg :: value :: flatten rest
  | (arg, None) :: rest => arg :: flatten rest
  end.

(** Conversions that accept nothing but ["1"]. *)
Definition stod_one (text : string) : option float :=
  if (text =? "1") then Some 1%float else None.
Definition stoul_one (text : string) : option Z :=
  if (text =? "1") then Some 1 else None.

(** The arguments [-f iq.dat --window 1] leave. *)
Definition one_ms_args : AnalyzerArgs :=
  {| input_file := "iq.dat"; sample_rate_hz := 23040000;
     center_freq_hz := 1842500000; ssb_pattern := "A"; scs_khz := 15;
     periodicity_ms := 20; ssb_freq_offset_hz := 0; target_pci := 0;
     scan_for_target := false; max_samples := 0; window_size_ms := 1;
     verbose := false |}.

End AnalyzerCli.

(** ** SsbProcessor: construction and configuration *)

Module SsbSetup.

Inductive srsran_ssb_pattern_t :=
| SRSRAN_SSB_PATTERN_A | SRSRAN_SSB_PATTERN_B | SRSRAN_SSB_PATTERN_C
| SRSRAN_SSB_PATTERN_D | SRSRAN_SSB_PATTERN_E.

Inductive srsran_duplex_mode_t :=
| SRSRAN_DUPLEX_MODE_FDD | SRSRAN_DUPLEX_MODE_TDD.

(** [SsbProcessor::pattern_from_string] *)
Definition pattern_from_string (pattern : string) : srsran_ssb_pattern_t :=
  if (pattern =? "A")%string then SRSRAN_SSB_PATTERN_A
  else if (pattern =? "B")%string then SRSRAN_SSB_PATTERN_B
  else if (pattern =? "C")%string then SRSRAN_SSB_PATTERN_C
  else if (pattern =? "D")%string then SRSRAN_SSB_PATTERN_D
  else if (pattern =? "E")%string then SRSRAN_SSB_PATTERN_E
  else SRSRAN_SSB_PATTERN_C.

(** [SsbProcessor::scs_from_khz] *)
Definition scs_from_khz (scs_khz : Z) : Mib.srsran_subcarrier_spacing_t :=
  if scs_khz =? 15 then Mib.scs_15kHz
  else if scs_khz =? 30 then Mib.scs_30kHz
  else if scs_khz =? 60 then Mib.scs_60kHz
  else if scs_khz =? 120 then Mib.scs_120kHz
  else if scs_khz =? 240 then Mib.scs_240kHz
  else Mib.scs_30kHz.

(** [srsran_ssb_args_t], the fields [init] sets. *)
Record srsran_ssb_args_t := {
  max_srate_hz : float;
  min_scs : Mib.srsran_subcarrier_spacing_t;
  enable_search : bool;
  enable_measure : bool;
  enable_encode : bool;
  enable_decode : bool;
  disable_polar_simd : bool;
  pbch_dmrs_thr : float
}.

(** [srsran_ssb_cfg_t], the fields [configure] sets. *)
Record srsran_ssb_cfg_t := {
  cfg_srate_hz : float;
  cfg_center_freq_hz : float;
  cfg_ssb_freq_hz : float;
  cfg_scs : Mib.srsran_subcarrier_spacing_t;
  cfg_pattern : srsran_ssb_pattern_t;
  cfg_duplex_mode : srsran_duplex_mode_t;
  cfg_periodicity_ms : Z;
  cfg_beta_pss : float;
  cfg_beta_sss : float;
  cfg_beta_pbch : float;
  cfg_beta_pbch_dmrs : float;
  cfg_scaling : float
}.

(** The calls made on [ssb_], oldest first. *)
Inductive ssb_event : Type :=
| ssb_init (args : srsran_ssb_args_t)
| ssb_set_cfg (cfg : srsran_ssb_cfg_t)
| ssb_free.

(** The PHY library: the status each call returns after the calls made
    before it. *)
Record srsran_ssb := {
  srsran_ssb_init : list ssb_event -> srsran_ssb_args_t -> Z;
  srsran_ssb_set_cfg : list ssb_event -> srsran_ssb_cfg_t -> Z
}.

(** The object: its members ([config_] is [None] until assigned) and the
    calls it has made on [ssb_]. *)
Record processor := {
  initialized_ : bool;
  config_ : option SsbConfig;
  srate_hz_ : float;
  center_freq_hz_ : float;
  calls : list ssb_event
}.

(** [SsbProcessor::SsbProcessor()] *)
Definition fresh : processor :=
  {| initialized_ := false; config_ := None; srate_hz_ := 0;
     center_freq_hz_ := 0; calls := [] |}.

(** The arguments [init] passes to [srsran_ssb_init]. *)
Definition init_args (srate_hz : float) : srsran_ssb_args_t :=
  {| max_srate_hz := srate_hz; min_scs := Mib.scs_15kHz;
     enable_search := true; enable_measure := true;
     enable_encode := true; enable_decode := true;
     disable_polar_simd := false; pbch_dmrs_thr := 0 |}.

(** The configuration [configure] passes to [srsran_ssb_set_cfg]. *)
Definition ssb_cfg (config : SsbConfig) (srate_hz center_freq_hz : float)
    : srsran_ssb_cfg_t :=
  let ssb_freq_hz := (center_freq_hz + ssb_freq_offset_hz config)%float in
  {| cfg_srate_hz := srate_hz;
     cfg_center_freq_hz := center_freq_hz;
     cfg_ssb_freq_hz := ssb_freq_hz;
     cfg_scs := scs_from_khz (scs_khz config);
     cfg_pattern := pattern_from_string (pattern config);
     cfg_duplex_mode := SRSRAN_DUPLEX_MODE_FDD;
     cfg_periodicity_ms := periodicity_ms config;
     cfg_beta_pss := beta_pss config;
     cfg_beta_sss := beta_sss config;
     cfg_beta_pbch := beta_pbch config;
     cfg_beta_pbch_dmrs := beta_pbch_dmrs config;
     cfg_scaling := 0 |}.

Section Methods.
Variable lib : srsran_ssb.

(** [bool SsbProcessor::configure(config, srate_hz, center_freq_hz)] *)
Definition configure (config : SsbConfig) (srate_hz center_freq_hz : float)
    (p : processor) : bool * processor :=
  if negb (initialized_ p) then (false, p)
  else
    let cfg := ssb_cfg config srate_hz center_freq_hz in
    (srsran_ssb_set_cfg lib (calls p) cfg =? 0,
     {| initialized_ := initialized_ p; config_ := Some config;
        srate_hz_ := srate_hz; center_freq_hz_ := center_freq_hz;
        calls := calls p ++ [ssb_set_cfg cfg] |}).

(** [bool SsbProcessor::init(config, srate_hz, center_freq_hz)] *)
Definition init (config : SsbConfig) (srate_hz center_freq_hz : float)
    (p : processor) : bool * processor :=
  if initialized_ p then (false, p)
  else
    let args := init_args srate_hz in
    let status := srsran_ssb_init lib (calls p) args in
    let p := {| initialized_ := false; config_ := Some config;
                srate_hz_ := srate_hz; center_freq_hz_ := center_freq_hz;
                calls := calls p ++ [ssb_init args] |} in
    if negb (status =? 0) then (false, p)
    else
      configure config srate_hz center_freq_hz
        {| initialized_ := true; config_ := config_ p;
           srate_hz_ := srate_hz_ p; center_freq_hz_ := center_freq_hz_ p;
           calls := calls p |}.

(** [SsbProcessor::~SsbProcessor()] *)
Definition destroy (p : processor) : processor :=
  if initialized_ p then
    {| initialized_ := initialized_ p; config_ := config_ p;
       srate_hz_ := srate_hz_ p; center_freq_hz_ := center_freq_hz_ p;
       calls := calls p ++ [ssb_free] |}
  else p.

End Methods.

(** The names of the patterns and the spacings, as [validate] lets them
    through. *)
Definition named_patterns : list (string * srsran_ssb_pattern_t) :=
  [ ("A", SRSRAN_SSB_PATTERN_A); ("B", SRSRAN_SSB_PATTERN_B);
    ("C", SRSRAN_SSB_PATTERN_C); ("D", SRSRAN_SSB_PATTERN_D);
    ("E", SRSRAN_SSB_PATTERN_E) ]%string.

Definition named_spacings : list (Z * Mib.srsran_subcarrier_spacing_t) :=
  [ (15, Mib.scs_15kHz); (30, Mib.scs_30kHz) ].

(** A library that initialises but refuses every configuration. *)
Definition refuses_cfg : srsran_ssb :=
  {| srsran_ssb_init := fun _ _ => 0; srsran_ssb_set_cfg := fun _ _ => -1 |}.

End SsbSetup.

(** ** Command line of the spoofer (main) *)

Module CommandLine.

Local Open Scope string_scope.

(** What the argument loop of [main] ends in: an early [return] with an
    exit code, or the configuration file to load. *)
Inductive parsed : Type :=
| Exit (code : Z)
| Run (config_file : string).

(** The loop [for (int i = 1; i < argc; i++)] from some [i] on: [args] is
    [argv[i]], [argv[i + 1]], ... *)
Fixpoint parse_from (args : list string) (config_file : string) : parsed :=
  match args with
  | [] => Run config_file
  | arg :: rest =>
      if ((arg =? "-h") || (arg =? "--help"))%bool then Exit 0
      else if ((arg =? "-c") || (arg =? "--config"))%bool then
        match rest with
        | value :: rest' => parse_from rest' value
        | [] => Exit 1
        end
      else Exit 1
  end.

(** [argv[1]], ..., [argv[argc - 1]] to the outcome of the loop. *)
Definition parse_command_line (args : list string) : parsed :=
  parse_from args "config.yaml".

Definition is_config_flag (arg : string) : bool :=
  ((arg =? "-c") || (arg =? "--config"))%bool.

(** The arguments [flag1 value1 flag2 value2 ...]. *)
Fixpoint flatten (pairs : list (string * string)) : list string :=
  match pairs with
  | [] => []
  | (flag, value) :: rest => flag :: value :: flatten rest
  end.

End CommandLine.

(** ** File analyzer: the window loop of its main *)

Module Analyzer.
Import World.

(** [static_cast<uint32_t>(args.sample_rate_hz * args.window_size_ms
    / 1000.0)], the search window in samples. *)
Definition search_window (args : AnalyzerCli.AnalyzerArgs) : Z :=
  double_to_uint32
    (AnalyzerCli.sample_rate_hz args
     * double_of_Z (AnalyzerCli.window_size_ms args) / 1000)%float.

Section Windows.
Context {F pbch : Type} `{Normalize.SampleArith F}.
Variable phy : Phy F pbch.
(** [args.scan_for_target], [args.target_pci] *)
Variable scan_for_target : bool.
Variable target_pci : Z.
Variable samples : list (F * F).
Variable window_samples : Z.

Record window_state := {
  offset : Z;
  window_count : Z;
  ssb_count : Z;
  found_ssbs : list (SsbSearchResult F pbch);
  searches : nat               (* [ssb_proc.scan] calls made so far *)
}.

Definition window_init : window_state :=
  {| offset := 0; window_count := 0; ssb_count := 0; found_ssbs := [];
     searches := 0 |}.

(** The [window_samples] samples at [&samples[offset]], when
    [samples[offset]] is an element of the vector and they all lie inside
    it. *)
Definition window_at (offset : Z) : option (list (F * F)) :=
  if ((offset <? Z.of_nat (length samples))
      && (offset + window_samples <=? Z.of_nat (length samples)))%bool
  then Some (firstn (Z.to_nat window_samples) (skipn (Z.to_nat offset) samples))
  else None.

Definition target_filter : option Z :=
  if scan_for_target then Some target_pci else None.

(** The loop
    [for (uint32_t offset = 0; offset + window_samples <= samples.size();
          offset += window_samples / 2)];
    the sum in the condition and the increments are taken in 32 bits. *)
Fixpoint window_loop (fuel : nat) (st : window_state) : outcome window_state :=
  match fuel with
  | O => OutOfFuel
  | S fuel' =>
      if to_uint32 (offset st + window_samples) <=? Z.of_nat (length samples)
      then
        match window_at (offset st) with
        | None => Undefined
        | Some buffer =>
            let result :=
              SsbProcessor.scan phy (searches st) buffer window_samples
                target_filter in
            window_loop fuel'
              {| offset := to_uint32 (offset st + window_samples / 2);
                 window_count := to_uint32 (window_count st + 1);
                 ssb_count :=
                   if found result then to_uint32 (ssb_count st + 1)
                   else ssb_count st;
                 found_ssbs :=
                   if found result then found_ssbs st ++ [result]
                   else found_ssbs st;
                 searches := S (searches st) |}
        end
      else Returns st
  end.

(** The number of half-overlapping windows that fit the samples. *)
Definition windows_that_fit : Z :=
  if window_samples <=? Z.of_nat (length samples)
  then (Z.of_nat (length samples) - window_samples) / (window_samples / 2) + 1
  else 0.

(** What the loop keeps true of its counters. *)
Definition counted (st : window_state) : Prop :=
  0 <= ssb_count st <= window_count st /\
  ssb_count st = Z.of_nat (length (found_ssbs st)) /\
  Forall (fun r => found r = true /\
                   (scan_for_target = true -> pci r = target_pci))
         (found_ssbs st).

End Windows.

Arguments window_state F pbch : clear implicits.

End Analyzer.

(** ** Further concrete configurations *)

Module Fixtures.

(** [c] in single-shot mode. *)
Definition with_single_shot (c : Config) : Config :=
  {| rf := rf c; ssb := ssb c; operation := operation c;
     attack :=
       {| target_pci := target_pci (attack c);
          scan_for_target := scan_for_target (attack c);
          modify_coreset0_idx := modify_coreset0_idx (attack c);
          modify_ss0_idx := modify_ss0_idx (attack c);
          modify_cell_barred := modify_cell_barred (attack c);
          modify_intra_freq_resel := modify_intra_freq_resel (attack c);
          coreset0_idx_value := coreset0_idx_value (attack c);
          ss0_idx_value := ss0_idx_value (attack c);
          cell_barred_value := cell_barred_value (attack c);
          intra_freq_resel_value := intra_freq_resel_value (attack c);
          tx_power_db := tx_power_db (attack c);
          tx_power_offset_db := tx_power_offset_db (attack c);
          continuous_tx := false;
          max_bursts := max_bursts (attack c);
          burst_interval_us := burst_interval_us (attack c);
          burst_length_ms := burst_length_ms (attack c) |} |}.

Definition single_shot_config : Config := with_single_shot Scenario.base_config.

(** The report of a single-shot run whose one transmit call failed. *)
Definition failed_single_shot : Transmitter.TxReport :=
  {| Transmitter.returned := false; Transmitter.bursts_sent := 0;
     Transmitter.transmit_calls := 1; Transmitter.fatal_reported := false |}.

(** The analyzer's arguments after [-f iq.dat --window 0]. *)
Definition zero_window_args : AnalyzerCli.AnalyzerArgs :=
  {| AnalyzerCli.input_file := "iq.dat";
     AnalyzerCli.sample_rate_hz := 23040000;
     AnalyzerCli.center_freq_hz := 1842500000;
     AnalyzerCli.ssb_pattern := "A"; AnalyzerCli.scs_khz := 15;
     AnalyzerCli.periodicity_ms := 20; AnalyzerCli.ssb_freq_offset_hz := 0;
     AnalyzerCli.target_pci := 0; AnalyzerCli.scan_for_target := false;
     AnalyzerCli.max_samples := 0; AnalyzerCli.window_size_ms := 0;
     AnalyzerCli.verbose := false |}.

End Fixtures.

(** ** binary32 numbers as real numbers *)

Module Binary32.
Import Normalize.

(** 2 to an integer power. *)
Definition bpow (e : Z) : R := powerRZ 2 e.

(** The real number a binary32 datum stands for (0 for NaN and the
    infinities, which the statements below exclude). *)
Definition B2R (x : binary32) : R :=
  match x with
  | S754_finite s m e =>
      ((if s then - IZR (Zpos m) else IZR (Zpos m)) * bpow e)%R
  | _ => 0%R
  end.

(** A normal number: a 24-digit mantissa and an exponent in range. *)
Definition normal (x : binary32) : Prop :=
  match x with
  | S754_finite _ m e => 2 ^ 23 <= Zpos m < 2 ^ 24 /\ -149 <= e <= 104
  | _ => False
  end.

Definition sign_of (x : binary32) : bool :=
  match x with
  | S754_finite s _ _ | S754_zero s | S754_infinity s => s
  | S754_nan => false
  end.

(** The unit roundoff used below: one unit in the last place, 2^-23. *)
Definition u : R := bpow (-23).

(** [r] is a normal number of sign [s] whose magnitude is within one unit
    in the last place of the positive real [x]. *)
Definition rounds_to (s : bool) (x : R) (r : binary32) : Prop :=
  normal r /\ sign_of r = s /\ (Rabs (Rabs (B2R r) - x) <= x * u)%R.

(** Accumulated rounding: [r] and [x] agree up to [k] factors of
    [w] = 1 + 2^-22. *)
Definition w : R := (1 + bpow (-22))%R.

Definition close (k : nat) (r x : R) : Prop :=
  (x <= r * w ^ k /\ r <= x * w ^ k)%R.

Definition exponent_of (x : binary32) : Z :=
  match x with
  | S754_finite _ _ e => e
  | _ => 0
  end.

End Binary32.

(** ** The bursts the error analysis covers *)

Module Moderate.
Import Normalize Binary32.

(** A zero of either sign, or a normal number whose exponent lies between
    [elo] and [ehi]. *)
Definition in_range (elo ehi : Z) (x : binary32) : bool :=
  match x with
  | S754_zero _ => true
  | S754_finite _ m e =>
      ((2 ^ 23 <=? Zpos m) && (Zpos m <? 2 ^ 24)
       && (elo <=? e) && (e <=? ehi))%bool
  | _ => false
  end.

Definition in_range_sample (elo ehi : Z) (z : binary32 * binary32) : bool :=
  (in_range elo ehi (fst z) && in_range elo ehi (snd z))%bool.

(** A component of the bursts the statement covers: a zero, or a normal
    number of magnitude between 2^-20 and 2^20. *)
Definition moderate : binary32 -> bool := in_range (-43) (-4).
Definition moderate_sample : binary32 * binary32 -> bool :=
  in_range_sample (-43) (-4).

(** The widest components whose power the loop accumulates without
    overflow or underflow: magnitude between 2^-53 and 2^53. *)
Definition wide : binary32 -> bool := in_range (-76) 29.
Definition wide_sample : binary32 * binary32 -> bool :=
  in_range_sample (-76) 29.

(** The longest burst the analysis covers. *)
Definition max_length : Z := 65536.

(** |z|^2, the energy of a burst and its RMS amplitude, as real numbers. *)
Definition power (z : binary32 * binary32) : R :=
  (B2R (fst z) * B2R (fst z) + B2R (snd z) * B2R (snd z))%R.

Definition energy (l : list (binary32 * binary32)) : R :=
  fold_right (fun z acc => (power z + acc)%R) 0%R l.

Definition rms (l : list (binary32 * binary32)) : R :=
  sqrt (energy l / INR (length l)).

(** The scale factor exact arithmetic would give: the binary32 literals
    for 0.7 and 1e-12, the real RMS amplitude, no rounding. *)
Definition ideal_scale (l : list (binary32 * binary32)) : R :=
  (B2R b32_0_7 / (rms l + B2R b32_1em12))%R.

(** [r] is +0 and [x] is 0, or [r] is a positive normal number that
    agrees with the positive real [x] up to [k] rounding factors. *)
Definition tracks (k : nat) (r : binary32) (x : R) : Prop :=
  (r = S754_zero false /\ x = 0%R) \/
  (normal r /\ sign_of r = false /\ (0 < x)%R /\ close k (B2R r) x).

(** A two-sample burst inside the class: (1, 0) and (0.5, -0.25). *)
Definition level_burst : list (binary32 * binary32) :=
  [(S754_finite false 8388608 (-23), S754_zero false);
   (S754_finite false 8388608 (-24), S754_finite true 8388608 (-25))].

(** A burst above it: (1e30, 0) and (1, 1). *)
Definition loud_burst : list (binary32 * binary32) :=
  [(S754_finite false 13234890 76, S754_zero false);
   (S754_finite false 8388608 (-23), S754_finite false 8388608 (-23))].

End Moderate.

(* ================================================================== *)
(** * Properties *)
(* ================================================================== *)

(** ** Machine integers *)

Lemma to_uint32_range z : is_uint32 (to_uint32 z).
Proof. unfold is_uint32, to_uint32, two32. apply Z.mod_pos_bound. lia. Qed.

Lemma to_uint32_id z : is_uint32 z -> to_uint32 z = z.
Proof. unfold is_uint32, to_uint32. intros H. now apply Z.mod_small. Qed.

Lemma to_uint32_idem z : to_uint32 (to_uint32 z) = to_uint32 z.
Proof. apply to_uint32_id, to_uint32_range. Qed.

Lemma to_int_id z : is_int z -> to_int z = z.
Proof.
  unfold is_int, to_int, two31, two32. intros H.
  rewrite Z.mod_small; lia.
Qed.

Lemma to_int_range z : is_int (to_int z).
Proof.
  unfold is_int, to_int, two31, two32.
  pose proof (Z.mod_pos_bound (z + 2 ^ 31) (2 ^ 32)). lia.
Qed.

(** ** MIB mutation *)

Section MibFacts.
Import Mib.

Variable m : srsran_mib_nr_t.
Variable c : AttackConfig.

(** The returned flag is the disjunction of the three flags the function
    consults. *)
Lemma modify_mib_flag :
  snd (modify_mib m c) =
  (modify_cell_barred c || modify_coreset0_idx c || modify_ss0_idx c)%bool.
Proof.
  unfold modify_mib, rule.
  destruct (modify_cell_barred c), (modify_coreset0_idx c), (modify_ss0_idx c);
    reflexivity.
Qed.

(** Field-by-field description of the output MIB. *)
Lemma modify_mib_fields :
  fst (modify_mib m c) =
  with_targets m
    (if modify_cell_barred c then true else cell_barred m)
    (if modify_coreset0_idx c then to_uint32 (coreset0_idx_value c)
     else coreset0_idx m)
    (if modify_ss0_idx c then to_uint32 (ss0_idx_value c) else ss0_idx m)
    (intra_freq_reselection m).
Proof.
  unfold modify_mib, rule, with_targets.
  destruct m; destruct (modify_cell_barred c), (modify_coreset0_idx c),
    (modify_ss0_idx c); reflexivity.
Qed.

End MibFacts.

(** C1 (as worded) fails: with [modify_cell_barred] set and
    [cell_barred_value = false] the output flag is [true], not the
    configured value. *)
Lemma modify_mib_ignores_cell_barred_value :
  ~ Mib.selectivity_as_stated Mib.mib_sample Mib.attack_unbar.
Proof.
  unfold Mib.selectivity_as_stated. cbn. intros [H _]. discriminate H.
Qed.

(** The intra-frequency-reselection override is never applied either:
    enabling it with a value different from the decoded one changes
    nothing. *)
Lemma modify_mib_skips_intra_freq_resel :
  Mib.intra_freq_reselection
    (fst (Mib.modify_mib Mib.mib_sample Mib.attack_resel)) = true /\
  modify_intra_freq_resel Mib.attack_resel = true /\
  intra_freq_resel_value Mib.attack_resel = false.
Proof. repeat split. Qed.

(** C1, amended: a disabled rule leaves its field equal to the input;
    [modify_cell_barred] forces [cell_barred] to [true] (whatever
    [cell_barred_value] is); [modify_coreset0_idx] and [modify_ss0_idx] store
    exactly the configured values; with [modify_intra_freq_resel] off the
    reselection flag is the input's. *)
Theorem modify_mib_selectivity (m : Mib.srsran_mib_nr_t) (c : AttackConfig) :
  is_uint32 (coreset0_idx_value c) ->
  is_uint32 (ss0_idx_value c) ->
  let out := fst (Mib.modify_mib m c) in
  Mib.cell_barred out =
    (if modify_cell_barred c then true else Mib.cell_barred m) /\
  Mib.coreset0_idx out =
    (if modify_coreset0_idx c then coreset0_idx_value c else Mib.coreset0_idx m) /\
  Mib.ss0_idx out =
    (if modify_ss0_idx c then ss0_idx_value c else Mib.ss0_idx m) /\
  (modify_intra_freq_resel c = false ->
   Mib.intra_freq_reselection out = Mib.intra_freq_reselection m).
Proof.
  intros Hc Hs out. subst out. rewrite modify_mib_fields. cbn.
  rewrite (to_uint32_id _ Hc), (to_uint32_id _ Hs). repeat split.
Qed.

Lemma modify_mib_selectivity_witness :
  let out := fst (Mib.modify_mib Mib.mib_sample Mib.attack_all) in
  Mib.cell_barred out = true /\ Mib.coreset0_idx out = 15 /\
  Mib.ss0_idx out = 7 /\
  (modify_intra_freq_resel Mib.attack_all = false ->
   Mib.intra_freq_reselection out = true).
Proof.
  apply (modify_mib_selectivity Mib.mib_sample Mib.attack_all);
    unfold is_uint32, two32; cbn; lia.
Defined.

(** C3: whatever the configuration, [sfn], [ssb_offset] and
    [dmrs_typeA_pos] of the output equal those of the input, and the output
    differs from the input at most in the four rule-targeted fields. *)
Theorem modify_mib_preserves_timing (m : Mib.srsran_mib_nr_t) (c : AttackConfig) :
  let out := fst (Mib.modify_mib m c) in
  Mib.sfn out = Mib.sfn m /\
  Mib.ssb_offset out = Mib.ssb_offset m /\
  Mib.dmrs_typeA_pos out = Mib.dmrs_typeA_pos m /\
  out = Mib.with_targets m (Mib.cell_barred out) (Mib.coreset0_idx out)
          (Mib.ss0_idx out) (Mib.intra_freq_reselection out).
Proof.
  intros out. subst out. rewrite modify_mib_fields.
  destruct m; cbn. repeat split.
Qed.

(** C4: applying [modify_mib] twice with one configuration gives the
    same MIB (and the same returned flag) as applying it once. *)
Theorem modify_mib_idempotent (m : Mib.srsran_mib_nr_t) (c : AttackConfig) :
  Mib.modify_mib (fst (Mib.modify_mib m c)) c = Mib.modify_mib m c.
Proof.
  apply injective_projections.
  - rewrite !modify_mib_fields. unfold Mib.with_targets. cbn.
    destruct (modify_cell_barred c), (modify_coreset0_idx c),
      (modify_ss0_idx c); cbn; rewrite ?to_uint32_idem; reflexivity.
  - rewrite !modify_mib_flag. reflexivity.
Qed.

(** ** Configuration validation *)

Section ValidateFacts.
Import Validate.

Lemma pattern_check (p : string) :
  (negb (p =? "A")%string && negb (p =? "B")%string && negb (p =? "C")%string &&
   negb (p =? "D")%string && negb (p =? "E")%string)%bool = true
  <-> ~ In p ssb_patterns.
Proof.
  unfold ssb_patterns. cbn [In].
  rewrite !andb_true_iff, !negb_true_iff, !String.eqb_neq.
  split.
  - intros [[[[HA HB] HC] HD] HE] [H | [H | [H | [H | [H | []]]]]];
      subst p; congruence.
  - intros H. repeat split; intros ->; apply H; tauto.
Qed.

Lemma scs_check (s : Z) :
  (negb (s =? 15) && negb (s =? 30))%bool = true <-> s <> 15 /\ s <> 30.
Proof. rewrite andb_true_iff, !negb_true_iff, !Z.eqb_neq. tauto. Qed.

Lemma gtb_gt (a b : Z) : (a >? b) = true <-> a > b.
Proof. rewrite Z.gtb_ltb, Z.ltb_lt. lia. Qed.

(** [validate] is the negation of the disjunction of its seven checks. *)
Lemma validate_unfold (config : Config) :
  validate config =
  negb ((srate_hz (rf config) <=? 0)%float
        || ((rx_freq_hz (rf config) <=? 0)%float
            || (tx_freq_hz (rf config) <=? 0)%float)
        || (negb (pattern (ssb config) =? "A")%string &&
            negb (pattern (ssb config) =? "B")%string &&
            negb (pattern (ssb config) =? "C")%string &&
            negb (pattern (ssb config) =? "D")%string &&
            negb (pattern (ssb config) =? "E")%string)
        || (negb (scs_khz (ssb config) =? 15) && negb (scs_khz (ssb config) =? 30))
        || (target_pci (attack config) >? 1007)
        || (coreset0_idx_value (attack config) >? 15)
        || (ss0_idx_value (attack config) >? 15))%bool.
Proof.
  unfold validate.
  destruct (srate_hz (rf config) <=? 0)%float,
    (rx_freq_hz (rf config) <=? 0)%float, (tx_freq_hz (rf config) <=? 0)%float,
    (scs_khz (ssb config) =? 15), (scs_khz (ssb config) =? 30),
    (target_pci (attack config) >? 1007),
    (coreset0_idx_value (attack config) >? 15),
    (ss0_idx_value (attack config) >? 15);
    cbn [orb andb negb];
    repeat match goal with
           | |- context [(?x =? ?y)%string] => destruct (x =? y)%string
           end; reflexivity.
Qed.

End ValidateFacts.

(** C8: [validate] returns false exactly when at least one check fails:
    sample rate <= 0, RX or TX frequency <= 0, pattern outside A..E,
    subcarrier spacing neither 15 nor 30, target PCI > 1007,
    CORESET0 index value > 15, or search-space-zero index value > 15. *)
Theorem validate_rejects_iff (config : Config) :
  Validate.validate config = false <-> Validate.rejected config.
Proof.
  rewrite validate_unfold, negb_false_iff. unfold Validate.rejected.
  rewrite !orb_true_iff, pattern_check, scs_check, !gtb_gt. tauto.
Qed.

(** It accepts (returns true) exactly the configurations that pass every
    check. *)
Lemma validate_accepts_iff (config : Config) :
  Validate.validate config = true <-> ~ Validate.rejected config.
Proof.
  rewrite validate_unfold, negb_true_iff. unfold Validate.rejected.
  rewrite <- not_true_iff_false.
  rewrite !orb_true_iff, pattern_check, scs_check, !gtb_gt. tauto.
Qed.

(** ** Burst construction *)

Section BurstFacts.
Import Burst.
Context {A : Type}.
Variable zero : A.

Lemma memcpy_at_append (done : list A) (w rest : list A) (L : Z) :
  Z.of_nat (length w) = L ->
  (length w <= length rest)%nat ->
  memcpy_at (done ++ rest) (Z.of_nat (length done)) w L
  = Some (done ++ w ++ skipn (length w) rest).
Proof.
  intros HL Hrest. unfold memcpy_at.
  replace ((0 <=? Z.of_nat (length done)) && (0 <=? L)
           && (Z.of_nat (length done) + L <=? Z.of_nat (length (done ++ rest)))
           && (L <=? Z.of_nat (length w)))%bool with true.
  2:{ symmetry. rewrite !andb_true_iff, !Z.leb_le, length_app. lia. }
  rewrite Nat2Z.id.
  rewrite firstn_app, Nat.sub_diag, firstn_all, firstn_O, app_nil_r.
  replace (Z.to_nat L) with (length w) by lia.
  rewrite firstn_all.
  replace (Z.to_nat (Z.of_nat (length done) + L))
    with (length done + length w)%nat by lia.
  rewrite skipn_app, skipn_all2 by lia.
  replace (length done + length w - length done)%nat with (length w) by lia.
  reflexivity.
Qed.

Lemma repeated_length (w : list A) (r : nat) :
  length (repeated w r) = (r * length w)%nat.
Proof.
  unfold repeated. induction r as [|r IH]; cbn; [reflexivity|].
  rewrite length_app, IH. lia.
Qed.

Lemma repeated_snoc (w : list A) (r : nat) :
  repeated w r ++ w = repeated w (S r).
Proof.
  unfold repeated. induction r as [|r IH]; cbn.
  - now rewrite app_nil_r.
  - rewrite <- app_assoc, IH. reflexivity.
Qed.

(** Loop invariant: with [k] periods written and [count] still to write,
    the loop completes the buffer. *)
Lemma copy_loop_spec (w : list A) (count k : nat) :
  (0 < length w)%nat ->
  Z.of_nat ((k + count) * length w) < two32 ->
  copy_loop count (Z.of_nat k) (Z.of_nat (length w)) w
    (repeated w k ++ repeat zero (count * length w))
  = Some (repeated w (k + count)).
Proof.
  intros Hw. revert k. induction count as [|count IH]; intros k Hlt.
  - cbn. now rewrite app_nil_r, Nat.add_0_r.
  - cbn [copy_loop].
    rewrite to_uint32_id by (unfold is_uint32; nia).
    replace (Z.of_nat k * Z.of_nat (length w))
      with (Z.of_nat (length (repeated w k)))
      by (rewrite repeated_length; lia).
    rewrite memcpy_at_append; [| reflexivity | rewrite repeat_length; nia].
    replace (skipn (length w) (repeat zero (S count * length w)))
      with (repeat zero (count * length w)).
    2:{ cbn [Nat.mul]. rewrite repeat_app, skipn_app, repeat_length.
        rewrite Nat.sub_diag, skipn_O, skipn_all2 by (rewrite repeat_length; lia).
        reflexivity. }
    rewrite app_assoc, repeated_snoc.
    replace (Z.of_nat k + 1) with (Z.of_nat (S k)) by lia.
    rewrite IH by (replace (S k + count)%nat with (k + S count)%nat by lia; exact Hlt).
    f_equal. f_equal. lia.
Qed.

(** While the product [base_samples * burst_length] fits [uint32_t], the
    buffer is the base waveform repeated [burst_length] times. *)
Lemma build_burst_in_range (w : list A) (burst_length : Z) :
  (0 < length w)%nat ->
  0 <= burst_length ->
  Z.of_nat (length w) * burst_length < two32 ->
  build_burst zero w (Z.of_nat (length w)) burst_length
  = Some (repeated w (Z.to_nat burst_length)).
Proof.
  intros Hw Hb Hlt. unfold build_burst.
  rewrite to_uint32_id by (unfold is_uint32; nia).
  replace (Z.to_nat (Z.of_nat (length w) * burst_length))
    with (Z.to_nat burst_length * length w)%nat by nia.
  change (repeat zero (Z.to_nat burst_length * length w))
    with (repeated w 0 ++ repeat zero (Z.to_nat burst_length * length w)).
  apply (copy_loop_spec w (Z.to_nat burst_length) 0 Hw).
  cbn [Nat.add]. nia.
Qed.

(** Every period of the repeated buffer is the base waveform. *)
Lemma repeated_nth (w : list A) (r i j : nat) (d : A) :
  (i < r)%nat -> (j < length w)%nat ->
  nth (i * length w + j) (repeated w r) d = nth j w d.
Proof.
  revert i. induction r as [|r IH]; intros i Hi Hj; [lia|].
  change (repeated w (S r)) with (w ++ repeated w r).
  destruct i as [|i].
  - cbn [Nat.mul Nat.add]. now rewrite app_nth1.
  - rewrite app_nth2 by (cbn; lia).
    replace (S i * length w + j - length w)%nat with (i * length w + j)%nat
      by (cbn; lia).
    apply IH; lia.
Qed.

End BurstFacts.

(** ** binary32 arithmetic: conversion of a positive integer *)

Section Binary32Facts.
Import Normalize.

Lemma digits2_pos_lower (p : positive) :
  2 ^ (Zpos (digits2_pos p) - 1) <= Zpos p.
Proof.
  induction p as [p IH | p IH |]; cbn [digits2_pos].
  - rewrite Pos2Z.inj_succ.
    replace (Z.succ (Zpos (digits2_pos p)) - 1)
      with (Z.succ (Zpos (digits2_pos p) - 1)) by lia.
    rewrite Z.pow_succ_r by lia. lia.
  - rewrite Pos2Z.inj_succ.
    replace (Z.succ (Zpos (digits2_pos p)) - 1)
      with (Z.succ (Zpos (digits2_pos p) - 1)) by lia.
    rewrite Z.pow_succ_r by lia. lia.
  - cbn. lia.
Qed.

Lemma shr_1_m (r : shr_record) :
  0 <= shr_m r -> shr_m (shr_1 r) = shr_m r / 2.
Proof.
  destruct r as [m r s]. cbn [shr_m]. intros Hm.
  destruct m as [|p|p]; [reflexivity | | lia].
  destruct p as [p|p|]; cbn [shr_1 shr_m].
  - rewrite Pos2Z.inj_xI. apply Z.div_unique with (r := 1); lia.
  - rewrite Pos2Z.inj_xO. apply Z.div_unique with (r := 0); lia.
  - reflexivity.
Qed.

Lemma iter_pos_shr_1_m (k : positive) :
  forall r, 0 <= shr_m r ->
  shr_m (SpecFloat.iter_pos shr_1 k r) = shr_m r / 2 ^ Zpos k.
Proof.
  induction k as [k IH | k IH |]; intros r Hr; cbn [SpecFloat.iter_pos].
  - assert (H1 : 0 <= shr_m (shr_1 r))
      by (rewrite shr_1_m by assumption; apply Z.div_pos; lia).
    assert (H2 : 0 <= shr_m (SpecFloat.iter_pos shr_1 k (shr_1 r)))
      by (rewrite IH by assumption; apply Z.div_pos; lia).
    rewrite IH, IH, shr_1_m by assumption.
    rewrite !Z.div_div by lia.
    f_equal. rewrite (Pos2Z.inj_xI k).
    replace (2 * Zpos k + 1) with (1 + Zpos k + Zpos k) by lia.
    rewrite (Z.pow_add_r 2 (1 + Zpos k) (Zpos k)) by lia.
    rewrite (Z.pow_add_r 2 1 (Zpos k)) by lia. lia.
  - assert (H2 : 0 <= shr_m (SpecFloat.iter_pos shr_1 k r))
      by (rewrite IH by assumption; apply Z.div_pos; lia).
    rewrite IH, IH by assumption.
    rewrite !Z.div_div by lia.
    f_equal. rewrite (Pos2Z.inj_xO k).
    replace (2 * Zpos k) with (Zpos k + Zpos k) by lia.
    rewrite (Z.pow_add_r 2 (Zpos k) (Zpos k)) by lia. lia.
  - now rewrite shr_1_m.
Qed.

Lemma shr_record_of_loc_m (m : Z) (l : location) :
  shr_m (shr_record_of_loc m l) = m.
Proof. destruct l as [|[| |]]; reflexivity. Qed.

(** Rounding a positive mantissa to binary32 precision keeps it positive
    as long as the exponent is not below the smallest one. *)
Lemma shr_fexp_pos (m e : Z) (l : location) :
  0 < m -> -149 <= e ->
  0 < shr_m (fst (shr_fexp prec32 emax32 m e l)) /\
  e <= snd (shr_fexp prec32 emax32 m e l).
Proof.
  intros Hm He. unfold shr_fexp, shr, fexp, emin, prec32, emax32.
  destruct m as [|p|p]; try lia. cbn [Zdigits2].
  pose proof (digits2_pos_lower p) as Hd.
  set (d := Zpos (digits2_pos p)) in *.
  destruct (Z.max (d + e - 24) (3 - 128 - 24) - e) as [|k|k] eqn:Hn;
    cbn [fst snd]; rewrite ?shr_record_of_loc_m; try lia.
  split; [| lia].
  rewrite iter_pos_shr_1_m by (rewrite shr_record_of_loc_m; lia).
  rewrite shr_record_of_loc_m.
  apply Z.div_str_pos. split; [lia|].
  apply Z.le_trans with (2 ^ (d - 1)); [| exact Hd].
  apply Z.pow_le_mono_r; lia.
Qed.

Lemma round_nearest_even_pos (m : Z) (l : location) :
  0 < m -> 0 < round_nearest_even m l.
Proof.
  intros Hm. destruct l as [|[| |]]; cbn [round_nearest_even]; try lia.
  destruct (Z.even m); lia.
Qed.

Lemma binary_round_aux_pos (m e : Z) (l : location) :
  0 < m -> -149 <= e ->
  match binary_round_aux prec32 emax32 false m e l with
  | S754_finite false _ _ | S754_infinity false => True
  | _ => False
  end.
Proof.
  intros Hm He. unfold binary_round_aux.
  destruct (shr_fexp_pos m e l Hm He) as [H1 H1e].
  destruct (shr_fexp prec32 emax32 m e l) as [mrs' e'].
  cbn [fst snd] in H1, H1e.
  pose proof (round_nearest_even_pos (shr_m mrs') (loc_of_shr_record mrs') H1) as H2.
  destruct (shr_fexp_pos (round_nearest_even (shr_m mrs') (loc_of_shr_record mrs'))
              e' loc_Exact H2 ltac:(lia)) as [H3 _].
  destruct (shr_fexp prec32 emax32 _ e' loc_Exact) as [mrs'' e''].
  cbn [fst] in H3.
  destruct (shr_m mrs'') as [|q|q]; try lia.
  destruct (e'' <=? emax32 - prec32); exact I.
Qed.

(** The conversion of a positive sample count is a positive number (or
    +infinity): never zero, never NaN. *)
Lemma b32_of_Z_pos (z : Z) :
  0 < z ->
  match b32_of_Z z with
  | S754_finite false _ _ | S754_infinity false => True
  | _ => False
  end.
Proof.
  intros Hz. destruct z as [|p|p]; try lia.
  unfold b32_of_Z, binary_normalize, binary_round, shl_align.
  set (ex' := fexp prec32 emax32 (Zpos (digits2_pos p) + 0)).
  assert (Hex : -149 <= ex') by (unfold ex', fexp, emin, prec32, emax32; lia).
  destruct (ex' - 0) as [|k|k]; apply binary_round_aux_pos; lia.
Qed.

End Binary32Facts.

(** ** Burst normalisation *)

Section NormalizeGeneric.
Import Normalize.
Context {F : Type} `{SampleArith F}.

(** The rescale loop multiplies every sample by the one scale factor. *)
Lemma normalize_burst_nth (tx_buffer : list (F * F)) (i : nat) (d : F * F) :
  (i < length tx_buffer)%nat ->
  nth i (normalize_burst tx_buffer) (scale (scale_factor tx_buffer) d)
  = scale (scale_factor tx_buffer) (nth i tx_buffer d).
Proof. intros _. unfold normalize_burst. apply map_nth. Qed.

Lemma normalize_burst_length (tx_buffer : list (F * F)) :
  length (normalize_burst tx_buffer) = length tx_buffer.
Proof. unfold normalize_burst. apply length_map. Qed.

End NormalizeGeneric.

Section NormalizeBinary32.
Import Normalize.

Lemma norm_zero_sample (z : binary32 * binary32) :
  zero_sample z -> norm z = S754_zero false.
Proof.
  destruct z as [[sr| | |] [si| | |]]; unfold zero_sample; cbn;
    intros [Hr Hi]; try discriminate.
  now destruct sr, si.
Qed.

Lemma check_power_zero (tx_buffer : list (binary32 * binary32)) :
  Forall zero_sample tx_buffer -> check_power tx_buffer = S754_zero false.
Proof.
  unfold check_power. cbn [f_zero binary32_arith].
  induction 1 as [|z l Hz _ IH]; cbn [fold_left]; [reflexivity|].
  rewrite (norm_zero_sample z Hz). exact IH.
Qed.

Lemma current_amplitude_zero (tx_buffer : list (binary32 * binary32)) :
  tx_buffer <> [] -> Forall zero_sample tx_buffer ->
  current_amplitude tx_buffer = S754_zero false.
Proof.
  intros Hne Hz. unfold current_amplitude. rewrite (check_power_zero _ Hz).
  cbn [f_of_uint32 f_div f_sqrt binary32_arith].
  assert (Hlen : 0 < Z.of_nat (length tx_buffer))
    by (destruct tx_buffer; [congruence | cbn; lia]).
  pose proof (b32_of_Z_pos _ Hlen) as Hpos.
  destruct (b32_of_Z (Z.of_nat (length tx_buffer))) as [s|s| |s mm e];
    try contradiction; destruct s; try contradiction; reflexivity.
Qed.

(** On a silent buffer the scale factor is the finite constant
    0.7f / 1e-12f. *)
Lemma scale_factor_zero (tx_buffer : list (binary32 * binary32)) :
  tx_buffer <> [] -> Forall zero_sample tx_buffer ->
  scale_factor tx_buffer = S754_finite false 10681152 16.
Proof.
  intros Hne Hz. unfold scale_factor. rewrite (current_amplitude_zero _ Hne Hz).
  vm_compute. reflexivity.
Qed.

Lemma scale_zero_sample (z : binary32 * binary32) :
  zero_sample z -> scale (S754_finite false 10681152 16) z = z.
Proof.
  destruct z as [[sr| | |] [si| | |]]; unfold zero_sample; cbn;
    intros [Hr Hi]; try discriminate.
  now destruct sr, si.
Qed.

(** A buffer of zero samples is left as it is. *)
Lemma normalize_burst_zero (tx_buffer : list (binary32 * binary32)) :
  Forall zero_sample tx_buffer -> normalize_burst tx_buffer = tx_buffer.
Proof.
  intros Hz. destruct tx_buffer as [|z l]; [reflexivity|].
  unfold normalize_burst. rewrite scale_factor_zero by (congruence || assumption).
  rewrite <- (map_id (z :: l)) at 2. apply map_ext_in.
  intros a Ha. apply scale_zero_sample.
  rewrite Forall_forall in Hz. now apply Hz.
Qed.

Lemma zero_sample_finite (z : binary32 * binary32) :
  zero_sample z ->
  is_nan_or_inf (fst z) = false /\ is_nan_or_inf (snd z) = false.
Proof.
  destruct z as [[sr| | |] [si| | |]]; unfold zero_sample; cbn;
    intros [Hr Hi]; try discriminate; split; reflexivity.
Qed.

(** The literals are the binary32 numbers nearest to 7/10 and 10^-12. *)
Lemma literals_nearest :
  2 * Z.abs (11744051 * 10 - 7 * 2 ^ 24) <= 10 /\
  2 * Z.abs (9223372 * 10 ^ 12 - 2 ^ 63) <= 10 ^ 12 /\
  SpecFloat.valid_binary prec32 emax32 b32_0_7 = true /\
  SpecFloat.valid_binary prec32 emax32 b32_1em12 = true.
Proof. repeat split; vm_compute; congruence. Qed.

End NormalizeBinary32.


(** ** Burst construction: within range, and the overflow *)

(** While [base_samples * burst_length] fits [uint32_t], the buffer has
    length exactly L*R and each of its R periods is the base waveform. *)
Lemma build_burst_periods {A : Type} (zero : A) (w : list A) (burst_length : Z) :
  (0 < length w)%nat ->
  0 <= burst_length ->
  Z.of_nat (length w) * burst_length < two32 ->
  exists tx_buffer,
    Burst.build_burst zero w (Z.of_nat (length w)) burst_length = Some tx_buffer /\
    Z.of_nat (length tx_buffer) = Z.of_nat (length w) * burst_length /\
    forall i j d, (i < Z.to_nat burst_length)%nat -> (j < length w)%nat ->
      nth (i * length w + j) tx_buffer d = nth j w d.
Proof.
  intros Hw Hb Hlt. eexists. split; [now apply build_burst_in_range|]. split.
  - rewrite repeated_length. nia.
  - intros i j d Hi Hj. now apply repeated_nth.
Qed.

(** C9 at an input whose product leaves [uint32_t] (23040 samples, 186414
    repeats): [total_samples] wraps to 11264 instead of 4294978560, the
    vector gets that size, and the first copy of 23040 samples already runs
    past its end. *)
Theorem build_burst_overflow :
  Burst.overflow_base_samples * Burst.overflow_burst_length = 4294978560 /\
  to_uint32 (Burst.overflow_base_samples * Burst.overflow_burst_length) = 11264 /\
  Z.of_nat (length Burst.overflow_waveform) = Burst.overflow_base_samples /\
  Burst.build_burst 0 Burst.overflow_waveform Burst.overflow_base_samples
    Burst.overflow_burst_length = None.
Proof. repeat split; vm_compute; reflexivity. Qed.

(** ** Transmission loop *)

Lemma to_int_succ (x : Z) : to_int (to_int x + 1) = to_int (x + 1).
Proof.
  unfold to_int, two31, two32.
  replace ((x + 2 ^ 31) mod 2 ^ 32 - 2 ^ 31 + 1 + 2 ^ 31)
    with ((x + 2 ^ 31) mod 2 ^ 32 + 1) by lia.
  rewrite Z.add_mod_idemp_l by lia.
  f_equal. f_equal. lia.
Qed.

Section TxLoopFacts.
Import World Transmitter.
Context {F : Type}.
Variable rf : RfHandler F.
Variable running : nat -> bool.
Variable config : Config.
Variable tx_buffer : list (F * F).
Variable nsamples : Z.

Lemma can_start_cond :
  can_start config ->
  ((max_bursts (attack config) =? 0)
   || (0 <? to_int (max_bursts (attack config))))%bool = true.
Proof.
  intros [H0 | Hpos]; apply orb_true_iff; [left | right].
  - now apply Z.eqb_eq.
  - now apply Z.ltb_lt.
Qed.

(** With a transport that always fails, [j] failures in, the loop stops
    at the tenth failed call. *)
Lemma tx_loop_failing (j : nat) :
  always_fails rf -> can_start config ->
  (forall k, (k < 10)%nat -> running k = true) ->
  (j < 10)%nat ->
  forall fuel, (10 - j <= fuel)%nat ->
  tx_loop rf running config fuel tx_buffer nsamples
    {| tx_count := 0; consecutive_errors := Z.of_nat j; iterations := j |}
  = Returns ({| tx_count := 0; consecutive_errors := 10; iterations := 10 |},
             exit_fatal).
Proof.
  intros Hfail Hstart Hrun.
  remember (10 - j)%nat as d eqn:Hd. revert j Hd.
  induction d as [|d IH]; intros j Hd Hj fuel Hfuel; [lia|].
  destruct fuel as [|fuel]; [lia|].
  cbn [tx_loop]. unfold tx_step. cbn [iterations tx_count consecutive_errors].
  rewrite (Hrun j Hj). cbn [negb].
  rewrite (can_start_cond Hstart). cbn [negb].
  pose proof (Hfail j tx_buffer nsamples (0 =? 0)
                (burst_interval_us (attack config) >? 0)) as Hneg.
  apply Z.ltb_lt in Hneg. rewrite Hneg.
  unfold max_consecutive_errors.
  destruct (Z.of_nat j + 1 >=? 10) eqn:Hten.
  - assert (j = 9%nat) by (rewrite Z.geb_leb in Hten; apply Z.leb_le in Hten; lia).
    subst j. reflexivity.
  - assert (j < 9)%nat by (rewrite Z.geb_leb in Hten; apply Z.leb_gt in Hten; lia).
    replace (Z.of_nat j + 1) with (Z.of_nat (S j)) by lia.
    apply IH; lia.
Qed.

(** Always-failing transport, continuous mode: the loop makes exactly ten
    transmit calls, sends nothing and leaves through the FATAL branch. *)
Lemma tx_loop_aborts_after_ten :
  always_fails rf -> can_start config ->
  (forall k, (k < 10)%nat -> running k = true) ->
  forall fuel, (10 <= fuel)%nat ->
  tx_loop rf running config fuel tx_buffer nsamples tx_init
  = Returns ({| tx_count := 0; consecutive_errors := 10; iterations := 10 |},
             exit_fatal).
Proof.
  intros Hfail Hstart Hrun fuel Hfuel.
  apply (tx_loop_failing 0 Hfail Hstart Hrun); lia.
Qed.

(** A successful transmission resets the consecutive-error counter. *)
Lemma tx_step_success_resets (st st' : tx_state) :
  tx_step rf running config tx_buffer nsamples st = TxContinue st' ->
  0 <= transmit rf (iterations st) tx_buffer nsamples (tx_count st =? 0)
         (burst_interval_us (attack config) >? 0) ->
  consecutive_errors st' = 0 /\ tx_count st' = to_int (tx_count st + 1).
Proof.
  unfold tx_step. intros Hstep Hok.
  destruct (negb (running (iterations st))); [discriminate|].
  destruct (negb _); [discriminate|].
  apply Z.ltb_ge in Hok. rewrite Hok in Hstep.
  injection Hstep as <-. split; reflexivity.
Qed.

(** With a transport that always sends and a burst limit [N] below 2^31,
    [j] bursts in, the loop goes on to exactly [N]. *)
Lemma tx_loop_sending (N : Z) (j : nat) :
  always_sends rf ->
  max_bursts (attack config) = N -> 0 < N < two31 ->
  (forall k, (Z.of_nat k < N) -> running k = true) ->
  Z.of_nat j <= N ->
  forall fuel, (Z.to_nat N - j < fuel)%nat ->
  exists why,
    tx_loop rf running config fuel tx_buffer nsamples
      {| tx_count := Z.of_nat j; consecutive_errors := 0; iterations := j |}
    = Returns ({| tx_count := N; consecutive_errors := 0;
                  iterations := Z.to_nat N |}, why) /\
    why = if running (Z.to_nat N) then exit_max_bursts else exit_cancelled.
Proof.
  intros Hsend HN Hrange Hrun.
  remember (Z.to_nat N - j)%nat as d eqn:Hd. revert j Hd.
  induction d as [|d IH]; intros j Hd Hj fuel Hfuel.
  - assert (Z.of_nat j = N) by lia.
    assert (j = Z.to_nat N) by lia.
    destruct fuel as [|fuel]; [lia|].
    cbn [tx_loop]. unfold tx_step. cbn [iterations tx_count consecutive_errors].
    rewrite HN, (to_int_id N) by (unfold is_int, two31 in *; lia).
    replace (N =? 0) with false by (symmetry; apply Z.eqb_neq; lia).
    replace (Z.of_nat j <? N) with false by (symmetry; apply Z.ltb_ge; lia).
    subst j. rewrite H.
    destruct (running (Z.to_nat N)); cbn [negb orb]; eexists; split; reflexivity.
  - destruct fuel as [|fuel]; [lia|].
    cbn [tx_loop]. unfold tx_step. cbn [iterations tx_count consecutive_errors].
    rewrite (Hrun j) by lia. cbn [negb].
    rewrite HN, (to_int_id N) by (unfold is_int, two31 in *; lia).
    replace (Z.of_nat j <? N) with true by (symmetry; apply Z.ltb_lt; lia).
    rewrite orb_true_r. cbn [negb].
    pose proof (Hsend j tx_buffer nsamples (Z.of_nat j =? 0)
                  (burst_interval_us (attack config) >? 0)) as Hok.
    apply Z.ltb_ge in Hok. rewrite Hok.
    rewrite to_int_id by (unfold is_int, two31 in *; lia).
    replace (Z.of_nat j + 1) with (Z.of_nat (S j)) by lia.
    apply IH; lia.
Qed.

(** [max_bursts = N] with 0 < N < 2^31 and a transport that always sends:
    exactly [N] transmissions, then the loop stops. *)
Lemma tx_loop_sends_exactly (N : Z) :
  always_sends rf ->
  max_bursts (attack config) = N -> 0 < N < two31 ->
  (forall k, (Z.of_nat k < N) -> running k = true) ->
  forall fuel, (Z.to_nat N < fuel)%nat ->
  exists st why,
    tx_loop rf running config fuel tx_buffer nsamples tx_init = Returns (st, why) /\
    tx_count st = N /\ iterations st = Z.to_nat N.
Proof.
  intros Hsend HN Hrange Hrun fuel Hfuel.
  destruct (tx_loop_sending N 0 Hsend HN Hrange Hrun ltac:(cbn; lia) fuel
              ltac:(lia)) as [why [Hloop _]].
  eexists _, why. split; [exact Hloop|]. split; reflexivity.
Qed.

(** [max_bursts = 0]: [j] bursts in, the loop keeps transmitting for as
    long as [running] reads true and leaves at the first false reading. *)
Lemma tx_loop_unlimited (K j : nat) :
  always_sends rf ->
  max_bursts (attack config) = 0 ->
  (forall k, (k < K)%nat -> running k = true) ->
  running K = false ->
  (j <= K)%nat ->
  forall fuel, (K - j < fuel)%nat ->
  tx_loop rf running config fuel tx_buffer nsamples
    {| tx_count := to_int (Z.of_nat j); consecutive_errors := 0;
       iterations := j |}
  = Returns ({| tx_count := to_int (Z.of_nat K); consecutive_errors := 0;
                iterations := K |}, exit_cancelled).
Proof.
  intros Hsend H0 Hrun Hstop.
  remember (K - j)%nat as d eqn:Hd. revert j Hd.
  induction d as [|d IH]; intros j Hd Hj fuel Hfuel.
  - assert (j = K) by lia. subst j.
    destruct fuel as [|fuel]; [lia|].
    cbn [tx_loop]. unfold tx_step. cbn [iterations]. rewrite Hstop. reflexivity.
  - destruct fuel as [|fuel]; [lia|].
    cbn [tx_loop]. unfold tx_step. cbn [iterations tx_count consecutive_errors].
    rewrite (Hrun j) by lia. rewrite H0. cbn [negb Z.eqb orb].
    pose proof (Hsend j tx_buffer nsamples (to_int (Z.of_nat j) =? 0)
                  (burst_interval_us (attack config) >? 0)) as Hok.
    apply Z.ltb_ge in Hok. rewrite Hok.
    rewrite to_int_succ.
    replace (Z.of_nat j + 1) with (Z.of_nat (S j)) by lia.
    apply IH; lia.
Qed.

(** No burst limit: with [max_bursts = 0] and a transport that never
    fails, the loop transmits at every test at which [running] reads true
    and leaves at the first test at which it reads false, having made
    exactly as many transmissions as tests passed. *)
Lemma tx_loop_until_cancelled (K fuel : nat) :
  always_sends rf ->
  max_bursts (attack config) = 0 ->
  (forall k, (k < K)%nat -> running k = true) ->
  running K = false ->
  (K < fuel)%nat ->
  tx_loop rf running config fuel tx_buffer nsamples tx_init
  = Returns ({| tx_count := to_int (Z.of_nat K); consecutive_errors := 0;
                iterations := K |}, exit_cancelled).
Proof.
  intros Hsend H0 Hrun Hstop Hfuel.
  apply (tx_loop_unlimited K 0); assumption || lia.
Qed.

(** [max_bursts = 0] and [running] never read false: the loop does not
    stop. *)
Lemma tx_loop_unlimited_runs (j : nat) :
  always_sends rf ->
  max_bursts (attack config) = 0 ->
  (forall k, running k = true) ->
  forall fuel c,
  tx_loop rf running config fuel tx_buffer nsamples
    {| tx_count := c; consecutive_errors := 0; iterations := j |}
  = OutOfFuel.
Proof.
  intros Hsend H0 Hrun fuel. revert j.
  induction fuel as [|fuel IH]; intros j c; [reflexivity|].
  cbn [tx_loop]. unfold tx_step. cbn [iterations tx_count consecutive_errors].
  rewrite Hrun, H0. cbn [negb Z.eqb orb].
  pose proof (Hsend j tx_buffer nsamples (c =? 0)
                (burst_interval_us (attack config) >? 0)) as Hok.
  apply Z.ltb_ge in Hok. rewrite Hok. apply IH.
Qed.

End TxLoopFacts.

(** ** Scan loop *)

Section MemcpyFacts.
Context {A : Type}.

Lemma memcpy_at_inside (dst src : list A) (off n : Z) :
  0 <= off -> 0 <= n ->
  off + n <= Z.of_nat (length dst) -> n <= Z.of_nat (length src) ->
  Burst.memcpy_at dst off src n
  = Some (firstn (Z.to_nat off) dst ++ firstn (Z.to_nat n) src
          ++ skipn (Z.to_nat (off + n)) dst).
Proof.
  intros Ho Hn Hd Hs. unfold Burst.memcpy_at.
  replace ((0 <=? off) && (0 <=? n) && (off + n <=? Z.of_nat (length dst))
           && (n <=? Z.of_nat (length src)))%bool with true; [reflexivity|].
  symmetry. rewrite !andb_true_iff, !Z.leb_le. lia.
Qed.

Lemma memcpy_at_result (dst src out : list A) (off n : Z) :
  Burst.memcpy_at dst off src n = Some out ->
  out = firstn (Z.to_nat off) dst ++ firstn (Z.to_nat n) src
        ++ skipn (Z.to_nat (off + n)) dst /\
  length out = length dst.
Proof.
  unfold Burst.memcpy_at.
  destruct ((0 <=? off) && (0 <=? n) && (off + n <=? Z.of_nat (length dst))
            && (n <=? Z.of_nat (length src)))%bool eqn:Hc; [|discriminate].
  rewrite !andb_true_iff, !Z.leb_le in Hc. destruct Hc as [[[Ho Hn] Hd] Hs].
  intros [= <-]. split; [reflexivity|].
  rewrite !length_app, !length_firstn, length_skipn. lia.
Qed.

End MemcpyFacts.

Section ScanFacts.
Import World Scanner.
Context {F pbch : Type} `{Normalize.SampleArith F}.
Variable rf : RfHandler F.
Variable phy : Phy F pbch.
Variable running : nat -> bool.
Variable steady_clock : nat -> Z.
Variable config : Config.

Lemma double_to_uint32_range (x : float) : is_uint32 (double_to_uint32 x).
Proof.
  unfold double_to_uint32.
  destruct (Prim2SF x) as [s|s| |[|] m e]; try apply to_uint32_range;
    unfold is_uint32, two32; lia.
Qed.

Lemma search_buffer_size_range : is_uint32 (search_buffer_size config).
Proof. apply double_to_uint32_range. Qed.

Lemma scan_init_ok : window_ok config (scan_init (pbch := pbch) config).
Proof.
  pose proof search_buffer_size_range as Hs. unfold is_uint32 in Hs.
  unfold window_ok, scan_init. cbn [search_buffer_pos search_buffer].
  rewrite repeat_length. lia.
Qed.

(** What one loop body does to the window, in a state where the cursor is
    inside the window. *)
Lemma scan_step_window (st st' : scan_state) :
  window_ok config st ->
  scan_step rf phy running steady_clock config st = ScanContinue st' ->
  window_ok config st' /\
  checks st' = S (checks st) /\
  rx_calls st' = S (rx_calls st) /\
  let nrecv := fst (receive rf (rx_calls st) (samples_per_iter config)) in
  let rx_buffer := snd (receive rf (rx_calls st) (samples_per_iter config)) in
  let pos := search_buffer_pos st in
  let size := search_buffer_size config in
  if nrecv <=? 0 then
    search_buffer st' = search_buffer st /\ search_buffer_pos st' = pos
  else
    let samples_to_copy := Z.min (to_uint32 nrecv) (size - pos) in
    search_buffer st' =
      firstn (Z.to_nat pos) (search_buffer st)
      ++ firstn (Z.to_nat samples_to_copy) rx_buffer
      ++ skipn (Z.to_nat (pos + samples_to_copy)) (search_buffer st) /\
    search_buffer_pos st' =
      (if pos + samples_to_copy <? size then pos + samples_to_copy else 0) /\
    searches st' =
      (if pos + samples_to_copy <? size then searches st else S (searches st)).
Proof.
  intros [Hpos Hlen] Hstep.
  pose proof search_buffer_size_range as Hs. unfold is_uint32 in Hs.
  unfold scan_step in Hstep.
  destruct (negb (running (checks st))); [discriminate|].
  destruct (PrimFloat.ltb _ _); [discriminate|].
  destruct (receive rf (rx_calls st) (samples_per_iter config))
    as [nrecv rx_buffer] eqn:Hrx.
  cbn [fst snd].
  destruct (nrecv <=? 0) eqn:Hn.
  - injection Hstep as <-. unfold window_ok. cbn.
    repeat split; try reflexivity; try assumption; lia.
  - rewrite (to_uint32_id (search_buffer_size config - search_buffer_pos st))
      in Hstep by (unfold is_uint32; lia).
    set (k := Z.min (to_uint32 nrecv)
                    (search_buffer_size config - search_buffer_pos st)) in *.
    pose proof (to_uint32_range nrecv) as Hr. unfold is_uint32 in Hr.
    assert (Hk : 0 <= k <= search_buffer_size config - search_buffer_pos st)
      by (unfold k; lia).
    destruct (Burst.memcpy_at _ _ _ _) as [buffer|] eqn:Hcpy; [|discriminate].
    apply memcpy_at_result in Hcpy. destruct Hcpy as [Hbuf Hblen].
    rewrite (to_uint32_id (search_buffer_pos st + k)) in Hstep
      by (unfold is_uint32; lia).
    destruct (search_buffer_pos st + k >=? search_buffer_size config) eqn:Hfull.
    + rewrite Z.geb_leb in Hfull. apply Z.leb_le in Hfull.
      replace (search_buffer_pos st + k <? search_buffer_size config) with false
        by (symmetry; apply Z.ltb_ge; lia).
      destruct (found _); [discriminate|].
      injection Hstep as <-. unfold window_ok. cbn.
      repeat split; try reflexivity; try assumption; try lia.
    + rewrite Z.geb_leb in Hfull. apply Z.leb_gt in Hfull.
      replace (search_buffer_pos st + k <? search_buffer_size config) with true
        by (symmetry; apply Z.ltb_lt; lia).
      injection Hstep as <-. unfold window_ok. cbn.
      repeat split; try reflexivity; try assumption; try lia.
Qed.

(** Every state the loop reaches has its cursor inside the window. *)
Lemma scan_iter_ok (n : nat) (st : scan_state) :
  scan_iter rf phy running steady_clock config n = Some st ->
  window_ok config st /\ checks st = n.
Proof.
  revert st. induction n as [|n IH]; intros st; cbn [scan_iter].
  - intros [= <-]. split; [apply scan_init_ok | reflexivity].
  - destruct (scan_iter rf phy running steady_clock config n) as [st0|];
      [|discriminate].
    destruct (IH st0 eq_refl) as [Hok Hchk].
    destruct (scan_step rf phy running steady_clock config st0) as [st1| | | |] eqn:Hstep;
      try discriminate.
    intros [= <-].
    destruct (scan_step_window st0 st1 Hok Hstep) as [Hok' [Hc _]].
    split; [assumption | lia].
Qed.

(** With a codec that never finds and a transport that backs its counts,
    a loop body either leaves false-handed or goes on with the cursor
    inside the window. *)
Lemma scan_step_cases (st : scan_state) :
  never_found phy -> delivers rf -> window_ok config st ->
  scan_step rf phy running steady_clock config st = ScanCancelled st \/
  scan_step rf phy running steady_clock config st = ScanTimeout st \/
  exists st', scan_step rf phy running steady_clock config st = ScanContinue st'.
Proof.
  intros Hnf Hrx [Hpos Hlen].
  pose proof search_buffer_size_range as Hs. unfold is_uint32 in Hs.
  unfold scan_step.
  destruct (negb (running (checks st))); [now left|].
  destruct (PrimFloat.ltb _ _); [right; now left|].
  right; right.
  pose proof (Hrx (rx_calls st) (samples_per_iter config)) as Hback.
  destruct (receive rf (rx_calls st) (samples_per_iter config))
    as [nrecv rx_buffer]. cbn [fst snd] in Hback.
  destruct (nrecv <=? 0) eqn:Hn; [eexists; reflexivity|].
  apply Z.leb_gt in Hn. specialize (Hback Hn).
  rewrite (to_uint32_id (search_buffer_size config - search_buffer_pos st))
    by (unfold is_uint32; lia).
  pose proof (to_uint32_range nrecv) as Hr. unfold is_uint32 in Hr.
  rewrite memcpy_at_inside by lia.
  destruct (_ >=? _).
  - rewrite Hnf. eexists; reflexivity.
  - eexists; reflexivity.
Qed.

Lemma scan_step_timeout (st : scan_state) :
  running (checks st) = true ->
  deadline_passed steady_clock config (checks st) = true ->
  scan_step rf phy running steady_clock config st = ScanTimeout st.
Proof.
  intros Hrun Hdl. unfold scan_step. rewrite Hrun. cbn [negb].
  unfold deadline_passed in Hdl. now rewrite Hdl.
Qed.

Lemma scan_step_cancelled (st : scan_state) :
  running (checks st) = false ->
  scan_step rf phy running steady_clock config st = ScanCancelled st.
Proof. intros Hrun. unfold scan_step. now rewrite Hrun. Qed.

(** From a state [d] loop tests before the one at which the deadline is
    seen passed, the loop returns false. *)
Lemma scan_loop_deadline (K d : nat) :
  never_found phy -> delivers rf ->
  deadline_passed steady_clock config K = true ->
  forall st fuel,
    window_ok config st -> (checks st + d = K)%nat -> (d < fuel)%nat ->
    exists last,
      scan_loop rf phy running steady_clock config fuel st = Returns (false, last).
Proof.
  intros Hnf Hrx Hdl.
  induction d as [|d IH]; intros st fuel Hok Hchk Hfuel;
    (destruct fuel as [|fuel]; [lia|]); cbn [scan_loop].
  - destruct (running (checks st)) eqn:Hrun.
    + rewrite scan_step_timeout; [eexists; reflexivity | assumption |].
      now replace (checks st) with K by lia.
    + rewrite scan_step_cancelled by assumption. eexists; reflexivity.
  - destruct (scan_step_cases st Hnf Hrx Hok) as [-> | [-> | [st' Hstep]]];
      try (eexists; reflexivity).
    rewrite Hstep.
    destruct (scan_step_window st st' Hok Hstep) as [Hok' [Hc _]].
    apply IH; [assumption | lia | lia].
Qed.

End ScanFacts.


(** ** binary32 arithmetic: rounding of a wide mantissa *)

Section RoundingFacts.
Import Normalize.

Lemma digits2_pos_upper (p : positive) :
  Zpos p < 2 ^ Zpos (digits2_pos p).
Proof.
  induction p as [p IH | p IH |]; cbn [digits2_pos].
  - rewrite Pos2Z.inj_succ, Z.pow_succ_r by lia. lia.
  - rewrite Pos2Z.inj_succ, Z.pow_succ_r by lia. lia.
  - cbn. lia.
Qed.

(** The number of binary digits of a positive integer, from bounds. *)
Lemma digits2_pos_bounds (p : positive) (d : Z) :
  0 < d -> 2 ^ (d - 1) <= Zpos p < 2 ^ d -> Zpos (digits2_pos p) = d.
Proof.
  intros Hd [Hlo Hhi].
  pose proof (digits2_pos_lower p) as Hl.
  pose proof (digits2_pos_upper p) as Hu.
  set (n := Zpos (digits2_pos p)) in *.
  assert (Hn : 0 < n) by (unfold n; lia).
  assert (H1 : n - 1 < d).
  { apply (Z.pow_lt_mono_r_iff 2); lia. }
  assert (H2 : d - 1 < n).
  { apply (Z.pow_lt_mono_r_iff 2); lia. }
  lia.
Qed.

(** Dropping the digits beyond the 24th leaves a 24-digit mantissa. *)
Lemma truncated_mantissa (p : positive) :
  let k := Zpos (digits2_pos p) - 24 in
  0 <= k -> 2 ^ 23 <= Zpos p / 2 ^ k < 2 ^ 24.
Proof.
  intros k Hk.
  pose proof (digits2_pos_lower p) as Hl.
  pose proof (digits2_pos_upper p) as Hu.
  replace (Zpos (digits2_pos p) - 1) with (23 + k) in Hl by (unfold k; lia).
  replace (Zpos (digits2_pos p)) with (24 + k) in Hu by (unfold k; lia).
  rewrite Z.pow_add_r in Hl, Hu by lia.
  assert (Hp : 0 < 2 ^ k) by (apply Z.pow_pos_nonneg; lia).
  split.
  - apply Z.div_le_lower_bound; lia.
  - apply Z.div_lt_upper_bound; lia.
Qed.

Lemma shr_fexp_normal (p : positive) (e : Z) (l : location) :
  let k := Zpos (digits2_pos p) - 24 in
  0 <= k -> -149 <= e + k ->
  shr_m (fst (shr_fexp prec32 emax32 (Zpos p) e l)) = Zpos p / 2 ^ k /\
  snd (shr_fexp prec32 emax32 (Zpos p) e l) = e + k.
Proof.
  intros k Hk He. unfold shr_fexp, shr, fexp, emin, prec32, emax32.
  cbn [Zdigits2].
  replace (Z.max (Zpos (digits2_pos p) + e - 24) (3 - 128 - 24) - e) with k
    by (unfold k; lia).
  destruct k as [|q|q] eqn:Ek; cbn [fst snd]; try lia.
  - rewrite shr_record_of_loc_m, Z.div_1_r. split; [reflexivity | lia].
  - rewrite iter_pos_shr_1_m by (rewrite shr_record_of_loc_m; lia).
    rewrite shr_record_of_loc_m. split; reflexivity.
Qed.

Lemma round_nearest_even_cases (m : Z) (l : location) :
  round_nearest_even m l = m \/ round_nearest_even m l = m + 1.
Proof.
  destruct l as [|[| |]]; cbn [round_nearest_even]; auto.
  destruct (Z.even m); auto.
Qed.

(** Rounding a mantissa of at least 24 digits whose leading digit lands
    inside the normal range: the result is a normal number of the same
    sign, and it is the truncation to 24 digits or its successor. *)
Lemma binary_round_aux_normal (s : bool) (p : positive) (e : Z) (l : location) :
  let k := Zpos (digits2_pos p) - 24 in
  0 <= k -> -149 <= e + k <= 103 ->
  exists (m' : positive) (e' : Z),
    binary_round_aux prec32 emax32 s (Zpos p) e l = S754_finite s m' e' /\
    2 ^ 23 <= Zpos m' < 2 ^ 24 /\ -149 <= e' <= 104 /\
    ((e' = e + k /\
      (Zpos m' = Zpos p / 2 ^ k \/ Zpos m' = Zpos p / 2 ^ k + 1)) \/
     (e' = e + k + 1 /\ Zpos m' = 2 ^ 23 /\ Zpos p / 2 ^ k = 2 ^ 24 - 1)).
Proof.
  intros k Hk He. unfold binary_round_aux.
  destruct (shr_fexp_normal p e l Hk ltac:(lia)) as [Hm1 He1].
  destruct (shr_fexp prec32 emax32 (Zpos p) e l) as [mrs' e1].
  cbn [fst snd] in Hm1, He1. fold k in Hm1, He1.
  pose proof (truncated_mantissa p Hk) as Ht. fold k in Ht.
  set (m1 := Zpos p / 2 ^ k) in *.
  destruct (round_nearest_even_cases (shr_m mrs') (loc_of_shr_record mrs'))
    as [Hr | Hr]; rewrite Hr, Hm1.
  - (* the truncation itself *)
    destruct m1 as [|q|q] eqn:Eq; try lia.
    assert (Hd : Zpos (digits2_pos q) = 24)
      by (apply digits2_pos_bounds; [lia | exact Ht]).
    destruct (shr_fexp_normal q e1 loc_Exact) as [Hm2 He2];
      rewrite ?Hd; try lia.
    destruct (shr_fexp prec32 emax32 (Zpos q) e1 loc_Exact) as [mrs'' e2].
    cbn [fst snd] in Hm2, He2. rewrite Hd in Hm2, He2.
    rewrite Hm2. replace (24 - 24) with 0 in * by lia.
    rewrite Z.pow_0_r, Z.div_1_r.
    replace (e2 <=? emax32 - prec32) with true
      by (symmetry; apply Z.leb_le; unfold emax32, prec32; lia).
    exists q, e2. split; [reflexivity|]. lia.
  - (* its successor *)
    destruct (Z.eq_dec m1 (2 ^ 24 - 1)) as [Emax | Emax].
    + rewrite Emax. change (2 ^ 24 - 1 + 1) with (Zpos (2 ^ 24)%positive).
      assert (Hd : Zpos (digits2_pos (2 ^ 24)%positive) = 25) by reflexivity.
      destruct (shr_fexp_normal (2 ^ 24)%positive e1 loc_Exact) as [Hm2 He2];
        rewrite ?Hd; try lia.
      destruct (shr_fexp prec32 emax32 (Zpos (2 ^ 24)%positive) e1 loc_Exact)
        as [mrs'' e2].
      cbn [fst snd] in Hm2, He2. rewrite Hd in Hm2, He2.
      rewrite Hm2. change (Zpos (2 ^ 24)%positive / 2 ^ (25 - 24))
        with (Zpos (2 ^ 23)%positive).
      replace (e2 <=? emax32 - prec32) with true
        by (symmetry; apply Z.leb_le; unfold emax32, prec32; lia).
      exists (2 ^ 23)%positive, e2. split; [reflexivity|]. lia.
    + destruct (m1 + 1) as [|q|q] eqn:Eq; try lia.
      assert (Hd : Zpos (digits2_pos q) = 24)
        by (apply digits2_pos_bounds; lia).
      destruct (shr_fexp_normal q e1 loc_Exact) as [Hm2 He2];
        rewrite ?Hd; try lia.
      destruct (shr_fexp prec32 emax32 (Zpos q) e1 loc_Exact) as [mrs'' e2].
      cbn [fst snd] in Hm2, He2. rewrite Hd in Hm2, He2.
      rewrite Hm2. replace (24 - 24) with 0 in * by lia.
      rewrite Z.pow_0_r, Z.div_1_r.
      replace (e2 <=? emax32 - prec32) with true
        by (symmetry; apply Z.leb_le; unfold emax32, prec32; lia).
      exists q, e2. split; [reflexivity|]. lia.
Qed.

End RoundingFacts.


(** ** binary32 numbers as real numbers *)

Section Binary32Real.
Import Normalize Binary32.
Local Open Scope R_scope.

Lemma bpow_pos (e : Z) : 0 < bpow e.
Proof. apply powerRZ_lt. lra. Qed.

Lemma bpow_add (a b : Z) : bpow (a + b) = bpow a * bpow b.
Proof. apply powerRZ_add. lra. Qed.

Lemma bpow_IZR (k : Z) : (0 <= k)%Z -> bpow k = IZR (2 ^ k).
Proof.
  intros Hk. unfold bpow.
  rewrite <- (Z2Nat.id k Hk) at 1. rewrite <- pow_powerRZ.
  rewrite pow_IZR. now rewrite Z2Nat.id.
Qed.

Lemma bpow_opp (a : Z) : bpow (- a) = / bpow a.
Proof. apply powerRZ_neg'. Qed.

Lemma bpow_0 : bpow 0 = 1.
Proof. reflexivity. Qed.

Lemma bpow_lt (a b : Z) : (a < b)%Z -> bpow a < bpow b.
Proof.
  intros Hab. replace b with (a + (b - a))%Z by lia.
  rewrite bpow_add, (bpow_IZR (b - a)) by lia.
  pose proof (bpow_pos a) as Ha.
  assert (H2 : 2 <= IZR (2 ^ (b - a))).
  { apply IZR_le. change 2%Z with (2 ^ 1)%Z at 1.
    apply Z.pow_le_mono_r; lia. }
  nra.
Qed.

Lemma bpow_le (a b : Z) : (a <= b)%Z -> bpow a <= bpow b.
Proof.
  intros Hab. destruct (Z.eq_dec a b) as [-> | Hne]; [lra|].
  apply Rlt_le, bpow_lt. lia.
Qed.

Lemma bpow_lt_inv (a b : Z) : bpow a < bpow b -> (a < b)%Z.
Proof.
  intros Hlt. destruct (Z_lt_le_dec a b) as [H | H]; [exact H|].
  pose proof (bpow_le b a H). lra.
Qed.

Lemma bpow_le_inv (a b : Z) : bpow a <= bpow b -> (a <= b)%Z.
Proof.
  intros Hle. destruct (Z_le_gt_dec a b) as [H | H]; [exact H|].
  pose proof (bpow_lt b a ltac:(lia)). lra.
Qed.

(** The magnitude of a normal number: at least 2^(e+23), below 2^(e+24). *)
Lemma normal_mantissa_bounds (m : positive) (e : Z) :
  (2 ^ 23 <= Zpos m < 2 ^ 24)%Z ->
  bpow (e + 23) <= IZR (Zpos m) * bpow e < bpow (e + 24).
Proof.
  intros [Hlo Hhi]. pose proof (bpow_pos e) as He.
  rewrite (Z.add_comm e 23), (Z.add_comm e 24), !bpow_add.
  rewrite (bpow_IZR 23), (bpow_IZR 24) by lia.
  apply IZR_le in Hlo. apply IZR_lt in Hhi. split; nra.
Qed.

Lemma B2R_abs (s : bool) (m : positive) (e : Z) :
  Rabs (B2R (S754_finite s m e)) = IZR (Zpos m) * bpow e.
Proof.
  cbn [B2R]. pose proof (bpow_pos e) as He.
  assert (Hm : 0 < IZR (Zpos m)) by (apply IZR_lt; lia).
  destruct s.
  - rewrite Rabs_left by nra. ring.
  - rewrite Rabs_right by nra. ring.
Qed.

(** From the magnitude of a normal number to its exponent. *)
Lemma normal_exponent (x : binary32) (lo hi : Z) :
  normal x -> bpow lo <= Rabs (B2R x) < bpow hi ->
  match x with
  | S754_finite _ _ e => (lo - 23 <= e <= hi - 24)%Z
  | _ => False
  end.
Proof.
  destruct x as [| | |s m e]; cbn [normal]; try tauto.
  intros [Hm He] [Hlo Hhi]. rewrite B2R_abs in Hlo, Hhi.
  destruct (normal_mantissa_bounds m e Hm) as [H1 H2].
  assert (L : (lo < e + 24)%Z) by (apply bpow_lt_inv; lra).
  assert (Hh : (e + 23 < hi)%Z) by (apply bpow_lt_inv; lra).
  lia.
Qed.

(** The rounding step on a real number [x] known between two consecutive
    multiples of 2^e: the result is a normal number within one unit in
    the last place of [x]. *)
Lemma binary_round_aux_real (s : bool) (p : positive) (e : Z) (l : location)
    (x : R) :
  let k := (Zpos (digits2_pos p) - 24)%Z in
  (0 <= k)%Z -> (-149 <= e + k <= 103)%Z ->
  IZR (Zpos p) * bpow e <= x < (IZR (Zpos p) + 1) * bpow e ->
  exists (m' : positive) (e' : Z),
    binary_round_aux prec32 emax32 s (Zpos p) e l = S754_finite s m' e' /\
    normal (S754_finite s m' e') /\
    Rabs (IZR (Zpos m') * bpow e' - x) <= x * u.
Proof.
  intros k Hk He [Hx1 Hx2].
  destruct (binary_round_aux_normal s p e l Hk He)
    as (m' & e' & Hr & Hm' & He' & Hcases). fold k in Hcases.
  exists m', e'. split; [exact Hr|]. split; [cbn [normal]; lia|].
  pose proof (truncated_mantissa p Hk) as Ht. fold k in Ht.
  set (m1 := (Zpos p / 2 ^ k)%Z) in *.
  assert (H2k : (0 < 2 ^ k)%Z) by (apply Z.pow_pos_nonneg; lia).
  assert (Hdiv : (m1 * 2 ^ k <= Zpos p < (m1 + 1) * 2 ^ k)%Z).
  { unfold m1. pose proof (Z.mul_div_le (Zpos p) (2 ^ k) H2k).
    pose proof (Z.mul_succ_div_gt (Zpos p) (2 ^ k) H2k). lia. }
  set (U := bpow (e + k)).
  assert (HU : 0 < U) by apply bpow_pos.
  assert (HUe : U = IZR (2 ^ k) * bpow e).
  { unfold U. rewrite Z.add_comm, bpow_add, (bpow_IZR k) by lia. reflexivity. }
  pose proof (bpow_pos e) as Hbe.
  assert (HT1 : IZR m1 * U <= IZR (Zpos p) * bpow e).
  { rewrite HUe, <- Rmult_assoc, <- mult_IZR.
    apply Rmult_le_compat_r; [lra|]. apply IZR_le. lia. }
  assert (HT2 : (IZR (Zpos p) + 1) * bpow e <= (IZR m1 + 1) * U).
  { rewrite HUe, <- Rmult_assoc.
    apply Rmult_le_compat_r; [lra|].
    rewrite <- !plus_IZR, <- mult_IZR. apply IZR_le. lia. }
  assert (Hm1 : IZR (2 ^ 23) <= IZR m1) by (apply IZR_le; lia).
  assert (HxU : U <= x * u).
  { unfold u. apply Rle_trans with (IZR m1 * U * bpow (-23)).
    - rewrite (Rmult_comm (IZR m1)), Rmult_assoc.
      rewrite <- (Rmult_1_r U) at 1.
      apply Rmult_le_compat_l; [lra|].
      replace (bpow (-23)) with (/ bpow 23)
        by (symmetry; apply (bpow_opp 23)).
      rewrite (bpow_IZR 23) by lia.
      assert (0 < IZR (2 ^ 23)) by (apply IZR_lt; lia).
      apply Rmult_le_reg_r with (IZR (2 ^ 23)); [assumption|].
      rewrite Rmult_assoc, Rinv_l by lra. lra.
    - apply Rmult_le_compat_r; [apply Rlt_le, bpow_pos | lra]. }
  apply Rle_trans with U; [|exact HxU].
  destruct Hcases as [[-> [Hm | Hm]] | (-> & Hm & Hmax)].
  - rewrite Hm. fold U. apply Rabs_le. lra.
  - rewrite Hm, plus_IZR. fold U. apply Rabs_le. lra.
  - rewrite Hm. replace (e + k + 1)%Z with (1 + (e + k))%Z by lia.
    rewrite bpow_add. fold U.
    assert (E : IZR (2 ^ 23) * (bpow 1 * U) = (IZR m1 + 1) * U).
    { rewrite Hmax, <- plus_IZR, bpow_IZR by lia.
      rewrite <- Rmult_assoc, <- mult_IZR. reflexivity. }
    rewrite E. apply Rabs_le. lra.
Qed.

End Binary32Real.


(** ** binary32 arithmetic: the four operations on normal numbers *)

Section Binary32Ops.
Import Normalize Binary32.

Lemma digits2_pos_range (p : positive) (a b : Z) :
  0 <= a -> 2 ^ a <= Zpos p < 2 ^ b -> a < Zpos (digits2_pos p) <= b.
Proof.
  intros Ha [Hlo Hhi].
  pose proof (digits2_pos_lower p) as Hl.
  pose proof (digits2_pos_upper p) as Hu.
  set (n := Zpos (digits2_pos p)) in *.
  assert (Hn : 0 < n) by (unfold n; lia).
  assert (Hb : 0 <= b).
  { destruct (Z_lt_le_dec b 0) as [Hneg | Hnn]; [|lia].
    rewrite (Z.pow_neg_r 2 b Hneg) in Hhi. lia. }
  split.
  - apply (Z.pow_lt_mono_r_iff 2); lia.
  - assert (n - 1 < b); [|lia]. apply (Z.pow_lt_mono_r_iff 2); lia.
Qed.

Lemma pos_iter_xO (p d : positive) :
  Zpos (Pos.iter xO p d) = Zpos p * 2 ^ Zpos d.
Proof.
  induction d as [|d IH] using Pos.peano_ind.
  - cbn [Pos.iter]. rewrite (Pos2Z.inj_xO p). change (2 ^ 1) with 2. lia.
  - rewrite Pos.iter_succ, (Pos2Z.inj_xO (Pos.iter xO p d)), IH.
    rewrite Pos2Z.inj_succ, Z.pow_succ_r by lia. lia.
Qed.

(** Alignment of a mantissa to a smaller exponent. *)
Lemma shl_align_down (m : positive) (ex ez : Z) :
  ez <= ex ->
  Zpos (fst (shl_align m ex ez)) = Zpos m * 2 ^ (ex - ez) /\
  snd (shl_align m ex ez) = ez.
Proof.
  intros Hle. unfold shl_align.
  destruct (ez - ex) as [|d|d] eqn:Ed; cbn [fst snd]; try lia.
  - replace (ex - ez) with 0 by lia. rewrite Z.pow_0_r. lia.
  - rewrite pos_iter_xO. replace (ex - ez) with (Zpos d) by lia. lia.
Qed.

(** Alignment to an exponent that is not smaller changes nothing. *)
Lemma shl_align_up (m : positive) (ex ez : Z) :
  ex <= ez -> shl_align m ex ez = (m, ex).
Proof.
  intros Hle. unfold shl_align.
  destruct (ez - ex) as [|d|d] eqn:Ed; try reflexivity. lia.
Qed.

Local Open Scope R_scope.

Lemma SFmul_normal (x y : binary32) :
  normal x -> normal y ->
  (-172 <= exponent_of x + exponent_of y <= 79)%Z ->
  rounds_to (xorb (sign_of x) (sign_of y)) (Rabs (B2R x) * Rabs (B2R y))
    (SFmul prec32 emax32 x y).
Proof.
  destruct x as [| | |sx mx ex]; cbn [normal]; try tauto.
  destruct y as [| | |sy my ey]; cbn [normal]; try tauto.
  intros [Hmx Hex] [Hmy Hey] He. cbn [exponent_of sign_of] in *.
  cbn [SFmul]. rewrite !B2R_abs.
  assert (Hp : (2 ^ 46 <= Zpos (mx * my) < 2 ^ 48)%Z).
  { rewrite Pos2Z.inj_mul. change (2 ^ 46)%Z with (2 ^ 23 * 2 ^ 23)%Z.
    change (2 ^ 48)%Z with (2 ^ 24 * 2 ^ 24)%Z. nia. }
  pose proof (digits2_pos_range (mx * my) 46 48 ltac:(lia) Hp) as Hd.
  destruct (binary_round_aux_real (xorb sx sy) (mx * my) (ex + ey) loc_Exact
              (IZR (Zpos mx) * bpow ex * (IZR (Zpos my) * bpow ey)))
    as (m' & e' & Hr & Hn & Herr); try lia.
  { rewrite Pos2Z.inj_mul, mult_IZR, bpow_add.
    pose proof (bpow_pos ex). pose proof (bpow_pos ey).
    split; [lra|]. nra. }
  rewrite Hr. split; [exact Hn|]. split; [reflexivity|].
  now rewrite B2R_abs.
Qed.

Lemma SFadd_positive (x y : binary32) :
  normal x -> normal y -> sign_of x = false -> sign_of y = false ->
  (exponent_of x <= 102)%Z -> (exponent_of y <= 102)%Z ->
  rounds_to false (B2R x + B2R y) (SFadd prec32 emax32 x y).
Proof.
  destruct x as [| | |sx mx ex]; cbn [normal]; try tauto.
  destruct y as [| | |sy my ey]; cbn [normal]; try tauto.
  intros [Hmx Hex] [Hmy Hey] Hsx Hsy Hx102 Hy102.
  cbn [exponent_of sign_of] in *. subst sx sy.
  cbn [SFadd cond_Zopp B2R].
  set (ez := Z.min ex ey).
  destruct (shl_align_down mx ex ez ltac:(unfold ez; lia)) as [Ha _].
  destruct (shl_align_down my ey ez ltac:(unfold ez; lia)) as [Hb _].
  set (a := fst (shl_align mx ex ez)) in *.
  set (b := fst (shl_align my ey ez)) in *.
  change (Zpos a + Zpos b)%Z with (Zpos (a + b)).
  cbn [binary_normalize]. unfold binary_round.
  assert (H2x : (1 <= 2 ^ (ex - ez))%Z)
    by (apply (Z.pow_le_mono_r 2 0); unfold ez; lia).
  assert (H2y : (1 <= 2 ^ (ey - ez))%Z)
    by (apply (Z.pow_le_mono_r 2 0); unfold ez; lia).
  set (E := Z.max ex ey).
  assert (Hax : (Zpos a < 2 ^ (24 + (E - ez)))%Z).
  { rewrite Ha, Z.pow_add_r by (unfold E, ez; lia).
    assert (2 ^ (ex - ez) <= 2 ^ (E - ez))%Z
      by (apply Z.pow_le_mono_r; unfold E, ez; lia).
    nia. }
  assert (Hby : (Zpos b < 2 ^ (24 + (E - ez)))%Z).
  { rewrite Hb, Z.pow_add_r by (unfold E, ez; lia).
    assert (2 ^ (ey - ez) <= 2 ^ (E - ez))%Z
      by (apply Z.pow_le_mono_r; unfold E, ez; lia).
    nia. }
  assert (Hsum : (2 ^ 23 <= Zpos (a + b) < 2 ^ (25 + (E - ez)))%Z).
  { rewrite Pos2Z.inj_add.
    replace (25 + (E - ez))%Z with (Z.succ (24 + (E - ez))) by lia.
    rewrite Z.pow_succ_r by (unfold E, ez; lia). nia. }
  pose proof (digits2_pos_range (a + b) 23 _ ltac:(lia) Hsum) as Hd.
  set (dM := Zpos (digits2_pos (a + b))) in *.
  rewrite shl_align_up
    by (unfold fexp, emin, prec32, emax32; fold dM; unfold ez; lia).
  destruct (binary_round_aux_real false (a + b) ez loc_Exact
              (IZR (Zpos mx) * bpow ex + IZR (Zpos my) * bpow ey))
    as (m' & e' & Hr & Hn & Herr); fold dM; try (unfold E, ez in *; lia).
  { rewrite Pos2Z.inj_add, plus_IZR, Ha, Hb, !mult_IZR.
    rewrite <- !(bpow_IZR (_ - ez)) by (unfold ez; lia).
    rewrite !Rmult_plus_distr_r, !Rmult_assoc, <- !bpow_add.
    replace (ex - ez + ez)%Z with ex by lia.
    replace (ey - ez + ez)%Z with ey by lia.
    pose proof (bpow_pos ez). split; [lra|]. lra. }
  rewrite Hr. split; [exact Hn|]. split; [reflexivity|].
  rewrite B2R_abs. exact Herr.
Qed.

End Binary32Ops.


Section Binary32Ops2.
Import Normalize Binary32.
Local Open Scope R_scope.

Lemma SFdiv_normal (x y : binary32) :
  normal x -> normal y ->
  (-125 <= exponent_of x - exponent_of y <= 126)%Z ->
  rounds_to (xorb (sign_of x) (sign_of y)) (Rabs (B2R x) / Rabs (B2R y))
    (SFdiv prec32 emax32 x y).
Proof.
  destruct x as [| | |sx mx ex]; cbn [normal]; try tauto.
  destruct y as [| | |sy my ey]; cbn [normal]; try tauto.
  intros [Hmx Hex] [Hmy Hey] He. cbn [exponent_of sign_of] in *.
  cbn [SFdiv]. rewrite !B2R_abs.
  unfold SFdiv_core_binary. cbn [Zdigits2].
  rewrite (digits2_pos_bounds mx 24), (digits2_pos_bounds my 24) by lia.
  replace (Z.min (fexp prec32 emax32 (24 + ex - (24 + ey))) (ex - ey))
    with (ex - ey - 24)%Z
    by (unfold fexp, emin, prec32, emax32; lia).
  replace (ex - ey - (ex - ey - 24))%Z with 24%Z by lia.
  rewrite Z.shiftl_mul_pow2 by lia.
  set (m' := (Zpos mx * 2 ^ 24)%Z).
  pose proof (Z_div_mod m' (Zpos my) ltac:(lia)) as Hdm.
  destruct (Z.div_eucl m' (Zpos my)) as [q r]. destruct Hdm as [Hq Hr].
  assert (Hqr : (2 ^ 23 <= q < 2 ^ 25)%Z).
  { change (2 ^ 24)%Z with 16777216%Z in *.
    change (2 ^ 23)%Z with 8388608%Z in *.
    change (2 ^ 25)%Z with 33554432%Z. unfold m' in Hq. split; nia. }
  destruct q as [|q|q]; try lia.
  pose proof (digits2_pos_range q 23 25 ltac:(lia) Hqr) as Hd.
  destruct (binary_round_aux_real (xorb sx sy) q (ex - ey - 24)
              (new_location (Zpos my) r)
              (IZR (Zpos mx) * bpow ex / (IZR (Zpos my) * bpow ey)))
    as (m2 & e2 & Hres & Hn & Herr); try lia.
  { pose proof (bpow_pos ex) as Hbx. pose proof (bpow_pos ey) as Hby.
    assert (Hmy0 : 0 < IZR (Zpos my)) by (apply IZR_lt; lia).
    assert (E : IZR (Zpos mx) * bpow ex / (IZR (Zpos my) * bpow ey)
                = IZR m' / IZR (Zpos my) * bpow (ex - ey - 24)).
    { unfold m'. rewrite mult_IZR.
      replace (ex - ey - 24)%Z with (ex + (- ey + - (24)))%Z by lia.
      rewrite !bpow_add, !bpow_opp, (bpow_IZR 24) by lia.
      field. repeat split; first [lra | apply not_0_IZR; lia]. }
    rewrite E. pose proof (bpow_pos (ex - ey - 24)) as Hb.
    assert (Hlo : IZR (Zpos q) <= IZR m' / IZR (Zpos my)).
    { apply Rmult_le_reg_r with (IZR (Zpos my)); [lra|].
      unfold Rdiv. rewrite Rmult_assoc, Rinv_l, Rmult_1_r by lra.
      rewrite <- mult_IZR. apply IZR_le. lia. }
    assert (Hhi : IZR m' / IZR (Zpos my) < IZR (Zpos q) + 1).
    { apply Rmult_lt_reg_r with (IZR (Zpos my)); [lra|].
      unfold Rdiv. rewrite Rmult_assoc, Rinv_l, Rmult_1_r by lra.
      rewrite <- plus_IZR, <- mult_IZR. apply IZR_lt. lia. }
    split.
    - apply Rmult_le_compat_r; lra.
    - apply Rmult_lt_compat_r; lra. }
  rewrite Hres. split; [exact Hn|]. split; [reflexivity|].
  now rewrite B2R_abs.
Qed.

End Binary32Ops2.


Section Binary32Ops3.
Import Normalize Binary32.
Local Open Scope R_scope.

Lemma sqrt_bpow_double (e : Z) : sqrt (bpow (2 * e)) = bpow e.
Proof.
  replace (2 * e)%Z with (e + e)%Z by lia. rewrite bpow_add.
  apply sqrt_square. apply Rlt_le, bpow_pos.
Qed.

Lemma SFsqrt_normal (x : binary32) :
  normal x -> sign_of x = false ->
  rounds_to false (sqrt (B2R x)) (SFsqrt prec32 emax32 x).
Proof.
  destruct x as [| | |sx mx ex]; cbn [normal]; try tauto.
  intros [Hmx Hex] Hs. cbn [sign_of] in Hs. subst sx.
  cbn [SFsqrt B2R]. unfold SFsqrt_core_binary. cbn [Zdigits2].
  rewrite (digits2_pos_bounds mx 24) by lia.
  rewrite !Z.div2_div.
  set (e' := ((ex - 23) / 2)%Z).
  replace (Z.min (fexp prec32 emax32 ((24 + ex + 1) / 2)) (ex / 2)) with e'
    by (unfold fexp, emin, prec32, emax32, e'; Z.div_mod_to_equations; lia).
  assert (Hs : (ex - 2 * e' = 23 \/ ex - 2 * e' = 24)%Z)
    by (unfold e'; Z.div_mod_to_equations; lia).
  assert (Hm' : exists s : positive,
             (ex - 2 * e')%Z = Zpos s /\ (Zpos s = 23 \/ Zpos s = 24)%Z).
  { destruct Hs as [-> | ->]; eexists; split; try reflexivity; lia. }
  destruct Hm' as (s & Es & Hs'). rewrite Es.
  rewrite Z.shiftl_mul_pow2 by lia.
  set (m' := (Zpos mx * 2 ^ Zpos s)%Z).
  assert (Hm'r : (2 ^ 46 <= m' < 2 ^ 48)%Z).
  { unfold m'. destruct Hs' as [-> | ->].
    - change (2 ^ 46)%Z with (2 ^ 23 * 2 ^ 23)%Z.
      change (2 ^ 48)%Z with (2 ^ 25 * 2 ^ 23)%Z. lia.
    - change (2 ^ 46)%Z with (2 ^ 22 * 2 ^ 24)%Z.
      change (2 ^ 48)%Z with (2 ^ 24 * 2 ^ 24)%Z. lia. }
  pose proof (Z.sqrtrem_spec m' ltac:(lia)) as Hsq.
  destruct (Z.sqrtrem m') as [q r]. destruct Hsq as [Hq Hr].
  assert (Hqr : (2 ^ 23 <= q < 2 ^ 24)%Z).
  { change (2 ^ 46)%Z with (8388608 * 8388608)%Z in Hm'r.
    change (2 ^ 48)%Z with (16777216 * 16777216)%Z in Hm'r.
    change (2 ^ 23)%Z with 8388608%Z. change (2 ^ 24)%Z with 16777216%Z.
    split; nia. }
  destruct q as [|q|q]; try lia.
  pose proof (digits2_pos_bounds q 24 ltac:(lia) Hqr) as Hd.
  destruct (binary_round_aux_real false q e'
              (if (r =? 0)%Z then loc_Exact
               else loc_Inexact (if (r <=? Zpos q)%Z then Lt else Gt))
              (sqrt (IZR (Zpos mx) * bpow ex)))
    as (m2 & e2 & Hres & Hn & Herr); rewrite ?Hd;
    try (unfold e'; Z.div_mod_to_equations; lia).
  { assert (E : IZR (Zpos mx) * bpow ex = IZR m' * bpow (2 * e')).
    { unfold m'. rewrite mult_IZR, <- (bpow_IZR (Zpos s)) by lia.
      rewrite Rmult_assoc, <- bpow_add. f_equal. f_equal.
      lia. }
    rewrite E, sqrt_mult
      by (try (apply IZR_le; lia); apply Rlt_le, bpow_pos).
    rewrite sqrt_bpow_double. pose proof (bpow_pos e') as Hb.
    assert (Hq0 : 0 <= IZR (Zpos q)) by (apply IZR_le; lia).
    assert (Hlo : IZR (Zpos q) <= sqrt (IZR m')).
    { rewrite <- (sqrt_square (IZR (Zpos q))) at 1 by exact Hq0.
      apply sqrt_le_1_alt. rewrite <- mult_IZR. apply IZR_le. lia. }
    assert (Hhi : sqrt (IZR m') < IZR (Zpos q) + 1).
    { rewrite <- (sqrt_square (IZR (Zpos q) + 1)) by lra.
      apply sqrt_lt_1_alt. split; [apply IZR_le; lia|].
      rewrite <- plus_IZR, <- mult_IZR. apply IZR_lt. lia. }
    split.
    - apply Rmult_le_compat_r; lra.
    - apply Rmult_lt_compat_r; lra. }
  rewrite Hres. split; [exact Hn|]. split; [reflexivity|].
  rewrite B2R_abs. exact Herr.
Qed.

(** The conversion of a sample count to binary32. *)
Lemma b32_of_Z_rounds (n : Z) :
  (1 <= n < 2 ^ 32)%Z -> rounds_to false (IZR n) (b32_of_Z n).
Proof.
  intros Hn. destruct n as [|p|p]; try lia.
  unfold b32_of_Z. cbn [binary_normalize]. unfold binary_round.
  pose proof (digits2_pos_range p 0 32 ltac:(lia) ltac:(lia)) as Hd.
  set (d := Zpos (digits2_pos p)) in *.
  replace (fexp prec32 emax32 (d + 0)) with (d - 24)%Z
    by (unfold fexp, emin, prec32, emax32; lia).
  destruct (Z_lt_le_dec d 24) as [Hsmall | Hbig].
  - destruct (shl_align_down p 0 (d - 24) ltac:(lia)) as [Hm He].
    destruct (shl_align p 0 (d - 24)) as [mz ez]. cbn [fst snd] in Hm, He.
    subst ez. replace (0 - (d - 24))%Z with (24 - d)%Z in Hm by lia.
    pose proof (digits2_pos_lower p) as Hl.
    pose proof (digits2_pos_upper p) as Hu. fold d in Hl, Hu.
    assert (Hmz : (2 ^ 23 <= Zpos mz < 2 ^ 24)%Z).
    { assert (H23 : (2 ^ 23 = 2 ^ (d - 1) * 2 ^ (24 - d))%Z)
        by (rewrite <- Z.pow_add_r by lia; f_equal; lia).
      assert (H24 : (2 ^ 24 = 2 ^ d * 2 ^ (24 - d))%Z)
        by (rewrite <- Z.pow_add_r by lia; f_equal; lia).
      assert (HP : (0 < 2 ^ (24 - d))%Z) by (apply Z.pow_pos_nonneg; lia).
      rewrite Hm, H23, H24. split.
      - apply Z.mul_le_mono_nonneg_r; lia.
      - apply Z.mul_lt_mono_pos_r; lia. }
    pose proof (digits2_pos_bounds mz 24 ltac:(lia) Hmz) as Hdz.
    destruct (binary_round_aux_real false mz (d - 24) loc_Exact (IZR (Zpos p)))
      as (m2 & e2 & Hres & Hnorm & Herr); rewrite ?Hdz; try lia.
    { assert (E : IZR (Zpos mz) * bpow (d - 24) = IZR (Zpos p)).
      { rewrite Hm, mult_IZR, <- (bpow_IZR (24 - d)) by lia.
        rewrite Rmult_assoc, <- bpow_add.
        replace (24 - d + (d - 24))%Z with 0%Z by lia.
        rewrite bpow_0. ring. }
      pose proof (bpow_pos (d - 24)) as HB.
      rewrite Rmult_plus_distr_r, E. split; lra. }
    rewrite Hres. split; [exact Hnorm|]. split; [reflexivity|].
    rewrite B2R_abs. exact Herr.
  - rewrite shl_align_up by lia.
    destruct (binary_round_aux_real false p 0 loc_Exact (IZR (Zpos p)))
      as (m2 & e2 & Hres & Hnorm & Herr); fold d; try lia.
    { rewrite bpow_0. split; lra. }
    rewrite Hres. split; [exact Hnorm|]. split; [reflexivity|].
    rewrite B2R_abs. exact Herr.
Qed.

End Binary32Ops3.


Section Binary32Ops4.
Import Normalize Binary32.
Local Open Scope R_scope.

(** Rounding of an integer mantissa of any width. *)
Lemma binary_round_rounds (s : bool) (p : positive) (e : Z) :
  (-149 <= e + Zpos (digits2_pos p) - 24 <= 103)%Z ->
  rounds_to s (IZR (Zpos p) * bpow e) (binary_round prec32 emax32 s p e).
Proof.
  intros He. unfold binary_round.
  set (d := Zpos (digits2_pos p)) in *.
  assert (Hd : (0 < d)%Z) by (unfold d; lia).
  replace (fexp prec32 emax32 (d + e)) with (e + d - 24)%Z
    by (unfold fexp, emin, prec32, emax32; lia).
  pose proof (bpow_pos e) as Hbe.
  assert (Hp0 : 0 < IZR (Zpos p)) by (apply IZR_lt; lia).
  destruct (Z_lt_le_dec d 24) as [Hsmall | Hbig].
  - destruct (shl_align_down p e (e + d - 24) ltac:(lia)) as [Hm Hez].
    destruct (shl_align p e (e + d - 24)) as [mz ez]. cbn [fst snd] in Hm, Hez.
    subst ez. replace (e - (e + d - 24))%Z with (24 - d)%Z in Hm by lia.
    pose proof (digits2_pos_lower p) as Hl.
    pose proof (digits2_pos_upper p) as Hu. fold d in Hl, Hu.
    assert (Hmz : (2 ^ 23 <= Zpos mz < 2 ^ 24)%Z).
    { assert (H23 : (2 ^ 23 = 2 ^ (d - 1) * 2 ^ (24 - d))%Z)
        by (rewrite <- Z.pow_add_r by lia; f_equal; lia).
      assert (H24 : (2 ^ 24 = 2 ^ d * 2 ^ (24 - d))%Z)
        by (rewrite <- Z.pow_add_r by lia; f_equal; lia).
      assert (HP : (0 < 2 ^ (24 - d))%Z) by (apply Z.pow_pos_nonneg; lia).
      rewrite Hm, H23, H24. split.
      - apply Z.mul_le_mono_nonneg_r; lia.
      - apply Z.mul_lt_mono_pos_r; lia. }
    pose proof (digits2_pos_bounds mz 24 ltac:(lia) Hmz) as Hdz.
    destruct (binary_round_aux_real s mz (e + d - 24) loc_Exact
                (IZR (Zpos p) * bpow e))
      as (m2 & e2 & Hres & Hnorm & Herr); rewrite ?Hdz; try lia.
    { assert (E : IZR (Zpos mz) * bpow (e + d - 24) = IZR (Zpos p) * bpow e).
      { rewrite Hm, mult_IZR, <- (bpow_IZR (24 - d)) by lia.
        rewrite Rmult_assoc, <- bpow_add. f_equal. f_equal. lia. }
      pose proof (bpow_pos (e + d - 24)) as HB.
      rewrite Rmult_plus_distr_r, E. split; lra. }
    rewrite Hres. split; [exact Hnorm|]. split; [reflexivity|].
    rewrite B2R_abs. exact Herr.
  - rewrite shl_align_up by lia.
    destruct (binary_round_aux_real s p e loc_Exact (IZR (Zpos p) * bpow e))
      as (m2 & e2 & Hres & Hnorm & Herr); fold d; try lia.
    { split; nra. }
    rewrite Hres. split; [exact Hnorm|]. split; [reflexivity|].
    rewrite B2R_abs. exact Herr.
Qed.

(** The difference of two positive normal numbers: zero when they are
    equal, else a normal number within one unit in the last place of the
    exact difference, with its sign. *)
Lemma SFsub_positive (x y : binary32) :
  normal x -> normal y -> sign_of x = false -> sign_of y = false ->
  (-126 <= exponent_of x <= 103)%Z -> (-126 <= exponent_of y <= 103)%Z ->
  (B2R x = B2R y /\ SFsub prec32 emax32 x y = S754_zero false) \/
  (B2R x <> B2R y /\
   rounds_to (if Rlt_dec (B2R x) (B2R y) then true else false)
     (Rabs (B2R x - B2R y)) (SFsub prec32 emax32 x y)).
Proof.
  destruct x as [| | |sx mx ex]; cbn [normal]; try tauto.
  destruct y as [| | |sy my ey]; cbn [normal]; try tauto.
  intros [Hmx Hex] [Hmy Hey] Hsx Hsy Hx Hy.
  cbn [exponent_of sign_of] in *. subst sx sy.
  cbn [SFsub cond_Zopp B2R].
  set (ez := Z.min ex ey).
  destruct (shl_align_down mx ex ez ltac:(unfold ez; lia)) as [Ha _].
  destruct (shl_align_down my ey ez ltac:(unfold ez; lia)) as [Hb _].
  set (a := fst (shl_align mx ex ez)) in *.
  set (b := fst (shl_align my ey ez)) in *.
  assert (HX : IZR (Zpos mx) * bpow ex = IZR (Zpos a) * bpow ez).
  { rewrite Ha, mult_IZR, <- (bpow_IZR (ex - ez)) by (unfold ez; lia).
    rewrite Rmult_assoc, <- bpow_add. f_equal. f_equal. lia. }
  assert (HY : IZR (Zpos my) * bpow ey = IZR (Zpos b) * bpow ez).
  { rewrite Hb, mult_IZR, <- (bpow_IZR (ey - ez)) by (unfold ez; lia).
    rewrite Rmult_assoc, <- bpow_add. f_equal. f_equal. lia. }
  rewrite HX, HY. pose proof (bpow_pos ez) as Hbz.
  set (E := Z.max ex ey).
  assert (H2x : (2 ^ (ex - ez) <= 2 ^ (E - ez))%Z)
    by (apply Z.pow_le_mono_r; unfold E, ez; lia).
  assert (H2y : (2 ^ (ey - ez) <= 2 ^ (E - ez))%Z)
    by (apply Z.pow_le_mono_r; unfold E, ez; lia).
  assert (HP : (0 < 2 ^ (E - ez))%Z)
    by (apply Z.pow_pos_nonneg; unfold E, ez; lia).
  assert (Hax : (Zpos a < 2 ^ (24 + (E - ez)))%Z)
    by (rewrite Ha, Z.pow_add_r by (unfold E, ez; lia); nia).
  assert (Hby : (Zpos b < 2 ^ (24 + (E - ez)))%Z)
    by (rewrite Hb, Z.pow_add_r by (unfold E, ez; lia); nia).
  assert (Hdig : forall p : positive,
             (Zpos p < 2 ^ (24 + (E - ez)))%Z ->
             (-149 <= ez + Zpos (digits2_pos p) - 24 <= 103)%Z).
  { intros p Hp.
    pose proof (digits2_pos_range p 0 (24 + (E - ez)) ltac:(lia)
                  ltac:(split; [lia | exact Hp])).
    unfold E, ez in *. lia. }
  destruct (Zpos a - Zpos b)%Z as [|p|p] eqn:EM; cbn [binary_normalize].
  - left. split; [|reflexivity]. f_equal. f_equal. lia.
  - right.
    assert (Hd : IZR (Zpos a) * bpow ez - IZR (Zpos b) * bpow ez
                 = IZR (Zpos p) * bpow ez).
    { rewrite <- Rmult_minus_distr_r, <- minus_IZR, EM. reflexivity. }
    assert (Hp0 : 0 < IZR (Zpos p)) by (apply IZR_lt; lia).
    split; [nra|].
    destruct (Rlt_dec (IZR (Zpos a) * bpow ez) (IZR (Zpos b) * bpow ez));
      [nra|].
    rewrite Hd, Rabs_right by nra.
    apply binary_round_rounds. apply Hdig. lia.
  - right.
    assert (Hd : IZR (Zpos b) * bpow ez - IZR (Zpos a) * bpow ez
                 = IZR (Zpos p) * bpow ez).
    { rewrite <- Rmult_minus_distr_r, <- minus_IZR.
      replace (Zpos b - Zpos a)%Z with (Zpos p) by lia. reflexivity. }
    assert (Hp0 : 0 < IZR (Zpos p)) by (apply IZR_lt; lia).
    split; [nra|].
    destruct (Rlt_dec (IZR (Zpos a) * bpow ez) (IZR (Zpos b) * bpow ez));
      [|nra].
    rewrite Rabs_left by nra.
    replace (- (IZR (Zpos a) * bpow ez - IZR (Zpos b) * bpow ez))
      with (IZR (Zpos p) * bpow ez) by lra.
    apply binary_round_rounds. apply Hdig. lia.
Qed.

(** Comparison of two positive normal numbers. *)
Lemma SFleb_positive (x y : binary32) :
  normal x -> normal y -> sign_of x = false -> sign_of y = false ->
  B2R x <= B2R y -> SFleb x y = true.
Proof.
  destruct x as [| | |sx mx ex]; cbn [normal]; try tauto.
  destruct y as [| | |sy my ey]; cbn [normal]; try tauto.
  intros [Hmx Hex] [Hmy Hey] Hsx Hsy. cbn [sign_of] in *. subst sx sy.
  cbn [B2R]. intros Hle. unfold SFleb, SFcompare.
  destruct (normal_mantissa_bounds mx ex Hmx) as [Hx1 Hx2].
  destruct (normal_mantissa_bounds my ey Hmy) as [Hy1 Hy2].
  destruct (Z.compare_spec ex ey) as [Heq | Hlt | Hgt]; [|reflexivity|].
  - subst ey. pose proof (bpow_pos ex) as Hb.
    assert (Hm : (Zpos mx <= Zpos my)%Z).
    { apply le_IZR. nra. }
    rewrite Pos.compare_cont_spec. cbn [Pos.switch_Eq].
    destruct (Pos.compare_spec mx my); try reflexivity. lia.
  - exfalso. pose proof (bpow_le (ey + 24) (ex + 23) ltac:(lia)). lra.
Qed.

Lemma SFabs_normal (r : binary32) :
  normal r ->
  normal (SFabs r) /\ sign_of (SFabs r) = false /\
  B2R (SFabs r) = Rabs (B2R r).
Proof.
  destruct r as [| | |s m e]; cbn [normal]; try tauto.
  intros Hn. cbn [SFabs]. split; [exact Hn|]. split; [reflexivity|].
  rewrite B2R_abs. reflexivity.
Qed.

End Binary32Ops4.


(** ** Accumulated rounding errors *)

Section CloseFacts.
Import Binary32.
Local Open Scope R_scope.

Lemma bpow_m22 : bpow (-22) = / 4194304.
Proof.
  replace (bpow (-22)) with (/ bpow 22) by (symmetry; apply (bpow_opp 22)).
  rewrite (bpow_IZR 22) by lia. reflexivity.
Qed.

Lemma u_value : u = / 8388608.
Proof.
  unfold u.
  replace (bpow (-23)) with (/ bpow 23) by (symmetry; apply (bpow_opp 23)).
  rewrite (bpow_IZR 23) by lia. reflexivity.
Qed.

Lemma w_value : w = 1 + / 4194304.
Proof. unfold w. now rewrite bpow_m22. Qed.

Lemma w_gt_1 : 1 < w.
Proof. rewrite w_value. lra. Qed.

Lemma pow_w_ge_1 (k : nat) : 1 <= w ^ k.
Proof. apply pow_R1_Rle. pose proof w_gt_1. lra. Qed.

Lemma pow_w_mono (a b : nat) : (a <= b)%nat -> w ^ a <= w ^ b.
Proof. intros Hab. apply Rle_pow; [pose proof w_gt_1; lra | exact Hab]. Qed.

Lemma close_refl (x : R) : close 0 x x.
Proof. unfold close. cbn. lra. Qed.

Lemma close_sym (k : nat) (r x : R) : close k r x -> close k x r.
Proof. unfold close. tauto. Qed.

Lemma close_mono (a b : nat) (r x : R) :
  0 <= r -> 0 <= x -> (a <= b)%nat -> close a r x -> close b r x.
Proof.
  unfold close. intros Hr Hx Hab [H1 H2]. pose proof (pow_w_mono a b Hab).
  pose proof (pow_w_ge_1 a). split.
  - apply Rle_trans with (r * w ^ a); [exact H1|].
    apply Rmult_le_compat_l; assumption.
  - apply Rle_trans with (x * w ^ a); [exact H2|].
    apply Rmult_le_compat_l; assumption.
Qed.

Lemma close_add (k : nat) (r1 r2 x1 x2 : R) :
  close k r1 x1 -> close k r2 x2 -> close k (r1 + r2) (x1 + x2).
Proof. unfold close. intros [H1 H2] [H3 H4]. split; lra. Qed.

Lemma close_mul (a b : nat) (r1 r2 x1 x2 : R) :
  0 <= r1 -> 0 <= r2 -> 0 <= x1 -> 0 <= x2 ->
  close a r1 x1 -> close b r2 x2 -> close (a + b) (r1 * r2) (x1 * x2).
Proof.
  unfold close. intros Hr1 Hr2 Hx1 Hx2 [H1 H2] [H3 H4].
  rewrite pow_add. pose proof (pow_w_ge_1 a). pose proof (pow_w_ge_1 b).
  split.
  - replace (r1 * r2 * (w ^ a * w ^ b)) with ((r1 * w ^ a) * (r2 * w ^ b))
      by ring.
    apply Rmult_le_compat; assumption.
  - replace (x1 * x2 * (w ^ a * w ^ b)) with ((x1 * w ^ a) * (x2 * w ^ b))
      by ring.
    apply Rmult_le_compat; assumption.
Qed.

Lemma close_inv (k : nat) (r x : R) :
  0 < r -> 0 < x -> close k r x -> close k (/ r) (/ x).
Proof.
  unfold close. intros Hr Hx [H1 H2]. pose proof (pow_w_ge_1 k) as Hw.
  split.
  - apply Rmult_le_reg_r with (x * r); [nra|].
    replace (/ x * (x * r)) with r by (field; lra).
    replace (/ r * w ^ k * (x * r)) with (x * w ^ k) by (field; lra).
    exact H2.
  - apply Rmult_le_reg_r with (x * r); [nra|].
    replace (/ r * (x * r)) with x by (field; lra).
    replace (/ x * w ^ k * (x * r)) with (r * w ^ k) by (field; lra).
    exact H1.
Qed.

Lemma close_div (a b : nat) (r1 r2 x1 x2 : R) :
  0 <= r1 -> 0 < r2 -> 0 <= x1 -> 0 < x2 ->
  close a r1 x1 -> close b r2 x2 -> close (a + b) (r1 / r2) (x1 / x2).
Proof.
  intros Hr1 Hr2 Hx1 Hx2 H1 H2. unfold Rdiv.
  apply close_mul; try assumption.
  - apply Rlt_le, Rinv_0_lt_compat, Hr2.
  - apply Rlt_le, Rinv_0_lt_compat, Hx2.
  - now apply close_inv.
Qed.

Lemma close_trans (a b : nat) (r y x : R) :
  0 <= r -> 0 <= y -> 0 <= x ->
  close a r y -> close b y x -> close (a + b) r x.
Proof.
  unfold close. intros Hr Hy Hx [H1 H2] [H3 H4]. rewrite pow_add.
  pose proof (pow_w_ge_1 a). pose proof (pow_w_ge_1 b). split.
  - apply Rle_trans with (y * w ^ b); [exact H3|].
    replace (r * (w ^ a * w ^ b)) with (r * w ^ a * w ^ b) by ring.
    apply Rmult_le_compat_r; lra.
  - apply Rle_trans with (y * w ^ a); [exact H2|].
    replace (x * (w ^ a * w ^ b)) with (x * w ^ b * w ^ a) by ring.
    apply Rmult_le_compat_r; lra.
Qed.

Lemma sqrt_pow_double (k : nat) : sqrt (w ^ (2 * k)) = w ^ k.
Proof.
  replace (2 * k)%nat with (k + k)%nat by lia. rewrite pow_add.
  apply sqrt_square. pose proof (pow_w_ge_1 k). lra.
Qed.

Lemma close_sqrt_half (k : nat) (r x : R) :
  0 <= r -> 0 <= x -> close (2 * k) r x -> close k (sqrt r) (sqrt x).
Proof.
  unfold close. intros Hr Hx [H1 H2]. pose proof (pow_w_ge_1 (2 * k)) as Hw.
  rewrite <- (sqrt_pow_double k), <- !sqrt_mult by lra.
  split; apply sqrt_le_1_alt; assumption.
Qed.

Lemma close_sqrt (k : nat) (r x : R) :
  0 <= r -> 0 <= x -> close k r x -> close k (sqrt r) (sqrt x).
Proof.
  intros Hr Hx H. apply close_sqrt_half; try assumption.
  apply close_mono with k; try assumption. lia.
Qed.

Lemma Rabs_le_between (x a : R) : Rabs x <= a -> - a <= x <= a.
Proof. unfold Rabs. destruct (Rcase_abs x); lra. Qed.

(** One rounding is one factor. *)
Lemma close_round (r x : R) :
  0 < x -> Rabs (r - x) <= x * u -> close 1 r x.
Proof.
  intros Hx Herr. apply Rabs_le_between in Herr. rewrite u_value in Herr.
  unfold close. rewrite pow_1, w_value. split; nra.
Qed.

(** A bound on the accumulated factor. *)
Lemma pow_w_bound (k : nat) :
  INR k <= 2097152 -> w ^ k <= 1 + 2 * INR k * / 4194304.
Proof.
  rewrite w_value. induction k as [|k IH]; intros Hk.
  - cbn. lra.
  - rewrite S_INR in *. specialize (IH ltac:(lra)).
    pose proof (pos_INR k) as Hk0. cbn [pow].
    set (v := / 4194304) in *.
    assert (Hv : v = / 4194304) by reflexivity.
    assert (Hp : 0 < (1 + v) ^ k) by (apply pow_lt; lra).
    nra.
Qed.

End CloseFacts.


(** ** Burst normalisation in binary32: the accumulated power *)

Section PowerFacts.
Import Normalize Binary32 Moderate.
Local Open Scope R_scope.

Lemma normal_exponent_le (x : binary32) (hi : Z) :
  normal x -> Rabs (B2R x) < bpow hi -> (exponent_of x <= hi - 24)%Z.
Proof.
  destruct x as [| | |s m e]; cbn [normal exponent_of]; try tauto.
  intros [Hm He] Hhi. rewrite B2R_abs in Hhi.
  destruct (normal_mantissa_bounds m e Hm) as [H1 H2].
  assert (e + 23 < hi)%Z by (apply bpow_lt_inv; lra). lia.
Qed.

Lemma normal_exponent_ge (x : binary32) (lo : Z) :
  normal x -> bpow lo <= Rabs (B2R x) -> (lo - 23 <= exponent_of x)%Z.
Proof.
  destruct x as [| | |s m e]; cbn [normal exponent_of]; try tauto.
  intros [Hm He] Hlo. rewrite B2R_abs in Hlo.
  destruct (normal_mantissa_bounds m e Hm) as [H1 H2].
  assert (lo < e + 24)%Z by (apply bpow_lt_inv; lra). lia.
Qed.

Lemma positive_B2R (x : binary32) :
  normal x -> sign_of x = false -> 0 < B2R x /\ Rabs (B2R x) = B2R x.
Proof.
  destruct x as [| | |s m e]; cbn [normal sign_of]; try tauto.
  intros [Hm He] ->. cbn [B2R]. pose proof (bpow_pos e).
  assert (0 < IZR (Zpos m)) by (apply IZR_lt; lia).
  split; [nra|]. apply Rabs_right. nra.
Qed.

(** A rounded result, as a tracked value. *)
Lemma rounds_to_close (x : R) (r : binary32) :
  0 < x -> rounds_to false x r ->
  normal r /\ sign_of r = false /\ close 1 (B2R r) x.
Proof.
  intros Hx (Hn & Hs & Herr). split; [exact Hn|]. split; [exact Hs|].
  destruct (positive_B2R r Hn Hs) as [_ Habs]. rewrite Habs in Herr.
  now apply close_round.
Qed.

Lemma in_range_cases (elo ehi : Z) (c : binary32) :
  (-149 <= elo)%Z -> (ehi <= 104)%Z ->
  in_range elo ehi c = true ->
  (exists s, c = S754_zero s) \/
  (normal c /\ (elo <= exponent_of c <= ehi)%Z /\
   bpow (elo + 23) <= Rabs (B2R c) < bpow (ehi + 24)).
Proof.
  intros Helo Hehi.
  destruct c as [s| | |s m e]; cbn [in_range]; try discriminate.
  - intros _. left. now exists s.
  - intros H. apply andb_true_iff in H. destruct H as [H He2].
    apply andb_true_iff in H. destruct H as [H He1].
    apply andb_true_iff in H. destruct H as [Hm1 Hm2].
    apply Z.leb_le in Hm1, He1, He2. apply Z.ltb_lt in Hm2.
    right. split; [cbn [normal]; lia|]. split; [cbn [exponent_of]; lia|].
    rewrite B2R_abs.
    destruct (normal_mantissa_bounds m e (conj Hm1 Hm2)) as [H1 H2].
    pose proof (bpow_le (elo + 23) (e + 23) ltac:(lia)).
    pose proof (bpow_le (e + 24) (ehi + 24) ltac:(lia)). lra.
Qed.

Lemma in_range_weaken (elo ehi elo' ehi' : Z) (c : binary32) :
  (elo' <= elo)%Z -> (ehi <= ehi')%Z ->
  in_range elo ehi c = true -> in_range elo' ehi' c = true.
Proof.
  intros Hlo Hhi. destruct c as [s| | |s m e]; cbn [in_range]; try tauto.
  rewrite !andb_true_iff, !Z.leb_le, !Z.ltb_lt. lia.
Qed.

Lemma bpow_square (a : Z) : bpow a * bpow a = bpow (2 * a).
Proof. rewrite <- bpow_add. f_equal. lia. Qed.

(** The square of a component. *)
Lemma square_tracks (elo ehi : Z) (c : binary32) :
  (-76 <= elo)%Z -> (ehi <= 29)%Z ->
  in_range elo ehi c = true ->
  tracks 1 (SFmul prec32 emax32 c c) (B2R c * B2R c) /\
  B2R c * B2R c < bpow (2 * (ehi + 24)) /\
  (B2R c * B2R c = 0 \/ bpow (2 * (elo + 23)) <= B2R c * B2R c).
Proof.
  intros Helo Hehi Hc.
  destruct (in_range_cases elo ehi c ltac:(lia) ltac:(lia) Hc)
    as [[s ->] | (Hn & He & Hlo & Hhi)].
  - cbn [SFmul B2R]. rewrite Rmult_0_l. pose proof (bpow_pos (2 * (ehi + 24))).
    split; [left; split; [now destruct s | reflexivity]|].
    split; [lra | now left].
  - assert (Hsq : B2R c * B2R c = Rabs (B2R c) * Rabs (B2R c)).
    { unfold Rabs. destruct (Rcase_abs (B2R c)); ring. }
    pose proof (bpow_pos (elo + 23)) as Hp.
    pose proof (bpow_square (elo + 23)) as Hs1.
    pose proof (bpow_square (ehi + 24)) as Hs2.
    assert (Hb : bpow (2 * (elo + 23)) <= B2R c * B2R c
                 < bpow (2 * (ehi + 24))).
    { rewrite Hsq, <- Hs1, <- Hs2. split; nra. }
    pose proof (bpow_pos (2 * (elo + 23))) as Hp40.
    split; [|split; [lra | right; lra]].
    right. pose proof (SFmul_normal c c Hn Hn ltac:(lia)) as Hr.
    rewrite <- Hsq in Hr.
    replace (xorb (sign_of c) (sign_of c)) with false in Hr
      by (now destruct (sign_of c)).
    destruct (rounds_to_close (B2R c * B2R c) _ ltac:(lra) Hr)
      as (H1 & H2 & H3).
    repeat split; try assumption; try lra; apply H3.
Qed.

(** Addition of two tracked values. *)
Lemma add_tracks (a b : nat) (r1 r2 : binary32) (x1 x2 : R) :
  tracks a r1 x1 -> tracks b r2 x2 ->
  (x1 + x2) * w ^ Nat.max a b < bpow 126 ->
  tracks (S (Nat.max a b)) (SFadd prec32 emax32 r1 r2) (x1 + x2).
Proof.
  intros [[-> ->] | (Hn1 & Hs1 & Hx1 & Hc1)] [[-> ->] | (Hn2 & Hs2 & Hx2 & Hc2)]
    Hrange.
  - left. split; [reflexivity | lra].
  - right. rewrite Rplus_0_l.
    destruct r2 as [| | |s2 m2 e2]; try (exfalso; exact Hn2).
    cbn [SFadd]. split; [exact Hn2|]. split; [exact Hs2|]. split; [exact Hx2|].
    apply close_mono with b; try lra; try lia; try assumption.
    apply Rlt_le, (positive_B2R _ Hn2 Hs2).
  - right. rewrite Rplus_0_r.
    destruct r1 as [| | |s1 m1 e1]; try (exfalso; exact Hn1).
    cbn [SFadd]. split; [exact Hn1|]. split; [exact Hs1|]. split; [exact Hx1|].
    apply close_mono with a; try lra; try lia; try assumption.
    apply Rlt_le, (positive_B2R _ Hn1 Hs1).
  - right.
    destruct (positive_B2R _ Hn1 Hs1) as [Hp1 Ha1].
    destruct (positive_B2R _ Hn2 Hs2) as [Hp2 Ha2].
    set (k := Nat.max a b) in *.
    assert (Hk1 : close k (B2R r1) x1)
      by (apply close_mono with a; try lra; unfold k; lia || assumption).
    assert (Hk2 : close k (B2R r2) x2)
      by (apply close_mono with b; try lra; unfold k; lia || assumption).
    pose proof (close_add k _ _ _ _ Hk1 Hk2) as Hsum.
    assert (Hlt : B2R r1 + B2R r2 < bpow 126)
      by (destruct Hsum as [_ Hsum]; lra).
    assert (He1 : (exponent_of r1 <= 102)%Z).
    { apply (normal_exponent_le r1 126 Hn1). rewrite Ha1. lra. }
    assert (He2 : (exponent_of r2 <= 102)%Z).
    { apply (normal_exponent_le r2 126 Hn2). rewrite Ha2. lra. }
    pose proof (SFadd_positive r1 r2 Hn1 Hn2 Hs1 Hs2 He1 He2) as Hr.
    destruct (rounds_to_close (B2R r1 + B2R r2) _ ltac:(lra) Hr)
      as (H1 & H2 & H3).
    split; [exact H1|]. split; [exact H2|]. split; [lra|].
    replace (S k) with (1 + k)%nat by lia.
    apply close_trans with (B2R r1 + B2R r2); try lra; try assumption.
    apply Rlt_le, (positive_B2R _ H1 H2).
Qed.

End PowerFacts.


Section PowerFacts2.
Import Normalize Binary32 Moderate.
Local Open Scope R_scope.

Lemma w_le_2 (k : nat) : (Z.of_nat k <= 131080)%Z -> w ^ k <= 1 + / 16 + / 1000.
Proof.
  intros Hk.
  assert (Hi : INR k <= 131080).
  { rewrite INR_IZR_INZ. apply IZR_le. exact Hk. }
  pose proof (pow_w_bound k ltac:(lra)). lra.
Qed.

Lemma bpow_succ (a : Z) : bpow (1 + a) = 2 * bpow a.
Proof. rewrite bpow_add, (bpow_IZR 1) by lia. reflexivity. Qed.

(** [std::norm] of a sample. *)
Lemma norm_tracks (elo ehi : Z) (z : binary32 * binary32) :
  (-76 <= elo)%Z -> (ehi <= 29)%Z ->
  in_range_sample elo ehi z = true ->
  tracks 2 (norm z) (power z) /\
  0 <= power z < bpow (1 + 2 * (ehi + 24)) /\
  (power z = 0 \/ bpow (2 * (elo + 23)) <= power z).
Proof.
  intros Helo Hehi Hz. unfold in_range_sample in Hz.
  apply andb_true_iff in Hz. destruct Hz as [Hre Him].
  destruct (square_tracks elo ehi (fst z) Helo Hehi Hre) as (Tr & Ur & Lr).
  destruct (square_tracks elo ehi (snd z) Helo Hehi Him) as (Ti & Ui & Li).
  unfold power.
  assert (Hr0 : 0 <= B2R (fst z) * B2R (fst z)) by nra.
  assert (Hi0 : 0 <= B2R (snd z) * B2R (snd z)) by nra.
  pose proof (bpow_succ (2 * (ehi + 24))) as H41.
  pose proof (bpow_pos (2 * (ehi + 24))) as Hp40.
  pose proof (bpow_pos (2 * (elo + 23))) as Hm40.
  split; [|split; [lra|]].
  - unfold norm. cbn [f_add f_mul binary32_arith].
    apply (add_tracks 1 1); try assumption.
    cbn [Nat.max]. rewrite pow_1, w_value.
    apply Rlt_le_trans with (bpow (1 + (1 + 2 * (ehi + 24)))).
    + rewrite (bpow_succ (1 + 2 * (ehi + 24))). nra.
    + apply bpow_le. lia.
  - destruct Lr as [Lr | Lr], Li as [Li | Li]; [left; lra | right; lra ..].
Qed.

Lemma wide_power (z : binary32 * binary32) :
  wide_sample z = true ->
  tracks 2 (norm z) (power z) /\ 0 <= power z < bpow 107 /\
  (power z = 0 \/ bpow (-106) <= power z).
Proof. intros Hz. exact (norm_tracks (-76) 29 z ltac:(lia) ltac:(lia) Hz). Qed.

Lemma moderate_power (z : binary32 * binary32) :
  moderate_sample z = true ->
  0 <= power z < bpow 41 /\ (power z = 0 \/ bpow (-40) <= power z).
Proof.
  intros Hz.
  destruct (norm_tracks (-43) (-4) z ltac:(lia) ltac:(lia) Hz) as (_ & H1 & H2).
  split; assumption.
Qed.

Lemma moderate_is_wide (l : list (binary32 * binary32)) :
  Forall (fun z => moderate_sample z = true) l ->
  Forall (fun z => wide_sample z = true) l.
Proof.
  apply Forall_impl. intros z Hz.
  unfold moderate_sample, wide_sample, in_range_sample in *.
  apply andb_true_iff in Hz. destruct Hz as [H1 H2].
  apply andb_true_iff. split;
    (eapply in_range_weaken; [| | eassumption]; lia).
Qed.

Lemma energy_nonneg (l : list (binary32 * binary32)) : 0 <= energy l.
Proof.
  induction l as [|z l IH]; cbn [energy fold_right]; [lra|].
  fold (energy l). unfold power. nra.
Qed.

Lemma energy_upper (b : Z) (l : list (binary32 * binary32)) :
  Forall (fun z => power z < bpow b) l ->
  energy l <= INR (length l) * bpow b.
Proof.
  induction 1 as [|z l Hz _ IH]; cbn [energy fold_right length].
  - cbn. lra.
  - fold (energy l). rewrite S_INR. lra.
Qed.

(** A burst with a non-zero sample has energy. *)
Lemma energy_lower (elo ehi : Z) (l : list (binary32 * binary32)) :
  (-76 <= elo)%Z -> (ehi <= 29)%Z ->
  Forall (fun z => in_range_sample elo ehi z = true) l ->
  existsb nonzero_sample l = true ->
  bpow (2 * (elo + 23)) <= energy l.
Proof.
  intros Helo Hehi.
  induction 1 as [|z l Hz Hl IH]; cbn [existsb]; [discriminate|].
  cbn [energy fold_right]. fold (energy l).
  pose proof (energy_nonneg l) as He.
  destruct (norm_tracks elo ehi z Helo Hehi Hz) as (_ & Hp & Hcase).
  intros Hex. apply orb_true_iff in Hex. destruct Hex as [Hnz | Hex].
  - destruct Hcase as [H0 | Hpos]; [|lra].
    exfalso. unfold nonzero_sample in Hnz. apply negb_true_iff in Hnz.
    unfold in_range_sample in Hz. apply andb_true_iff in Hz.
    destruct Hz as [Hre Him]. unfold power in H0.
    assert (Hr : B2R (fst z) = 0) by nra.
    assert (Hi : B2R (snd z) = 0) by nra.
    assert (Hzero : forall c, in_range elo ehi c = true -> B2R c = 0 ->
                              is_zero c = true).
    { intros c Hc Hc0.
      destruct (in_range_cases elo ehi c ltac:(lia) ltac:(lia) Hc)
        as [[s ->] | (Hn & _ & Hlo & _)];
        [reflexivity|].
      rewrite Hc0, Rabs_R0 in Hlo. pose proof (bpow_pos (elo + 23)). lra. }
    rewrite (Hzero _ Hre Hr), (Hzero _ Him Hi) in Hnz. discriminate.
  - specialize (IH Hex). lra.
Qed.

(** The accumulation loop. *)
Lemma power_fold_tracks (l : list (binary32 * binary32)) :
  Forall (fun z => wide_sample z = true) l ->
  forall (k : nat) (acc : binary32) (X : R),
    tracks k acc X -> (2 <= k)%nat ->
    (Z.of_nat k + Z.of_nat (length l) <= 131080)%Z ->
    0 <= X -> X + energy l <= bpow 124 ->
    tracks (k + length l)
      (fold_left (fun acc z => f_add acc (norm z)) l acc) (X + energy l).
Proof.
  induction 1 as [|z l Hz Hl IH]; intros k acc X Hacc Hk Hlen HX Hsum;
    cbn [fold_left energy fold_right length].
  - rewrite Nat.add_0_r, Rplus_0_r. exact Hacc.
  - fold (energy l) in *. cbn [length] in Hlen.
    destruct (wide_power z Hz) as (Tz & Hp & _).
    pose proof (energy_nonneg l) as He.
    replace (k + S (length l))%nat with (S k + length l)%nat by lia.
    replace (X + (power z + energy l)) with ((X + power z) + energy l) by ring.
    cbn [energy fold_right] in Hsum. fold (energy l) in Hsum.
    apply IH; try lia; try lra.
    replace (S k) with (S (Nat.max k 2)) by lia.
    cbn [f_add binary32_arith]. apply add_tracks; try assumption.
    replace (Nat.max k 2) with k by lia.
    pose proof (w_le_2 k ltac:(lia)) as Hw.
    pose proof (pow_w_ge_1 k) as Hw1.
    apply Rle_lt_trans with (bpow 124 * 2).
    + apply Rmult_le_compat; lra.
    + apply Rlt_le_trans with (bpow 126); [|lra].
      change 126%Z with (1 + (1 + 124))%Z. rewrite !bpow_succ.
      pose proof (bpow_pos 124). lra.
Qed.

Lemma length_bound (b : Z) (l : list (binary32 * binary32)) :
  (Z.of_nat (length l) <= max_length)%Z ->
  INR (length l) * bpow b <= bpow (16 + b).
Proof.
  intros Hlen. unfold max_length in Hlen.
  rewrite bpow_add, (bpow_IZR 16) by lia.
  apply Rmult_le_compat_r; [apply Rlt_le, bpow_pos|].
  rewrite INR_IZR_INZ. apply IZR_le. exact Hlen.
Qed.

Lemma wide_energy_upper (l : list (binary32 * binary32)) :
  Forall (fun z => wide_sample z = true) l ->
  (Z.of_nat (length l) <= max_length)%Z ->
  energy l <= bpow 123.
Proof.
  intros Hl Hlen.
  apply Rle_trans with (INR (length l) * bpow 107).
  - apply energy_upper. apply Forall_impl with (2 := Hl).
    intros z Hz. now destruct (wide_power z Hz) as (_ & [_ H] & _).
  - exact (length_bound 107 l Hlen).
Qed.

(** [check_power] agrees with the energy of the burst up to [n + 2]
    rounding factors. *)
Lemma check_power_tracks (l : list (binary32 * binary32)) :
  Forall (fun z => wide_sample z = true) l ->
  (Z.of_nat (length l) <= max_length)%Z ->
  tracks (2 + length l) (check_power l) (energy l).
Proof.
  intros Hl Hlen. unfold check_power.
  pose proof (energy_nonneg l) as He0.
  pose proof (wide_energy_upper l Hl Hlen) as Hb.
  pose proof (bpow_le 123 124 ltac:(lia)) as H5760.
  rewrite <- (Rplus_0_l (energy l)).
  apply power_fold_tracks; try assumption; try lia; try lra.
  - left. split; reflexivity.
  - unfold max_length in Hlen. lia.
Qed.

End PowerFacts2.

(** ** Burst normalisation in binary32: amplitude and scale factor *)

Section AmplitudeFacts.
Import Normalize Binary32 Moderate.
Local Open Scope R_scope.

Lemma burst_nonempty (l : list (binary32 * binary32)) :
  existsb nonzero_sample l = true -> (1 <= Z.of_nat (length l))%Z.
Proof. intros Hnz. destruct l; [discriminate Hnz | cbn [length]; lia]. Qed.

Lemma INR_length (l : list (binary32 * binary32)) :
  existsb nonzero_sample l = true ->
  (Z.of_nat (length l) <= max_length)%Z ->
  1 <= INR (length l) <= 65536.
Proof.
  intros Hnz Hlen.
  rewrite INR_IZR_INZ. pose proof (burst_nonempty l Hnz).
  unfold max_length in Hlen. split; apply IZR_le; lia.
Qed.

Lemma w_small (k : nat) :
  (Z.of_nat k <= 131080)%Z -> 1 <= w ^ k <= 1 + / 16 + / 1000.
Proof. intros Hk. split; [apply pow_w_ge_1 | now apply w_le_2]. Qed.

(** From a tracked magnitude and bounds on what it tracks to the exponent
    of the binary32 number. *)
Lemma tracked_exponent_abs (k : nat) (r : binary32) (x : R) (lo hi : Z) :
  (Z.of_nat k <= 131080)%Z ->
  normal r -> close k (Rabs (B2R r)) x ->
  bpow lo <= x < bpow hi ->
  (lo - 24 <= exponent_of r <= hi - 23)%Z.
Proof.
  intros Hk Hn [H1 H2] [Hlo Hhi].
  pose proof (Rabs_pos (B2R r)) as Hp.
  destruct (w_small k Hk) as [Hw1 Hw2].
  pose proof (bpow_pos lo) as Hplo. pose proof (bpow_pos hi) as Hphi.
  split.
  - assert (H : (lo - 1 - 23 <= exponent_of r)%Z); [|lia].
    apply normal_exponent_ge; [exact Hn|].
    replace lo with (1 + (lo - 1))%Z in Hlo, Hplo by lia.
    rewrite bpow_add, (bpow_IZR 1) in Hlo, Hplo by lia.
    change (IZR (2 ^ 1)) with 2 in Hlo, Hplo.
    pose proof (bpow_pos (lo - 1)). nra.
  - assert (H : (exponent_of r <= hi + 1 - 24)%Z); [|lia].
    apply normal_exponent_le; [exact Hn|].
    rewrite (Z.add_comm hi 1), bpow_add, (bpow_IZR 1) by lia.
    change (IZR (2 ^ 1)) with 2. nra.
Qed.

Lemma tracked_exponent (k : nat) (r : binary32) (x : R) (lo hi : Z) :
  (Z.of_nat k <= 131080)%Z ->
  normal r -> sign_of r = false -> close k (B2R r) x ->
  bpow lo <= x < bpow hi ->
  (lo - 24 <= exponent_of r <= hi - 23)%Z.
Proof.
  intros Hk Hn Hs Hc. apply (tracked_exponent_abs k r x); try assumption.
  now rewrite (proj2 (positive_B2R r Hn Hs)).
Qed.

Lemma in_range_intro (elo ehi : Z) (r : binary32) :
  normal r -> (elo <= exponent_of r <= ehi)%Z -> in_range elo ehi r = true.
Proof.
  destruct r as [| | |s m e]; cbn [normal exponent_of in_range]; try tauto.
  intros [Hm _] He. rewrite !andb_true_iff, !Z.leb_le, Z.ltb_lt. lia.
Qed.

(** [current_amplitude] agrees with the RMS amplitude of the burst up to
    [n + 5] rounding factors. *)
Lemma current_amplitude_tracks (l : list (binary32 * binary32)) :
  Forall (fun z => wide_sample z = true) l ->
  (Z.of_nat (length l) <= max_length)%Z ->
  existsb nonzero_sample l = true ->
  normal (current_amplitude l) /\ sign_of (current_amplitude l) = false /\
  close (5 + length l) (B2R (current_amplitude l)) (rms l).
Proof.
  intros Hwide Hlen Hnz.
  pose proof (energy_lower (-76) 29 l ltac:(lia) ltac:(lia) Hwide Hnz) as He1.
  change (2 * (-76 + 23))%Z with (-106)%Z in He1.
  pose proof (wide_energy_upper l Hwide Hlen) as He2.
  pose proof (INR_length l Hnz Hlen) as [Hn1 Hn2].
  pose proof (bpow_pos (-106)) as Hp40.
  destruct (check_power_tracks l Hwide Hlen) as [[_ H0] | (HPn & HPs & _ & HPc)];
    [lra|].
  set (P := check_power l) in *.
  pose proof (burst_nonempty l Hnz) as Hne. unfold max_length in Hlen.
  destruct (rounds_to_close (IZR (Z.of_nat (length l))) _
              ltac:(apply IZR_lt; lia)
              (b32_of_Z_rounds (Z.of_nat (length l)) ltac:(lia)))
    as (HNn & HNs & HNc).
  set (N := b32_of_Z (Z.of_nat (length l))) in *.
  rewrite <- INR_IZR_INZ in HNc.
  destruct (positive_B2R P HPn HPs) as [HP0 HPa].
  destruct (positive_B2R N HNn HNs) as [HN0 HNa].
  (* exponents of the two operands of the division *)
  assert (HeP : (-130 <= exponent_of P <= 101)%Z).
  { apply (tracked_exponent (2 + length l) P (energy l) (-106) 124);
      try assumption; [lia|].
    pose proof (bpow_lt 123 124 ltac:(lia)). lra. }
  assert (HeN : (-24 <= exponent_of N <= -6)%Z).
  { apply (tracked_exponent 1 N (INR (length l)) 0 17); try assumption; [lia|].
    rewrite bpow_0, (bpow_IZR 17) by lia.
    change (IZR (2 ^ 17)) with 131072. lra. }
  pose proof (SFdiv_normal P N HPn HNn ltac:(lia)) as HQ.
  rewrite HPs, HNs, HPa, HNa in HQ. cbn [xorb] in HQ.
  destruct (rounds_to_close (B2R P / B2R N) _
              ltac:(apply Rdiv_lt_0_compat; assumption) HQ)
    as (HQn & HQs & HQc).
  set (Q := SFdiv prec32 emax32 P N) in *.
  destruct (positive_B2R Q HQn HQs) as [HQ0 HQa].
  assert (HQx : close (4 + length l) (B2R Q) (energy l / INR (length l))).
  { replace (4 + length l)%nat with (1 + ((2 + length l) + 1))%nat by lia.
    apply close_trans with (B2R P / B2R N); try lra.
    - apply Rlt_le, Rdiv_lt_0_compat; assumption.
    - apply Rlt_le, Rdiv_lt_0_compat; lra.
    - exact HQc.
    - apply close_div; try lra; assumption. }
  pose proof (SFsqrt_normal Q HQn HQs) as Ha.
  destruct (rounds_to_close (sqrt (B2R Q)) _ ltac:(now apply sqrt_lt_R0) Ha)
    as (Han & Has & Hac).
  unfold current_amplitude. cbn [f_sqrt f_div f_of_uint32 binary32_arith].
  fold P N Q. split; [exact Han|]. split; [exact Has|].
  replace (5 + length l)%nat with (1 + (4 + length l))%nat by lia.
  assert (Hmean : 0 < energy l / INR (length l))
    by (apply Rdiv_lt_0_compat; lra).
  apply close_trans with (sqrt (B2R Q)).
  - apply Rlt_le, (positive_B2R _ Han Has).
  - apply sqrt_pos.
  - apply sqrt_pos.
  - exact Hac.
  - unfold rms. apply close_sqrt; try lra. exact HQx.
Qed.


End AmplitudeFacts.

(** ** Burst normalisation in binary32: the rescaled burst *)

Section RescaleFacts.
Import Normalize Binary32 Moderate.
Local Open Scope R_scope.

Variable l : list (binary32 * binary32).
Hypothesis Hmod : Forall (fun z => moderate_sample z = true) l.
Hypothesis Hlen : (Z.of_nat (length l) <= max_length)%Z.
Hypothesis Hnz : existsb nonzero_sample l = true.

Lemma moderate_energy_upper : energy l <= INR (length l) * bpow 41.
Proof.
  apply energy_upper. apply Forall_impl with (2 := Hmod).
  intros z Hz. now destruct (moderate_power z Hz) as [[_ H] _].
Qed.

Lemma energy_range : bpow (-40) <= energy l <= bpow 57.
Proof.
  split.
  - exact (energy_lower (-43) (-4) l ltac:(lia) ltac:(lia) Hmod Hnz).
  - pose proof moderate_energy_upper as Hu.
    pose proof (length_bound 41 l Hlen) as Hb.
    change (16 + 41)%Z with 57%Z in Hb. lra.
Qed.

Lemma mean_power_range : bpow (-56) <= energy l / INR (length l) <= bpow 42.
Proof.
  pose proof energy_range as [He1 He2].
  pose proof (INR_length l Hnz Hlen) as [Hn1 Hn2].
  pose proof moderate_energy_upper as He3.
  pose proof (bpow_pos (-56)) as Hp. pose proof (bpow_pos 41) as Hp41.
  split.
  - apply Rmult_le_reg_r with (INR (length l)); [lra|].
    unfold Rdiv. rewrite Rmult_assoc, Rinv_l, Rmult_1_r by lra.
    apply Rle_trans with (bpow (-56) * 65536); [nra|].
    replace (bpow (-56) * 65536) with (bpow (-40)); [exact He1|].
    change (-40)%Z with (-56 + 16)%Z. rewrite bpow_add, (bpow_IZR 16) by lia.
    reflexivity.
  - apply Rmult_le_reg_r with (INR (length l)); [lra|].
    unfold Rdiv. rewrite Rmult_assoc, Rinv_l, Rmult_1_r by lra.
    pose proof (bpow_lt 41 42 ltac:(lia)). nra.
Qed.

Lemma rms_range : bpow (-28) <= rms l <= bpow 21.
Proof.
  unfold rms. pose proof mean_power_range as [H1 H2].
  rewrite <- (sqrt_bpow_double (-28)), <- (sqrt_bpow_double 21).
  split; apply sqrt_le_1_alt; assumption.
Qed.

Lemma b32_0_7_value :
  normal b32_0_7 /\ sign_of b32_0_7 = false /\
  B2R b32_0_7 = 11744051 / 16777216.
Proof.
  split; [cbn; lia|]. split; [reflexivity|]. cbn [B2R b32_0_7].
  replace (bpow (-24)) with (/ bpow 24) by (symmetry; apply (bpow_opp 24)).
  rewrite (bpow_IZR 24) by lia. reflexivity.
Qed.

Lemma b32_1em12_value :
  normal b32_1em12 /\ sign_of b32_1em12 = false /\
  B2R b32_1em12 = 9223372 / 9223372036854775808.
Proof.
  split; [cbn; lia|]. split; [reflexivity|]. cbn [B2R b32_1em12].
  replace (bpow (-63)) with (/ bpow 63) by (symmetry; apply (bpow_opp 63)).
  rewrite (bpow_IZR 63) by lia. reflexivity.
Qed.

Lemma b32_0_07_value :
  normal b32_0_07 /\ sign_of b32_0_07 = false /\
  B2R b32_0_07 = 9395241 / 134217728.
Proof.
  split; [cbn; lia|]. split; [reflexivity|]. cbn [B2R b32_0_07].
  replace (bpow (-27)) with (/ bpow 27) by (symmetry; apply (bpow_opp 27)).
  rewrite (bpow_IZR 27) by lia. reflexivity.
Qed.

Lemma ideal_scale_range : bpow (-23) <= ideal_scale l < bpow 28.
Proof.
  unfold ideal_scale. pose proof rms_range as [Hr1 Hr2].
  destruct b32_0_7_value as (_ & _ & ->).
  destruct b32_1em12_value as (_ & _ & ->).
  pose proof (bpow_pos (-28)) as Hp.
  replace (bpow (-23)) with (/ bpow 23) by (symmetry; apply (bpow_opp 23)).
  replace (bpow (-28)) with (/ bpow 28) in *
    by (symmetry; apply (bpow_opp 28)).
  rewrite (bpow_IZR 23), (bpow_IZR 28), (bpow_IZR 21) in * by lia.
  change (IZR (2 ^ 23)) with 8388608. change (IZR (2 ^ 28)) with 268435456 in *.
  change (IZR (2 ^ 21)) with 2097152 in *.
  set (a := rms l) in *.
  assert (Ha : 0 < a) by lra.
  split.
  - apply Rmult_le_reg_r with (a + 9223372 / 9223372036854775808); [lra|].
    unfold Rdiv at 2. rewrite Rmult_assoc, Rinv_l, Rmult_1_r by lra. lra.
  - apply Rmult_lt_reg_r with (a + 9223372 / 9223372036854775808); [lra|].
    unfold Rdiv at 1. rewrite Rmult_assoc, Rinv_l, Rmult_1_r by lra. lra.
Qed.

Lemma burst_rounding_count (k : nat) :
  (k <= 16 + length l)%nat -> (Z.of_nat k <= 131080)%Z.
Proof. intros Hk. unfold max_length in Hlen. lia. Qed.

(** [scale_factor] agrees with the ideal one up to [n + 7] rounding
    factors. *)
Lemma scale_factor_tracks :
  normal (scale_factor l) /\ sign_of (scale_factor l) = false /\
  close (7 + length l) (B2R (scale_factor l)) (ideal_scale l) /\
  (-47 <= exponent_of (scale_factor l) <= 5)%Z.
Proof.
  destruct (current_amplitude_tracks l (moderate_is_wide l Hmod) Hlen Hnz)
    as (Han & Has & Hac).
  pose proof rms_range as [Hr1 Hr2].
  destruct b32_0_7_value as (H7n & H7s & H7v).
  destruct b32_1em12_value as (Hen & Hes & Hev).
  set (a := current_amplitude l) in *.
  destruct (positive_B2R a Han Has) as [Ha0 Haa].
  destruct (positive_B2R _ Hen Hes) as [He0 Hea].
  destruct (positive_B2R _ H7n H7s) as [H70 H7a].
  pose proof (bpow_pos (-28)) as Hp28.
  assert (Hea' : (exponent_of a <= 102)%Z).
  { pose proof (tracked_exponent (5 + length l) a (rms l) (-28) 22
                  (burst_rounding_count (5 + length l) ltac:(lia)) Han Has Hac) as Hx.
    pose proof (bpow_lt 21 22 ltac:(lia)). specialize (Hx ltac:(lra)). lia. }
  pose proof (SFadd_positive a b32_1em12 Han Hen Has Hes Hea'
                ltac:(cbn; lia)) as Hd.
  destruct (rounds_to_close (B2R a + B2R b32_1em12) _ ltac:(lra) Hd)
    as (Hdn & Hds & Hdc).
  set (d := SFadd prec32 emax32 a b32_1em12) in *.
  destruct (positive_B2R d Hdn Hds) as [Hd0 Hda].
  assert (Hdx : close (6 + length l) (B2R d) (rms l + B2R b32_1em12)).
  { replace (6 + length l)%nat with (1 + (5 + length l))%nat by lia.
    apply close_trans with (B2R a + B2R b32_1em12); try lra;
      [exact Hdc|].
    apply close_add; [exact Hac|].
    apply close_mono with 0%nat; try lra; [lia | apply close_refl]. }
  assert (Hed : (-53 <= exponent_of d <= 0)%Z).
  { pose proof (tracked_exponent (6 + length l) d
                  (rms l + B2R b32_1em12) (-29) 23
                  (burst_rounding_count (6 + length l) ltac:(lia)) Hdn Hds Hdx) as Hx.
    pose proof (bpow_lt (-29) (-28) ltac:(lia)).
    pose proof (bpow_lt 21 22 ltac:(lia)).
    assert (Hone : 1 <= bpow 22)
      by (rewrite <- bpow_0; apply bpow_le; lia).
    assert (H23 : bpow 23 = 2 * bpow 22).
    { change 23%Z with (1 + 22)%Z. rewrite bpow_add, (bpow_IZR 1) by lia.
      reflexivity. }
    rewrite Hev in *. specialize (Hx ltac:(lra)). lia. }
  pose proof (SFdiv_normal b32_0_7 d H7n Hdn ltac:(cbn [exponent_of b32_0_7]; lia))
    as Hs.
  rewrite H7s, Hds, H7a, Hda in Hs. cbn [xorb] in Hs.
  destruct (rounds_to_close (B2R b32_0_7 / B2R d) _
              ltac:(apply Rdiv_lt_0_compat; assumption) Hs)
    as (Hsn & Hss & Hsc).
  unfold scale_factor. cbn [f_div f_add target_amplitude f_epsilon binary32_arith].
  fold a d.
  set (s := SFdiv prec32 emax32 b32_0_7 d) in *.
  assert (Hsx : close (7 + length l) (B2R s) (ideal_scale l)).
  { replace (7 + length l)%nat with (1 + (0 + (6 + length l)))%nat by lia.
    apply close_trans with (B2R b32_0_7 / B2R d).
    - apply Rlt_le, (positive_B2R _ Hsn Hss).
    - apply Rlt_le, Rdiv_lt_0_compat; assumption.
    - apply Rlt_le, Rdiv_lt_0_compat; lra.
    - exact Hsc.
    - apply close_div; try lra; [apply close_refl | exact Hdx]. }
  split; [exact Hsn|]. split; [exact Hss|]. split; [exact Hsx|].
  pose proof (tracked_exponent (7 + length l) s (ideal_scale l) (-23) 28
                (burst_rounding_count (7 + length l) ltac:(lia)) Hsn Hss Hsx
                ideal_scale_range). lia.
Qed.

Lemma square_abs (x : R) : x * x = Rabs x * Rabs x.
Proof. unfold Rabs. destruct (Rcase_abs x); ring. Qed.

Lemma close_zero (k : nat) : close k 0 0.
Proof. unfold close. lra. Qed.

(** One rescaled component: a zero where the input is, else a normal
    number well inside the range of the format; its square agrees with
    the ideally rescaled square up to [2 * (n + 8)] rounding factors. *)
Lemma scaled_component (c : binary32) :
  moderate c = true ->
  let y := SFmul prec32 emax32 c (scale_factor l) in
  is_nan_or_inf y = false /\ wide y = true /\ is_zero y = is_zero c /\
  close (2 * (8 + length l)) (B2R y * B2R y)
    (ideal_scale l * ideal_scale l * (B2R c * B2R c)).
Proof.
  intros Hc y.
  destruct scale_factor_tracks as (Hsn & Hss & Hsc & Hse).
  set (s := scale_factor l) in *.
  destruct (positive_B2R s Hsn Hss) as [Hs0 Hsa].
  pose proof ideal_scale_range as [Hi1 Hi2].
  pose proof (bpow_pos (-23)) as Hp23.
  destruct (in_range_cases (-43) (-4) c ltac:(lia) ltac:(lia) Hc)
    as [[sc ->] | (Hn & He & Hlo & Hhi)].
  - unfold y. destruct s as [| | |ss ms es]; try (exfalso; exact Hsn).
    cbn [SFmul is_nan_or_inf B2R is_zero wide in_range].
    split; [reflexivity|]. split; [reflexivity|]. split; [reflexivity|].
    rewrite !Rmult_0_l, Rmult_0_r. apply close_zero.
  - change (-43 + 23)%Z with (-20)%Z in Hlo. change (-4 + 24)%Z with 20%Z in Hhi.
    pose proof (SFmul_normal c s Hn Hsn ltac:(lia)) as Hy. fold y in Hy.
    destruct Hy as (Hyn & _ & Hyerr). rewrite Hsa in Hyerr.
    pose proof (bpow_pos (-20)) as Hp20.
    assert (Hcs : 0 < Rabs (B2R c) * B2R s) by nra.
    pose proof (close_round _ _ Hcs Hyerr) as Hy1.
    assert (Hy' : close (8 + length l) (Rabs (B2R y))
                    (Rabs (B2R c) * ideal_scale l)).
    { replace (8 + length l)%nat with (1 + (0 + (7 + length l)))%nat by lia.
      apply close_trans with (Rabs (B2R c) * B2R s); try nra.
      - apply Rabs_pos.
      - exact Hy1.
      - apply close_mul; try lra; [apply close_refl | exact Hsc]. }
    assert (Hye : (-67 <= exponent_of y <= 25)%Z).
    { pose proof (tracked_exponent_abs (8 + length l) y
                    (Rabs (B2R c) * ideal_scale l) (-43) 48
                    (burst_rounding_count (8 + length l) ltac:(lia)) Hyn Hy') as Hx.
      assert (H43 : bpow (-43) = bpow (-20) * bpow (-23))
        by (rewrite <- bpow_add; reflexivity).
      assert (H48 : bpow 48 = bpow 20 * bpow 28)
        by (rewrite <- bpow_add; reflexivity).
      pose proof (bpow_pos 20). pose proof (bpow_pos 28).
      specialize (Hx ltac:(split; nra)). lia. }
    split; [|split; [|split]].
    + destruct y as [| | |sy my ey]; try (exfalso; exact Hyn). reflexivity.
    + apply in_range_intro; [exact Hyn | lia].
    + destruct y as [| | |sy my ey]; try (exfalso; exact Hyn).
      destruct c as [| | |sc mc ec]; try (exfalso; exact Hn). reflexivity.
    + rewrite (square_abs (B2R y)), (square_abs (B2R c)).
      replace (ideal_scale l * ideal_scale l * (Rabs (B2R c) * Rabs (B2R c)))
        with ((Rabs (B2R c) * ideal_scale l) * (Rabs (B2R c) * ideal_scale l))
        by ring.
      replace (2 * (8 + length l))%nat
        with ((8 + length l) + (8 + length l))%nat by lia.
      apply close_mul; try assumption; try apply Rabs_pos; nra.
Qed.

Lemma scaled_sample (z : binary32 * binary32) :
  moderate_sample z = true ->
  let z' := scale (scale_factor l) z in
  finite_sample z' /\ wide_sample z' = true /\
  nonzero_sample z' = nonzero_sample z /\
  close (2 * (8 + length l)) (power z')
    (ideal_scale l * ideal_scale l * power z).
Proof.
  intros Hz z'. unfold moderate_sample, in_range_sample in Hz.
  apply andb_true_iff in Hz. destruct Hz as [Hre Him].
  destruct (scaled_component (fst z) Hre) as (Fr & Wr & Zr & Cr).
  destruct (scaled_component (snd z) Him) as (Fi & Wi & Zi & Ci).
  unfold z', scale, power, finite_sample, wide_sample, in_range_sample,
    nonzero_sample.
  cbn [fst snd f_mul binary32_arith].
  split; [split; assumption|].
  split; [apply andb_true_iff; split; assumption|].
  split; [now rewrite Zr, Zi|].
  rewrite Rmult_plus_distr_l. now apply close_add.
Qed.

Lemma scaled_energy (m : list (binary32 * binary32)) :
  Forall (fun z => moderate_sample z = true) m ->
  let m' := map (scale (scale_factor l)) m in
  Forall finite_sample m' /\ Forall (fun z => wide_sample z = true) m' /\
  existsb nonzero_sample m' = existsb nonzero_sample m /\
  close (2 * (8 + length l)) (energy m')
    (ideal_scale l * ideal_scale l * energy m).
Proof.
  induction 1 as [|z m Hz _ (IHf & IHw & IHn & IHc)];
    cbn [map energy fold_right existsb].
  - split; [constructor|]. split; [constructor|]. split; [reflexivity|].
    rewrite Rmult_0_r. apply close_zero.
  - fold (energy m). fold (energy (map (scale (scale_factor l)) m)).
    destruct (scaled_sample z Hz) as (Fz & Wz & Nz & Cz).
    split; [now constructor|]. split; [now constructor|].
    split; [now rewrite Nz, IHn|].
    rewrite Rmult_plus_distr_l. now apply close_add.
Qed.

(** The rescaled burst: no NaN and no infinity, every component a zero or
    well inside the range of the format, a non-zero sample left, and an
    RMS amplitude that agrees with ideal scale times input amplitude up to
    [n + 8] rounding factors. *)
Lemma normalized_rms_tracks :
  Forall finite_sample (normalize_burst l) /\
  Forall (fun z => wide_sample z = true) (normalize_burst l) /\
  existsb nonzero_sample (normalize_burst l) = true /\
  close (8 + length l) (rms (normalize_burst l)) (ideal_scale l * rms l).
Proof.
  unfold normalize_burst.
  destruct (scaled_energy l Hmod) as (Hf & Hw & Hn & Hc).
  split; [exact Hf|]. split; [exact Hw|].
  split; [now rewrite Hn|].
  pose proof (INR_length l Hnz Hlen) as [Hn1 Hn2].
  pose proof (energy_nonneg l) as He0.
  pose proof ideal_scale_range as [Hi1 _].
  pose proof (bpow_pos (-23)) as Hp23.
  pose proof (energy_nonneg (map (scale (scale_factor l)) l)) as Heo.
  unfold rms. rewrite length_map.
  replace (ideal_scale l * sqrt (energy l / INR (length l)))
    with (sqrt (ideal_scale l * ideal_scale l * energy l / INR (length l))).
  - apply close_sqrt_half.
    + apply Rmult_le_pos; [lra | apply Rlt_le, Rinv_0_lt_compat; lra].
    + apply Rmult_le_pos; [nra | apply Rlt_le, Rinv_0_lt_compat; lra].
    + replace (2 * (8 + length l))%nat
        with (2 * (8 + length l) + 0)%nat by lia.
      apply close_div; try lra; try nra; [exact Hc | apply close_refl].
  - unfold Rdiv. rewrite !Rmult_assoc.
    rewrite <- (Rmult_assoc (ideal_scale l)).
    rewrite sqrt_mult_alt by nra.
    rewrite sqrt_square by lra. reflexivity.
Qed.

(** The RMS amplitude of the rescaled burst is within 0.025 of the
    target. *)
Lemma normalized_rms_near :
  Rabs (rms (normalize_burst l) - 7 / 10) <= 1 / 40.
Proof.
  destruct normalized_rms_tracks as (_ & _ & _ & [H1 H2]).
  pose proof rms_range as [Ha1 _].
  pose proof (INR_length l Hnz Hlen) as [Hn1 Hn2].
  set (K := (8 + length l)%nat) in *.
  assert (HK : INR K <= 65544).
  { unfold K. rewrite plus_INR.
    assert (H8 : INR 8 = 8) by (cbn; lra). lra. }
  pose proof (pow_w_bound K ltac:(lra)) as HW.
  pose proof (pow_w_ge_1 K) as HW1.
  set (W := w ^ K) in *.
  assert (HR0 : 0 <= rms (normalize_burst l)) by apply sqrt_pos.
  set (r := rms (normalize_burst l)) in *.
  unfold ideal_scale in H1, H2.
  destruct b32_0_7_value as (_ & _ & E7).
  destruct b32_1em12_value as (_ & _ & Ee).
  rewrite E7, Ee in H1, H2.
  replace (bpow (-28)) with (/ bpow 28) in Ha1
    by (symmetry; apply (bpow_opp 28)).
  rewrite (bpow_IZR 28) in Ha1 by lia.
  change (IZR (2 ^ 28)) with 268435456 in Ha1.
  set (a := rms l) in *.
  assert (Ha : 0 < a) by lra.
  set (e := 9223372 / 9223372036854775808) in *.
  assert (He : 0 < e <= / 900000000000) by (unfold e; lra).
  set (X := 11744051 / 16777216 / (a + e) * a) in *.
  assert (HX : 6997 / 10000 <= X <= 7 / 10).
  { unfold X. split.
    - apply Rmult_le_reg_r with (a + e); [lra|].
      replace (11744051 / 16777216 / (a + e) * a * (a + e))
        with (11744051 / 16777216 * a) by (field; lra).
      nra.
    - apply Rmult_le_reg_r with (a + e); [lra|].
      replace (11744051 / 16777216 / (a + e) * a * (a + e))
        with (11744051 / 16777216 * a) by (field; lra).
      nra. }
  apply Rabs_le. split; nra.
Qed.

(** The amplitude the program itself would measure on the rescaled burst,
    in binary32, is within 0.05 of the literal 0.7f. *)
Lemma normalized_amplitude_range :
  let a := current_amplitude (normalize_burst l) in
  normal a /\ sign_of a = false /\
  Rabs (B2R a - B2R b32_0_7) <= 1 / 20.
Proof.
  intros a.
  destruct normalized_rms_tracks as (_ & Hw & Hn & _).
  pose proof normalized_rms_near as Hr.
  assert (Hlo : length (normalize_burst l) = length l)
    by (unfold normalize_burst; apply length_map).
  destruct (current_amplitude_tracks (normalize_burst l) Hw
              ltac:(rewrite Hlo; exact Hlen) Hn) as (Han & Has & [Hc1 Hc2]).
  fold a in Han, Has, Hc1, Hc2. rewrite Hlo in Hc1, Hc2.
  split; [exact Han|]. split; [exact Has|].
  destruct (positive_B2R a Han Has) as [Ha0 _].
  pose proof (INR_length l Hnz Hlen) as [Hn1 Hn2].
  set (K := (5 + length l)%nat) in *.
  assert (HK : INR K <= 65541).
  { unfold K. rewrite plus_INR.
    assert (H5 : INR 5 = 5) by (cbn; lra). lra. }
  pose proof (pow_w_bound K ltac:(lra)) as HW.
  pose proof (pow_w_ge_1 K) as HW1.
  set (W := w ^ K) in *.
  set (r := rms (normalize_burst l)) in *.
  apply Rabs_le_between in Hr.
  destruct b32_0_7_value as (_ & _ & ->).
  apply Rabs_le. split; nra.
Qed.

(** So the program's own check of the rescaled burst succeeds. *)
Lemma normalized_near_target : near_target (normalize_burst l) = true.
Proof.
  destruct normalized_amplitude_range as (Han & Has & Hr).
  unfold near_target.
  set (a := current_amplitude (normalize_burst l)) in *.
  destruct b32_0_7_value as (H7n & H7s & H7v).
  destruct b32_0_07_value as (Htn & Hts & Htv).
  destruct (positive_B2R a Han Has) as [Ha0 Haa].
  assert (Hae : (-126 <= exponent_of a <= 103)%Z).
  { apply Rabs_le_between in Hr. rewrite H7v in Hr.
    pose proof (normal_exponent_ge a (-1) Han) as H1.
    pose proof (normal_exponent_le a 0 Han) as H2.
    rewrite Haa, bpow_0 in *.
    replace (bpow (-1)) with (/ bpow 1) in H1
      by (symmetry; apply (bpow_opp 1)).
    rewrite (bpow_IZR 1) in H1 by lia. change (IZR (2 ^ 1)) with 2 in H1.
    specialize (H1 ltac:(lra)). specialize (H2 ltac:(lra)). lia. }
  destruct (SFsub_positive a b32_0_7 Han H7n Has H7s Hae
              ltac:(cbn [exponent_of b32_0_7]; lia))
    as [[_ Hz] | [Hne (Hdn & _ & Herr)]].
  - rewrite Hz. reflexivity.
  - set (d := SFsub prec32 emax32 a b32_0_7) in *.
    destruct (SFabs_normal d Hdn) as (Hn' & Hs' & Hv').
    apply SFleb_positive; try assumption.
    rewrite Hv', Htv. apply Rabs_le_between in Herr.
    pose proof u_value as Hu. rewrite Hu in Herr.
    set (X := Rabs (B2R a - B2R b32_0_7)) in *.
    assert (HX : 0 <= X) by apply Rabs_pos.
    nra.
Qed.

End RescaleFacts.

(** ** Burst normalisation: what the rescale achieves *)


(** The amplitude it comes out with is below half the target. *)
Lemma normalize_faint_burst_amplitude :
  Normalize.current_amplitude (Normalize.normalize_burst Normalize.faint_burst)
    = S754_finite false 11187412 (-25) /\
  SFltb (Normalize.current_amplitude
           (Normalize.normalize_burst Normalize.faint_burst))
        Normalize.b32_0_35 = true.
Proof. split; vm_compute; reflexivity. Qed.

(** At the other end the squares overflow: for the burst (1e30, 0),
    (1, 1) [check_power] is +infinity, the scale factor is zero and the
    burst comes out all zeros. *)
Lemma normalize_loud_burst_silenced :
  Normalize.check_power Moderate.loud_burst = S754_infinity false /\
  Normalize.scale_factor Moderate.loud_burst = S754_zero false /\
  Forall Normalize.zero_sample
    (Normalize.normalize_burst Moderate.loud_burst) /\
  Normalize.near_target (Normalize.normalize_burst Moderate.loud_burst)
    = false.
Proof.
  split; [vm_compute; reflexivity|]. split; [vm_compute; reflexivity|].
  split; [|vm_compute; reflexivity].
  vm_compute. repeat constructor.
Qed.



(** ** Transmission: return value and exit code *)

Section TransmitFacts.
Import World Transmitter.
Context {F pbch : Type} `{Normalize.SampleArith F}.
Variable rf : RfHandler F.
Variable phy : Phy F pbch.
Variable running : nat -> bool.
Variable config : Config.

(** Whenever the FATAL line has been printed, [transmit_spoofed_ssb]
    still returns true. *)
Lemma fatal_still_returns_true (fuel : nat) (original_ssb : SsbSearchResult F pbch)
    (report : TxReport) :
  transmit_spoofed_ssb rf phy running config fuel original_ssb = Returns report ->
  fatal_reported report = true ->
  returned report = true.
Proof.
  unfold transmit_spoofed_ssb.
  destruct (SsbProcessor.encode_mib _ _ _ _); [|intros [= <-]; discriminate].
  destruct (SsbProcessor.generate_ssb _ _ _ _) as [base_samples ssb_buffer].
  destruct (base_samples =? 0); [intros [= <-]; discriminate|].
  destruct (Burst.build_burst _ _ _ _); [|discriminate].
  destruct (negb (start_tx rf)); [intros [= <-]; discriminate|].
  destruct (continuous_tx (attack config)).
  - destruct (tx_loop _ _ _ _ _ _ _) as [[st why]| |]; try discriminate.
    intros [= <-] _. reflexivity.
  - destruct (_ <? 0); intros [= <-]; discriminate.
Qed.

End TransmitFacts.

(** [main] exits with 0 as soon as the scan finds a cell and
    [transmit_spoofed_ssb] returns true. *)
Lemma main_exit_code_zero {F pbch : Type} (config : Config)
    (ssb_result : World.SsbSearchResult F pbch) (report : Transmitter.TxReport)
    scan_stage transmit_stage :
  Validate.validate config = true ->
  scan_stage config = Returns (true, Some ssb_result) ->
  transmit_stage config ssb_result = Returns report ->
  Transmitter.returned report = true ->
  Main.main (Some config) true true scan_stage transmit_stage = Returns 0.
Proof.
  intros Hv Hscan Htx Hret. unfold Main.main, Main.load_from_file.
  rewrite Hv. cbn [negb]. rewrite Hscan, Htx, Hret. reflexivity.
Qed.

(** C2 on a transport whose transmit call always returns -1, continuous
    mode, no burst limit: the loop makes exactly 10 transmit calls, the
    FATAL line is printed, and yet [transmit_spoofed_ssb] returns true and
    [main] exits with code 0. *)
Theorem fatal_abort_exits_zero :
  Transmitter.always_fails (Scenario.radio Scenario.tx_always_fails) /\
  Transmitter.transmit_spoofed_ssb (Scenario.radio Scenario.tx_always_fails)
    (Scenario.phy (Some 0%nat)) Scenario.always_running Scenario.base_config
    100 Scenario.found_result
  = Returns {| Transmitter.returned := true;
               Transmitter.bursts_sent := 0;
               Transmitter.transmit_calls := 10;
               Transmitter.fatal_reported := true |} /\
  Main.main (Some Scenario.base_config) true true
    (fun config =>
       Scanner.scan_for_ssb (Scenario.radio Scenario.tx_always_fails)
         (Scenario.phy (Some 0%nat)) Scenario.always_running
         Scenario.one_ms_clock config 100)
    (fun config ssb_result =>
       Transmitter.transmit_spoofed_ssb (Scenario.radio Scenario.tx_always_fails)
         (Scenario.phy (Some 0%nat)) Scenario.always_running config 100 ssb_result)
  = Returns 0.
Proof.
  split; [|split].
  - intros k buf n sob eob. cbn. unfold Scenario.tx_always_fails. lia.
  - vm_compute. reflexivity.
  - vm_compute. reflexivity.
Qed.

(** C5 at [max_bursts = 2^32], a transport that always sends and a flag
    that is never cleared: the limit is non-zero, [(int)max_bursts] is 0,
    and the loop ends before its first transmission. *)
Theorem max_bursts_truncated :
  to_int 4294967296 = 0 /\
  Transmitter.always_sends (Scenario.radio Scenario.tx_always_sends) /\
  Transmitter.transmit_spoofed_ssb (Scenario.radio Scenario.tx_always_sends)
    (Scenario.phy (Some 0%nat)) Scenario.always_running
    (Scenario.with_max_bursts 4294967296 Scenario.base_config)
    100 Scenario.found_result
  = Returns {| Transmitter.returned := true;
               Transmitter.bursts_sent := 0;
               Transmitter.transmit_calls := 0;
               Transmitter.fatal_reported := false |}.
Proof.
  split; [|split].
  - vm_compute. reflexivity.
  - intros k buf n sob eob. cbn. unfold Scenario.tx_always_sends. lia.
  - vm_compute. reflexivity.
Qed.

(** ** Scanning: deadline and window *)

Section ScanClaims.
Import World Scanner.
Context {F pbch : Type} `{Normalize.SampleArith F}.
Variable rf : RfHandler F.
Variable phy : Phy F pbch.
Variable running : nat -> bool.
Variable steady_clock : nat -> Z.
Variable config : Config.

(** Once a state is not followed by another loop body, none is later. *)
Lemma scan_iter_none (n m : nat) :
  (n <= m)%nat ->
  scan_iter rf phy running steady_clock config n = None ->
  scan_iter rf phy running steady_clock config m = None.
Proof.
  intros Hle Hn. induction Hle as [|m Hle IH]; [assumption|].
  cbn [scan_iter]. now rewrite IH.
Qed.

(** The loop body is not entered again after the test at which the
    deadline is seen passed. *)
Lemma scan_iter_stops (K n : nat) :
  deadline_passed steady_clock config K = true ->
  (K < n)%nat ->
  scan_iter rf phy running steady_clock config n = None.
Proof.
  intros Hdl Hlt. apply (scan_iter_none (S K) n Hlt).
  cbn [scan_iter].
  destruct (scan_iter rf phy running steady_clock config K) as [st|] eqn:HK;
    [|reflexivity].
  destruct (scan_iter_ok rf phy running steady_clock config K st HK) as [_ Hchk].
  destruct (running (checks st)) eqn:Hrun.
  - rewrite scan_step_timeout; [reflexivity | assumption | now rewrite Hchk].
  - now rewrite scan_step_cancelled.
Qed.

End ScanClaims.

(** C6: with a codec that never reports a find, if the clock reading
    taken at the [K]-th test of the loop condition shows more than
    [scan_duration_sec] elapsed, then [scan_for_ssb] returns false (given
    fuel for [K + 1] tests), and the loop body is never entered after that
    test: the scan does not go on past the deadline. *)
Theorem scan_stops_at_deadline {F pbch : Type} `{Normalize.SampleArith F}
    (rf : World.RfHandler F) (phy : World.Phy F pbch)
    (running : nat -> bool) (steady_clock : nat -> Z) (config : Config)
    (K : nat) :
  Scanner.never_found phy ->
  Scanner.delivers rf ->
  Scanner.deadline_passed steady_clock config K = true ->
  (forall fuel, (K < fuel)%nat ->
     exists last,
       Scanner.scan_for_ssb rf phy running steady_clock config fuel
       = Returns (false, last)) /\
  (forall n, (K < n)%nat ->
     Scanner.scan_iter rf phy running steady_clock config n = None).
Proof.
  intros Hnf Hrx Hdl. split.
  - intros fuel Hfuel. unfold Scanner.scan_for_ssb.
    destruct (negb (World.start_rx rf)); [eexists; reflexivity|].
    apply (scan_loop_deadline rf phy running steady_clock config K K Hnf Hrx Hdl);
      [apply scan_init_ok | reflexivity | assumption].
  - intros n Hn. now apply scan_iter_stops with (K := K).
Qed.

Lemma scan_stops_at_deadline_witness :
  (forall fuel, (3 < fuel)%nat ->
     exists last,
       Scanner.scan_for_ssb (Scenario.radio Scenario.tx_always_sends)
         (Scenario.phy None) Scenario.always_running Scenario.one_second_clock
         Scenario.base_config fuel
       = Returns (false, last)) /\
  (forall n, (3 < n)%nat ->
     Scanner.scan_iter (Scenario.radio Scenario.tx_always_sends)
       (Scenario.phy None) Scenario.always_running Scenario.one_second_clock
       Scenario.base_config n = None).
Proof.
  apply (scan_stops_at_deadline (Scenario.radio Scenario.tx_always_sends)
           (Scenario.phy None) Scenario.always_running
           Scenario.one_second_clock Scenario.base_config 3).
  - intros k buffer nsamples target. reflexivity.
  - intros k n Hpos. cbn in *. rewrite repeat_length.
    unfold to_uint32, two32. pose proof (Z.mod_le n (2 ^ 32)). lia.
  - vm_compute. reflexivity.
Defined.



(** The thirteenth loop body of that run: one sample copied, window
    searched, cursor back at 0. *)
Lemma scan_thirteenth_chunk_clipped :
  match Scanner.scan_iter (Scenario.radio Scenario.tx_always_sends)
          (Scenario.phy None) Scenario.always_running Scenario.one_ms_clock
          Scenario.base_config 13 with
  | Some st => Scanner.search_buffer_pos st = 0 /\ Scanner.searches st = 1%nat
  | None => False
  end.
Proof. vm_compute. split; reflexivity. Qed.

(** ** Validation and limits, on concrete configurations *)

(** A configuration that is valid except for [target_pci = 2000] is
    rejected; the base configuration is accepted. *)
Lemma validate_rejects_iff_witness :
  Validate.validate Scenario.bad_pci_config = false /\
  Validate.validate Scenario.base_config = true.
Proof.
  split.
  - apply (proj2 (validate_rejects_iff Scenario.bad_pci_config)).
    unfold Validate.rejected. do 4 right. left. cbn. lia.
  - vm_compute. reflexivity.
Defined.

(** [max_bursts = 5], every transmission successful: five bursts. *)
Lemma five_bursts :
  Transmitter.transmit_spoofed_ssb (Scenario.radio Scenario.tx_always_sends)
    (Scenario.phy (Some 0%nat)) Scenario.always_running
    (Scenario.with_max_bursts 5 Scenario.base_config)
    100 Scenario.found_result
  = Returns {| Transmitter.returned := true;
               Transmitter.bursts_sent := 5;
               Transmitter.transmit_calls := 5;
               Transmitter.fatal_reported := false |}.
Proof. vm_compute. reflexivity. Qed.

(** ** The limits, on concrete inputs *)

Lemma build_burst_periods_witness :
  exists tx_buffer,
    Burst.build_burst 0 Burst.short_waveform
      (Z.of_nat (length Burst.short_waveform)) 2 = Some tx_buffer /\
    Z.of_nat (length tx_buffer) = Z.of_nat (length Burst.short_waveform) * 2 /\
    forall i j d, (i < Z.to_nat 2)%nat -> (j < length Burst.short_waveform)%nat ->
      nth (i * length Burst.short_waveform + j) tx_buffer d
      = nth j Burst.short_waveform d.
Proof.
  apply (build_burst_periods 0 Burst.short_waveform 2).
  - cbn. lia.
  - lia.
  - vm_compute. reflexivity.
Defined.

Lemma tx_loop_sends_exactly_witness :
  exists st why,
    Transmitter.tx_loop (Scenario.radio Scenario.tx_always_sends)
      Scenario.always_running (Scenario.with_max_bursts 5 Scenario.base_config)
      6 [] 4 Transmitter.tx_init = Returns (st, why) /\
    Transmitter.tx_count st = 5 /\
    Transmitter.iterations st = Z.to_nat 5.
Proof.
  apply (tx_loop_sends_exactly (Scenario.radio Scenario.tx_always_sends)
           Scenario.always_running
           (Scenario.with_max_bursts 5 Scenario.base_config) [] 4 5).
  - intros k buf n sob eob. cbn. unfold Scenario.tx_always_sends. lia.
  - reflexivity.
  - unfold two31. lia.
  - intros k _. reflexivity.
  - cbn. lia.
Defined.

Lemma tx_loop_until_cancelled_witness :
  Transmitter.tx_loop (Scenario.radio Scenario.tx_always_sends)
    (Scenario.running_until 7) Scenario.base_config 8 [] 4 Transmitter.tx_init
  = Returns ({| Transmitter.tx_count := to_int (Z.of_nat 7);
                Transmitter.consecutive_errors := 0;
                Transmitter.iterations := 7 |}, Transmitter.exit_cancelled).
Proof.
  apply (tx_loop_until_cancelled (Scenario.radio Scenario.tx_always_sends)
           (Scenario.running_until 7) Scenario.base_config [] 4 7 8).
  - intros k buf n sob eob. cbn. unfold Scenario.tx_always_sends. lia.
  - reflexivity.
  - intros k Hk. unfold Scenario.running_until. now apply Nat.ltb_lt.
  - reflexivity.
  - lia.
Defined.

Lemma tx_loop_aborts_after_ten_witness :
  Transmitter.tx_loop (Scenario.radio Scenario.tx_always_fails)
    Scenario.always_running Scenario.base_config 10 [] 4 Transmitter.tx_init
  = Returns ({| Transmitter.tx_count := 0;
                Transmitter.consecutive_errors := 10;
                Transmitter.iterations := 10 |}, Transmitter.exit_fatal).
Proof.
  apply (tx_loop_aborts_after_ten (Scenario.radio Scenario.tx_always_fails)
           Scenario.always_running Scenario.base_config [] 4).
  - intros k buf n sob eob. cbn. unfold Scenario.tx_always_fails. lia.
  - left. reflexivity.
  - intros k _. reflexivity.
  - lia.
Defined.

(** ** Configuration file reader *)


(** ** Configuration file reader *)

Section ConfigFileFacts.
Import ConfigFile.
Local Open Scope string_scope.

Lemma find_lacks (c : ascii) (s : string) :
  lacks c s = true -> find c s = None.
Proof.
  induction s as [|a s IH]; cbn; [reflexivity|].
  rewrite andb_true_iff, negb_true_iff. intros [-> Hs]. now rewrite IH.
Qed.

Lemma str_find_app (c : ascii) (a r : string) :
  lacks c a = true ->
  find c (a ++ r) = option_map (Nat.add (String.length a)) (find c r).
Proof.
  induction a as [|x a IH]; cbn.
  - intros _. now destruct (find c r).
  - rewrite andb_true_iff, negb_true_iff. intros [-> Ha].
    rewrite IH by assumption. now destruct (find c r).
Qed.

Lemma find_here (c : ascii) (a r : string) :
  lacks c a = true -> find c (a ++ String c r) = Some (String.length a).
Proof.
  intros Ha. rewrite str_find_app by assumption. cbn. rewrite Ascii.eqb_refl. cbn.
  f_equal. lia.
Qed.

Lemma lacks_app (c : ascii) (a r : string) :
  lacks c (a ++ r) = (lacks c a && lacks c r)%bool.
Proof.
  induction a as [|x a IH]; cbn; [reflexivity|]. now rewrite IH, andb_assoc.
Qed.

Lemma all_blank_lacks (c : ascii) (b : string) :
  is_blank c = false -> all_blank b = true -> lacks c b = true.
Proof.
  intros Hc. induction b as [|x b IH]; cbn; [reflexivity|].
  rewrite andb_true_iff. intros [Hx Hb]. rewrite IH by assumption.
  destruct (Ascii.eqb_spec x c) as [->|]; [congruence | reflexivity].
Qed.

Lemma prefix_of_app (a r : string) : prefix_of (String.length a) (a ++ r) = a.
Proof. induction a as [|x a IH]; cbn; [now destruct r | now rewrite IH]. Qed.

Lemma prefix_of_all (a : string) : prefix_of (String.length a) a = a.
Proof. induction a as [|x a IH]; cbn; [reflexivity | now rewrite IH]. Qed.

Lemma substr_from_app (a r : string) : substr_from (String.length a) (a ++ r) = r.
Proof. induction a as [|x a IH]; cbn; [reflexivity | exact IH]. Qed.

Lemma str_length_app (a r : string) :
  String.length (a ++ r) = (String.length a + String.length r)%nat.
Proof. induction a as [|x a IH]; cbn; [reflexivity | now rewrite IH]. Qed.

Lemma str_app_assoc (a b c : string) : (a ++ b) ++ c = a ++ b ++ c.
Proof. induction a as [|x a IH]; cbn; [reflexivity | now rewrite IH]. Qed.

Lemma str_app_empty_r (a : string) : a ++ "" = a.
Proof. induction a as [|x a IH]; cbn; [reflexivity | now rewrite IH]. Qed.

Lemma trimmed_ends (s : string) :
  s <> "" -> trimmed s = true -> starts_nonblank s /\ ends_nonblank s.
Proof.
  unfold trimmed, starts_nonblank, ends_nonblank.
  destruct s as [|a s]; [congruence|]. intros _. cbn [front].
  destruct (back (String a s)) as [b|] eqn:Hb.
  - rewrite andb_true_iff, !negb_true_iff. intros [Ha Hbl]. split; eauto.
  - exfalso. clear -Hb. revert a Hb. induction s as [|x s IH]; intros a; cbn.
    + discriminate.
    + intros Hb. now apply (IH x).
Qed.

Lemma first_not_blank_app (b s : string) :
  all_blank b = true -> starts_nonblank s ->
  find_first_not_of_blank (b ++ s) = Some (String.length b).
Proof.
  intros Hb (a & s' & -> & Ha). induction b as [|x b IH]; cbn.
  - now rewrite Ha.
  - cbn in Hb. apply andb_true_iff in Hb. destruct Hb as [Hx Hb].
    rewrite Hx, IH by assumption. reflexivity.
Qed.

Lemma first_not_blank_none (b : string) :
  all_blank b = true -> find_first_not_of_blank b = None.
Proof.
  induction b as [|x b IH]; cbn; [reflexivity|].
  rewrite andb_true_iff. intros [-> Hb]. now rewrite IH.
Qed.

Lemma last_not_blank_none (b : string) :
  all_blank b = true -> find_last_not_of_blank b = None.
Proof.
  induction b as [|x b IH]; cbn; [reflexivity|].
  rewrite andb_true_iff. intros [-> Hb]. now rewrite IH.
Qed.

Lemma back_app_cons (a : string) (x : ascii) (r : string) :
  back (a ++ String x r) = back (String x r).
Proof.
  induction a as [|y a IH]; [reflexivity|].
  cbn [append]. change (back (String y (a ++ String x r)))
    with (match a ++ String x r with
          | EmptyString => Some y
          | String _ _ => back (a ++ String x r)
          end).
  destruct (a ++ String x r) eqn:E.
  - destruct a; discriminate.
  - exact IH.
Qed.

Lemma last_not_blank_app (s b : string) :
  ends_nonblank s -> all_blank b = true ->
  find_last_not_of_blank (s ++ b) = Some (String.length s - 1)%nat.
Proof.
  intros (z & Hz & Hzb) Hb. induction s as [|x s IH]; [discriminate|].
  cbn [append find_last_not_of_blank].
  destruct s as [|y s].
  - cbn in Hz. injection Hz as ->. cbn [append].
    rewrite (last_not_blank_none b Hb), Hzb. reflexivity.
  - rewrite IH by exact Hz. cbn. f_equal. lia.
Qed.

(** The two trimming steps on a padded payload give the payload back. *)
Lemma trim_padded (indent p trail : string) :
  all_blank indent = true -> all_blank trail = true ->
  starts_nonblank p -> ends_nonblank p ->
  find_first_not_of_blank (indent ++ p ++ trail) = Some (String.length indent) /\
  substr (String.length indent)
    (match find_last_not_of_blank (indent ++ p ++ trail) with
     | Some e => e | None => O end - String.length indent + 1)
    (indent ++ p ++ trail) = p.
Proof.
  intros Hi Ht Hs He. split.
  - destruct Hs as (a & s' & -> & Ha). cbn [append].
    apply first_not_blank_app; [assumption|]. exists a, (s' ++ trail). auto.
  - rewrite <- str_app_assoc.
    assert (Hne : ends_nonblank (indent ++ p)).
    { destruct He as (z & Hz & Hzb). exists z. split; [|assumption].
      destruct p as [|a p]; [discriminate|]. now rewrite back_app_cons. }
    rewrite (last_not_blank_app _ _ Hne Ht).
    rewrite str_app_assoc. unfold substr. rewrite substr_from_app.
    rewrite str_length_app.
    assert (0 < String.length p)%nat
      by (destruct He as (z & Hz & _); destruct p; [discriminate | cbn; lia]).
    replace (String.length indent + String.length p - 1
             - String.length indent + 1)%nat with (String.length p) by lia.
    apply prefix_of_app.
Qed.

Lemma erase_leading_padded (b s : string) :
  all_blank b = true -> starts_nonblank s -> erase_leading_blanks (b ++ s) = s.
Proof.
  intros Hb Hs. unfold erase_leading_blanks.
  rewrite first_not_blank_app by assumption. apply substr_from_app.
Qed.

Lemma erase_trailing_padded (s b : string) :
  ends_nonblank s -> all_blank b = true -> erase_trailing_blanks (s ++ b) = s.
Proof.
  intros Hs Hb. unfold erase_trailing_blanks.
  rewrite last_not_blank_app by assumption.
  assert (0 < String.length s)%nat
    by (destruct Hs as (z & Hz & _); destruct s; [discriminate | cbn; lia]).
  replace (S (String.length s - 1)) with (String.length s) by lia.
  apply prefix_of_app.
Qed.

(** Stripping the comment of [payload ++ comment]. *)
Lemma strip_comment (payload comment : string) :
  lacks "#" payload = true -> comment_or_empty comment = true ->
  match find "#" (payload ++ comment) with
  | Some comment_pos => substr 0 comment_pos (payload ++ comment)
  | None => payload ++ comment
  end = payload.
Proof.
  intros Hp Hc. destruct comment as [|c comment].
  - rewrite str_app_empty_r, find_lacks by assumption. reflexivity.
  - cbn in Hc. apply Ascii.eqb_eq in Hc. subst c.
    rewrite find_here by assumption. unfold substr. cbn [substr_from].
    apply prefix_of_app.
Qed.

End ConfigFileFacts.

Section ParseLineFacts.
Import ConfigFile.
Local Open Scope string_scope.

Lemma lacks_prefix_of (c : ascii) (n : nat) (s : string) :
  lacks c s = true -> lacks c (prefix_of n s) = true.
Proof.
  revert s. induction n as [|n IH]; intros [|a s]; cbn; try reflexivity.
  rewrite andb_true_iff. intros [-> Hs]. now rewrite IH.
Qed.

Lemma lacks_substr_from (c : ascii) (n : nat) (s : string) :
  lacks c s = true -> lacks c (substr_from n s) = true.
Proof.
  revert s. induction n as [|n IH]; intros [|a s]; cbn; try reflexivity; auto.
  rewrite andb_true_iff. intros [_ Hs]. now apply IH.
Qed.

(** A line with no colon before its comment (a blank line, a comment,
    plain words) changes neither the map nor the current section. *)
Lemma parse_line_skip (st : config_map * string) (line : string) :
  inert_line line -> parse_line st line = st.
Proof.
  intros (payload & comment & -> & Hhash & Hcolon & Hc).
  destruct st as [m current_section]. unfold parse_line.
  rewrite (strip_comment payload comment Hhash Hc).
  destruct (find_first_not_of_blank payload) as [start|]; [|reflexivity].
  set (l := substr start _ payload).
  assert (Hl : lacks ":" l = true)
    by (apply lacks_prefix_of, lacks_substr_from; exact Hcolon).
  destruct l as [|a l]; [reflexivity|].
  rewrite (find_lacks _ _ Hl), andb_false_r. reflexivity.
Qed.

Lemma back_snoc (s : string) (c : ascii) : back (s ++ String c "") = Some c.
Proof. now rewrite back_app_cons. Qed.

(** A line [name:] (indented or not, with or without a trailing
    comment) makes [name] the current section and leaves the map alone;
    blanks between the name and the colon stay in the section name. *)
Lemma parse_line_section (m : config_map)
    (current_section indent name trail comment : string) :
  all_blank indent = true -> all_blank trail = true ->
  comment_or_empty comment = true ->
  lacks "#" name = true -> lacks ":" name = true ->
  (name = "" \/ starts_nonblank name) ->
  parse_line (m, current_section) (indent ++ name ++ ":" ++ trail ++ comment)
  = (m, name).
Proof.
  intros Hi Ht Hc Hhash Hcolon Hstart. unfold parse_line.
  replace (indent ++ name ++ ":" ++ trail ++ comment)
    with ((indent ++ (name ++ ":") ++ trail) ++ comment)
    by (rewrite !str_app_assoc; reflexivity).
  rewrite strip_comment; [| | assumption].
  2:{ rewrite !lacks_app, Hhash.
      rewrite (all_blank_lacks "#" indent), (all_blank_lacks "#" trail);
        auto. }
  assert (Hs : starts_nonblank (name ++ ":")).
  { destruct Hstart as [-> | (a & s' & -> & Ha)].
    - exists ":"%char, "". auto.
    - exists a, (s' ++ ":"). auto. }
  assert (He : ends_nonblank (name ++ ":"))
    by (exists ":"%char; split; [apply back_snoc | reflexivity]).
  destruct (trim_padded indent (name ++ ":") trail Hi Ht Hs He) as [-> ->].
  destruct (name ++ ":") as [|a l] eqn:El; [destruct name; discriminate|].
  rewrite <- El. rewrite back_snoc, find_here by assumption.
  cbn [has_char]. rewrite Ascii.eqb_refl, str_length_app. cbn [String.length andb].
  replace (String.length name =? String.length name + 1 - 1)%nat with true
    by (symmetry; apply Nat.eqb_eq; lia).
  unfold substr. cbn [substr_from].
  replace (String.length name + 1 - 1)%nat with (String.length name) by lia.
  now rewrite prefix_of_app.
Qed.

Lemma parse_line_section_witness :
  parse_line ([], "rf") "  attack:   # attack options" = ([], "attack").
Proof.
  apply (parse_line_section [] "rf" "  " "attack" "   " "# attack options");
    try reflexivity.
  right. exists "a"%char, "ttack". split; reflexivity.
Defined.

(** A key-value line, before the quotes are looked at. *)
Lemma parse_line_assign (m : config_map)
    (current_section indent key sep1 sep2 value trail comment : string) :
  all_blank indent = true -> all_blank sep1 = true ->
  all_blank sep2 = true -> all_blank trail = true ->
  comment_or_empty comment = true ->
  key <> "" -> trimmed key = true ->
  lacks "#" key = true -> lacks ":" key = true ->
  value <> "" -> trimmed value = true -> lacks "#" value = true ->
  parse_line (m, current_section)
    (indent ++ key ++ sep1 ++ ":" ++ sep2 ++ value ++ trail ++ comment)
  = (assign (full_key current_section key)
       (if (has_char quote (front value) && has_char quote (back value))%bool
        then substr 1 (String.length value - 2) value else value) m,
     current_section).
Proof.
  intros Hi H1 H2 Ht Hc Hk Hkt Hkh Hkc Hv Hvt Hvh.
  destruct (trimmed_ends key Hk Hkt) as [Hks Hke].
  destruct (trimmed_ends value Hv Hvt) as [Hvs Hve].
  unfold parse_line.
  replace (indent ++ key ++ sep1 ++ ":" ++ sep2 ++ value ++ trail ++ comment)
    with ((indent ++ (key ++ sep1 ++ ":" ++ sep2 ++ value) ++ trail) ++ comment)
    by (rewrite !str_app_assoc; reflexivity).
  remember (key ++ sep1 ++ ":" ++ sep2 ++ value) as p eqn:Hp.
  rewrite strip_comment; [| | assumption].
  2:{ rewrite Hp, !lacks_app, Hkh, Hvh.
      rewrite (all_blank_lacks "#" indent), (all_blank_lacks "#" sep1),
        (all_blank_lacks "#" sep2), (all_blank_lacks "#" trail); auto. }
  assert (Hps : starts_nonblank p).
  { destruct Hks as (a & s' & -> & Ha).
    exists a, (s' ++ sep1 ++ ":" ++ sep2 ++ value). rewrite Hp. auto. }
  assert (Hpb : back p = back value).
  { rewrite Hp. destruct Hvs as (a & s' & -> & _).
    replace (key ++ sep1 ++ ":" ++ sep2 ++ String a s')
      with ((key ++ sep1 ++ ":" ++ sep2) ++ String a s')
      by (rewrite !str_app_assoc; reflexivity).
    apply back_app_cons. }
  assert (Hpe : ends_nonblank p).
  { destruct Hve as (z & Hz & Hzb). exists z. now rewrite Hpb. }
  destruct (trim_padded indent p trail Hi Ht Hps Hpe) as [-> ->].
  assert (Hfind : find ":" p = Some (String.length (key ++ sep1))).
  { rewrite Hp, <- str_app_assoc. apply find_here.
    rewrite lacks_app, Hkc. now rewrite (all_blank_lacks ":" sep1). }
  assert (Hlen : (String.length (key ++ sep1) <> String.length p - 1)%nat).
  { rewrite Hp, !str_length_app. cbn [String.length].
    destruct value; [congruence | cbn; lia]. }
  assert (Hkey : substr 0 (String.length (key ++ sep1)) p = key ++ sep1).
  { rewrite Hp. unfold substr. cbn [substr_from].
    rewrite <- str_app_assoc. apply prefix_of_app. }
  assert (Hval : substr_from (String.length (key ++ sep1) + 1) p = sep2 ++ value).
  { rewrite Hp.
    replace (key ++ sep1 ++ ":" ++ sep2 ++ value)
      with (((key ++ sep1) ++ ":") ++ sep2 ++ value)
      by (rewrite !str_app_assoc; reflexivity).
    replace (String.length (key ++ sep1) + 1)%nat
      with (String.length ((key ++ sep1) ++ ":"))
      by (rewrite (str_length_app (key ++ sep1) ":"); reflexivity).
    apply substr_from_app. }
  clear Hp.
  destruct p as [|a l] eqn:Ep; [destruct Hps as (? & ? & ? & _); discriminate|].
  rewrite <- Ep in *. rewrite Hfind.
  replace (String.length (key ++ sep1) =? String.length p - 1)%nat with false
    by (symmetry; now apply Nat.eqb_neq).
  rewrite andb_false_r.
  rewrite Hkey, Hval.
  replace (erase_leading_blanks (key ++ sep1)) with (key ++ sep1)
    by (symmetry; apply (erase_leading_padded "" (key ++ sep1)); [reflexivity|];
        destruct Hks as (x & s' & -> & Hx); exists x, (s' ++ sep1); auto).
  rewrite erase_trailing_padded by assumption.
  rewrite erase_leading_padded by assumption.
  pose proof (erase_trailing_padded value "" Hve eq_refl) as Etrim.
  rewrite str_app_empty_r in Etrim. rewrite Etrim.
  reflexivity.
Qed.

End ParseLineFacts.

Section ParseFileFacts.
Import ConfigFile.
Local Open Scope string_scope.

(** A line [key: value] stores [value] under [section.key] (under
    [key] alone outside any section), whatever the indentation, the blanks
    around the colon and after the value, and the trailing comment; the
    value may hold colons, and a ['#'] cuts it even inside quotes. *)
Lemma parse_line_key_value (m : config_map)
    (current_section indent key sep1 sep2 value trail comment : string) :
  all_blank indent = true -> all_blank sep1 = true ->
  all_blank sep2 = true -> all_blank trail = true ->
  comment_or_empty comment = true ->
  key <> "" -> trimmed key = true ->
  lacks "#" key = true -> lacks ":" key = true ->
  value <> "" -> trimmed value = true -> lacks "#" value = true ->
  (has_char quote (front value) && has_char quote (back value))%bool = false ->
  parse_line (m, current_section)
    (indent ++ key ++ sep1 ++ ":" ++ sep2 ++ value ++ trail ++ comment)
  = (assign (full_key current_section key) value m, current_section).
Proof.
  intros Hi H1 H2 Ht Hc Hk Hkt Hkh Hkc Hv Hvt Hvh Hq.
  rewrite parse_line_assign by assumption. now rewrite Hq.
Qed.

Lemma parse_line_key_value_witness :
  parse_line ([], "rf") "  device_args : type=b200,addr=1:2   # usb"
  = ([("rf.device_args", "type=b200,addr=1:2")], "rf").
Proof.
  apply (parse_line_key_value [] "rf" "  " "device_args" " " " "
           "type=b200,addr=1:2" "   " "# usb");
    try reflexivity; discriminate.
Defined.

Lemma prefix_of_snoc (w : string) (c : ascii) :
  prefix_of (String.length w) (w ++ String c "") = w.
Proof. apply prefix_of_app. Qed.

(** A value written between double quotes is stored without them and
    otherwise untouched: blanks next to the quotes inside are kept. *)
Lemma parse_line_quoted (m : config_map)
    (current_section indent key sep1 sep2 text trail comment : string) :
  all_blank indent = true -> all_blank sep1 = true ->
  all_blank sep2 = true -> all_blank trail = true ->
  comment_or_empty comment = true ->
  key <> "" -> trimmed key = true ->
  lacks "#" key = true -> lacks ":" key = true ->
  lacks "#" text = true ->
  parse_line (m, current_section)
    (indent ++ key ++ sep1 ++ ":" ++ sep2
     ++ (String quote (text ++ String quote "")) ++ trail ++ comment)
  = (assign (full_key current_section key) text m, current_section).
Proof.
  intros Hi H1 H2 Ht Hc Hk Hkt Hkh Hkc Hth.
  assert (Hback : back (String quote (text ++ String quote "")) = Some quote).
  { change (String quote (text ++ String quote ""))
      with ((String quote "") ++ text ++ String quote "").
    rewrite <- str_app_assoc. apply back_snoc. }
  rewrite parse_line_assign; try assumption.
  - rewrite Hback. cbn [front has_char]. rewrite Ascii.eqb_refl. cbn [andb].
    unfold substr. cbn [substr_from String.length].
    rewrite str_length_app. cbn [String.length].
    replace (S (String.length text + 1) - 2)%nat with (String.length text) by lia.
    now rewrite prefix_of_snoc.
  - discriminate.
  - unfold trimmed. rewrite Hback. reflexivity.
  - cbn [lacks]. rewrite lacks_app, Hth. reflexivity.
Qed.

Lemma parse_line_quoted_witness :
  parse_line ([], "operation")
    ("log_file: " ++ String quote (" my log.txt " ++ String quote ""))
  = ([("operation.log_file", " my log.txt ")], "operation").
Proof.
  apply (parse_line_quoted [] "operation" "" "log_file" "" " " " my log.txt "
           "" ""); try reflexivity; discriminate.
Defined.

Lemma parse_lines_inert (lines : list string) (st : config_map * string) :
  Forall inert_line lines -> fold_left parse_line lines st = st.
Proof.
  intros Hl. revert st. induction Hl as [|line lines Hline _ IH]; intros st;
    cbn [fold_left]; [reflexivity|].
  rewrite parse_line_skip by assumption. apply IH.
Qed.

Variable extract_double : string -> option float.
Variable extract_float : string -> option float.
Variable extract_uint32 : string -> option Z.
Variable extract_uint64 : string -> option Z.

(** A file that cannot be opened, and a file whose every line is
    blank, a comment or colon-free text, make [load_from_file] fail and
    leave the caller's configuration object as it was. *)
Lemma load_from_file_nothing_set (file : option (list string)) (config : Config) :
  match file with
  | None => True
  | Some lines => Forall inert_line lines
  end ->
  load_from_file extract_double extract_float extract_uint32 extract_uint64
    file config = (false, config).
Proof.
  intros Hfile. unfold load_from_file, parse_config_file.
  destruct file as [lines|]; [|reflexivity].
  now rewrite parse_lines_inert.
Qed.

(** A file that binds something, but none of the keys the loader looks
    up, loads the defaults, and the defaults pass validation; the two
    fields the loader never assigns keep the caller's values. *)
Lemma load_from_file_defaults (file : option (list string)) (config : Config) :
  parse_config_file file <> [] ->
  (forall key, In key known_keys -> lookup key (parse_config_file file) = None) ->
  load_from_file extract_double extract_float extract_uint32 extract_uint64
    file config = (true, defaults config).
Proof.
  intros Hne Hnone. unfold load_from_file.
  destruct (parse_config_file file) as [|b m] eqn:Em; [congruence|].
  assert (Hfill : fill extract_double extract_float extract_uint32 extract_uint64
                    (b :: m) config = defaults config).
  { unfold fill, get_string, get_bool, get_value.
    repeat match goal with
           | |- context [lookup ?k (b :: m)] =>
               rewrite (Hnone k) by (cbn; tauto)
           end.
    reflexivity. }
  rewrite Hfill. f_equal.
Qed.

(** Whenever [load_from_file] returns true, the configuration it
    leaves has a non-empty source and lies inside every validated range. *)
Lemma load_from_file_valid (file : option (list string)) (config loaded : Config) :
  load_from_file extract_double extract_float extract_uint32 extract_uint64
    file config = (true, loaded) ->
  parse_config_file file <> [] /\
  (srate_hz (rf loaded) <=? 0)%float = false /\
  (rx_freq_hz (rf loaded) <=? 0)%float = false /\
  (tx_freq_hz (rf loaded) <=? 0)%float = false /\
  In (pattern (ssb loaded)) Validate.ssb_patterns /\
  (scs_khz (ssb loaded) = 15 \/ scs_khz (ssb loaded) = 30)%Z /\
  (target_pci (attack loaded) <= 1007)%Z /\
  (coreset0_idx_value (attack loaded) <= 15)%Z /\
  (ss0_idx_value (attack loaded) <= 15)%Z.
Proof.
  unfold load_from_file.
  destruct (parse_config_file file) as [|b m]; [discriminate|].
  intros [= Hvalid <-]. split; [discriminate|].
  set (c := fill _ _ _ _ _ _) in *.
  apply validate_accepts_iff in Hvalid. unfold Validate.rejected in Hvalid.
  destruct (srate_hz (rf c) <=? 0)%float eqn:E1; [tauto|].
  destruct (rx_freq_hz (rf c) <=? 0)%float eqn:E2; [tauto|].
  destruct (tx_freq_hz (rf c) <=? 0)%float eqn:E3; [tauto|].
  repeat split; first [lia | tauto].
Qed.

End ParseFileFacts.

Lemma load_from_file_nothing_set_witness :
  ConfigFile.load_from_file ConfigFile.extract_nothing ConfigFile.extract_nothing
    ConfigFile.extract_nothing ConfigFile.extract_nothing
    ConfigFile.comment_file Scenario.base_config
  = (false, Scenario.base_config).
Proof.
  apply (load_from_file_nothing_set ConfigFile.extract_nothing
           ConfigFile.extract_nothing ConfigFile.extract_nothing
           ConfigFile.extract_nothing ConfigFile.comment_file
           Scenario.base_config).
  cbn. repeat constructor.
  - exists ""%string, "# ssb spoofer"%string. repeat split.
  - exists ""%string, ""%string. repeat split.
  - exists "   "%string, "# nothing set"%string. repeat split.
  - exists "plain words"%string, ""%string. repeat split.
Defined.

Lemma load_from_file_defaults_witness :
  ConfigFile.load_from_file ConfigFile.extract_nothing ConfigFile.extract_nothing
    ConfigFile.extract_nothing ConfigFile.extract_nothing
    ConfigFile.unrelated_file Scenario.base_config
  = (true, ConfigFile.defaults Scenario.base_config).
Proof.
  apply (load_from_file_defaults ConfigFile.extract_nothing
           ConfigFile.extract_nothing ConfigFile.extract_nothing
           ConfigFile.extract_nothing ConfigFile.unrelated_file
           Scenario.base_config).
  - discriminate.
  - intros key Hkey. cbn in Hkey.
    repeat (destruct Hkey as [<- | Hkey]; [reflexivity|]). contradiction.
Defined.

Lemma load_from_file_valid_witness :
  ConfigFile.parse_config_file ConfigFile.unrelated_file <> [] /\
  (srate_hz (rf (ConfigFile.defaults Scenario.base_config)) <=? 0)%float
  = false /\
  (rx_freq_hz (rf (ConfigFile.defaults Scenario.base_config)) <=? 0)%float
  = false /\
  (tx_freq_hz (rf (ConfigFile.defaults Scenario.base_config)) <=? 0)%float
  = false /\
  In (pattern (ssb (ConfigFile.defaults Scenario.base_config)))
     Validate.ssb_patterns /\
  (scs_khz (ssb (ConfigFile.defaults Scenario.base_config)) = 15 \/
   scs_khz (ssb (ConfigFile.defaults Scenario.base_config)) = 30)%Z /\
  (target_pci (attack (ConfigFile.defaults Scenario.base_config)) <= 1007)%Z /\
  (coreset0_idx_value (attack (ConfigFile.defaults Scenario.base_config))
   <= 15)%Z /\
  (ss0_idx_value (attack (ConfigFile.defaults Scenario.base_config)) <= 15)%Z.
Proof.
  apply (load_from_file_valid ConfigFile.extract_nothing
           ConfigFile.extract_nothing ConfigFile.extract_nothing
           ConfigFile.extract_nothing ConfigFile.unrelated_file
           Scenario.base_config (ConfigFile.defaults Scenario.base_config)).
  vm_compute. reflexivity.
Defined.

(** ** RF handler: use of the RF library *)

Section RfDeviceFacts.
Import RfDevice.
Context {A : Type}.
Variable dev : srsran_rf A.

Lemma is_open_app (t u : trace) (o : bool) :
  is_open o (t ++ u) = is_open (is_open o t) u.
Proof.
  revert o. induction t as [|e t IH]; intros o; [reflexivity|].
  destruct e; cbn [app is_open]; apply IH.
Qed.

Lemma well_used_app (t u : trace) (o : bool) :
  well_used o (t ++ u) = (well_used o t && well_used (is_open o t) u)%bool.
Proof.
  revert o. induction t as [|e t IH]; intros o; [reflexivity|].
  destruct e; cbn [app is_open well_used]; rewrite IH;
    try reflexivity; now rewrite andb_assoc.
Qed.

Lemma open_args_app (t u : trace) :
  open_args (t ++ u) = open_args t ++ open_args u.
Proof.
  induction t as [|e t IH]; [reflexivity|].
  destruct e; cbn [app open_args]; now rewrite IH.
Qed.

Lemma prefix_of_length (n : nat) (s : string) :
  (String.length (ConfigFile.prefix_of n s) <= n)%nat.
Proof.
  revert s. induction n as [|n IH]; intros [|a s]; cbn; try lia.
  specialize (IH s). lia.
Qed.

Ltac step_trace :=
  repeat (cbn [snd calls called initialized_ config_ app is_open well_used
               open_args andb negb] in *;
          rewrite ?well_used_app, ?is_open_app, ?open_args_app in *).

Lemma sound_after (h : handler) (m : method) :
  sound h -> sound (after dev h m).
Proof.
  intros (Hw & Ho & Ha). unfold sound.
  assert (Hlen : forall config,
             (String.length (snprintf 256 (device_args config)) <= 255)%nat)
    by (intros; apply prefix_of_length).
  destruct m; cbn [after];
    unfold init, start_rx, stop_rx, start_tx, stop_tx, receive, transmit,
      set_rx_freq, set_tx_freq, set_rx_gain, set_tx_gain, set_sample_rate,
      get_time;
    destruct (initialized_ h) eqn:Hi; cbn [negb snd];
    try (rewrite Hi; split; [|split]; assumption);
    try destruct (srsran_rf_recv _ _ _ _);
    repeat match goal with
           | |- context [if negb (?s =? SRSRAN_SUCCESS) then _ else _] =>
               destruct (s =? SRSRAN_SUCCESS) eqn:?; cbn [negb snd]
           end;
    step_trace; rewrite ?Hw, ?Ho, ?Hi, ?app_nil_r;
    repeat match goal with
           | H : (?s =? SRSRAN_SUCCESS) = _
             |- context [?s =? SRSRAN_SUCCESS] => rewrite H
           end;
    cbn [andb negb];
    (split; [reflexivity | split; [reflexivity|]]);
    try assumption;
    repeat (apply Forall_app; split);
    first [assumption | constructor; [apply Hlen | constructor] | constructor].
Qed.

Lemma sound_lifetime (ms : list method) : sound (lifetime dev ms).
Proof.
  unfold lifetime.
  assert (H0 : sound fresh) by (repeat split; constructor).
  revert H0. generalize fresh as h.
  induction ms as [|m ms IH]; intros h Hh; [exact Hh|].
  cbn [fold_left]. apply IH, sound_after, Hh.
Qed.

(** Whatever the client does with the object and whatever the library
    answers, the handler keeps to the library's rules: it opens the device
    only while it is closed and makes every other call on an open device;
    the device is open exactly while [initialized_] holds, so a failed
    [init] leaves it closed; and once the object is destroyed the device is
    closed. *)
Lemma handler_respects_device (ms : list method) :
  let h := lifetime dev ms in
  well_used false (calls h) = true /\
  is_open false (calls h) = initialized_ h /\
  well_used false (calls (destroy h)) = true /\
  is_open false (calls (destroy h)) = false.
Proof.
  cbn zeta. destruct (sound_lifetime ms) as (Hw & Ho & _).
  repeat split; try assumption; unfold destroy;
    destruct (initialized_ (lifetime dev ms)) eqn:Hi; try assumption;
    step_trace; rewrite ?Hw, ?Ho; try reflexivity; congruence.
Qed.

(** The device is never opened with more than 255 characters of
    arguments: [init] cuts a longer [device_args] instead of failing. *)
Lemma open_args_at_most_255 (ms : list method) (args : string) :
  In args (open_args (calls (lifetime dev ms))) ->
  (String.length args <= 255)%nat.
Proof.
  intros Hin. destruct (sound_lifetime ms) as (_ & _ & Ha).
  rewrite Forall_forall in Ha. now apply Ha.
Qed.

(** [device_name] plays no part in [init]: two configurations that differ
    in it alone give the same result and the same calls on the device. *)
Lemma init_ignores_device_name (name : string) (config : RfConfig) (h : handler) :
  fst (init dev (with_device_name name config) h) = fst (init dev config h) /\
  calls (snd (init dev (with_device_name name config) h))
  = calls (snd (init dev config h)) /\
  initialized_ (snd (init dev (with_device_name name config) h))
  = initialized_ (snd (init dev config h)).
Proof.
  unfold init. destruct (initialized_ h); [repeat split|].
  cbn [with_device_name device_args rx_gain_db tx_gain_db srate_hz rx_freq_hz
       tx_freq_hz calls called initialized_ config_].
  repeat match goal with
         | |- context [if negb (?s =? SRSRAN_SUCCESS) then _ else _] =>
             destruct (s =? SRSRAN_SUCCESS) eqn:?; cbn [negb]
         end; repeat split.
Qed.

End RfDeviceFacts.

Lemma open_args_at_most_255_witness :
  (String.length (RfDevice.padding 255) <= 255)%nat.
Proof.
  apply (open_args_at_most_255 RfDevice.obliging
           [RfDevice.call_init RfDevice.long_args_config]).
  vm_compute. left. reflexivity.
Defined.

(** ** SsbProcessor: construction and configuration *)

Section SsbSetupFacts.
Import SsbSetup.
Variable lib : srsran_ssb.

(** [init] raises [initialized_] before it configures.  When the library
    initialises but refuses the configuration, [init] returns false and yet
    leaves the object initialized, so that every later [init] is refused
    without a call to the library; only [configure] can still be tried. *)
Lemma init_refused_after_failed_configure
    (config config' : SsbConfig) (srate_hz center_freq_hz srate_hz'
     center_freq_hz' : float) (p : processor) :
  initialized_ p = false ->
  srsran_ssb_init lib (calls p) (init_args srate_hz) = 0 ->
  srsran_ssb_set_cfg lib (calls p ++ [ssb_init (init_args srate_hz)])
    (ssb_cfg config srate_hz center_freq_hz) <> 0 ->
  let p1 := snd (init lib config srate_hz center_freq_hz p) in
  fst (init lib config srate_hz center_freq_hz p) = false /\
  initialized_ p1 = true /\
  init lib config' srate_hz' center_freq_hz' p1 = (false, p1).
Proof.
  intros Hp Hinit Hcfg. cbn zeta.
  assert (E : exists p1,
             init lib config srate_hz center_freq_hz p = (false, p1) /\
             initialized_ p1 = true).
  { unfold init. rewrite Hp, Hinit. cbn [Z.eqb negb]. unfold configure.
    cbn [initialized_ negb calls].
    apply Z.eqb_neq in Hcfg. rewrite Hcfg. eexists. split; reflexivity. }
  destruct E as (p1 & -> & Hp1). cbn [fst snd].
  repeat split; [exact Hp1|]. unfold init. now rewrite Hp1.
Qed.

(** For a configuration [validate] accepts, [configure] hands the library
    exactly the pattern and the subcarrier spacing the configuration
    names: neither conversion takes its defaulting branch. *)
Lemma configure_validated (config : Config) (srate_hz center_freq_hz : float) :
  Validate.validate config = true ->
  In (pattern (ssb config),
      cfg_pattern (ssb_cfg (ssb config) srate_hz center_freq_hz))
     named_patterns /\
  In (scs_khz (ssb config),
      cfg_scs (ssb_cfg (ssb config) srate_hz center_freq_hz))
     named_spacings.
Proof.
  intros Hvalid. apply validate_accepts_iff in Hvalid.
  unfold Validate.rejected in Hvalid.
  assert (Hp : In (pattern (ssb config)) Validate.ssb_patterns).
  { destruct (in_dec string_dec (pattern (ssb config)) Validate.ssb_patterns);
      [assumption | tauto]. }
  assert (Hs : scs_khz (ssb config) = 15 \/ scs_khz (ssb config) = 30) by lia.
  cbn [ssb_cfg cfg_pattern cfg_scs]. split.
  - cbn in Hp. destruct Hp as [<-|[<-|[<-|[<-|[<-|[]]]]]]; cbn; tauto.
  - destruct Hs as [-> | ->]; cbn; tauto.
Qed.

End SsbSetupFacts.

Lemma init_refused_after_failed_configure_witness :
  fst (SsbSetup.init SsbSetup.refuses_cfg (ssb Scenario.base_config)
         23040000 3510000000 SsbSetup.fresh) = false /\
  SsbSetup.initialized_
    (snd (SsbSetup.init SsbSetup.refuses_cfg (ssb Scenario.base_config)
            23040000 3510000000 SsbSetup.fresh)) = true /\
  SsbSetup.init SsbSetup.refuses_cfg (ssb Scenario.base_config)
    23040000 3510000000
    (snd (SsbSetup.init SsbSetup.refuses_cfg (ssb Scenario.base_config)
            23040000 3510000000 SsbSetup.fresh))
  = (false,
     snd (SsbSetup.init SsbSetup.refuses_cfg (ssb Scenario.base_config)
            23040000 3510000000 SsbSetup.fresh)).
Proof.
  apply (init_refused_after_failed_configure SsbSetup.refuses_cfg
           (ssb Scenario.base_config) (ssb Scenario.base_config)
           23040000 3510000000 23040000 3510000000 SsbSetup.fresh);
    [reflexivity | reflexivity | discriminate].
Defined.

Lemma configure_validated_witness :
  In (pattern (ssb Scenario.base_config),
      SsbSetup.cfg_pattern
        (SsbSetup.ssb_cfg (ssb Scenario.base_config) 23040000 3510000000))
     SsbSetup.named_patterns /\
  In (scs_khz (ssb Scenario.base_config),
      SsbSetup.cfg_scs
        (SsbSetup.ssb_cfg (ssb Scenario.base_config) 23040000 3510000000))
     SsbSetup.named_spacings.
Proof.
  apply (configure_validated Scenario.base_config 23040000 3510000000).
  reflexivity.
Defined.

(** ** Command line of the spoofer *)

Section CommandLineFacts.
Import CommandLine.
Local Open Scope string_scope.

Lemma last_cons_default {A : Type} (l : list A) (x d d' : A) :
  last (x :: l) d = last (x :: l) d'.
Proof.
  revert x. induction l as [|y l IH]; intros x; [reflexivity|].
  change (last (y :: l) d = last (y :: l) d'). apply IH.
Qed.

(** A command line made of [-c]/[--config] options alone runs with the
    file named last ([config.yaml] when there is none).  Whatever follows
    the option is taken as the file name, [-h] included. *)
Lemma parse_command_line_last_config (pairs : list (string * string)) :
  Forall (fun p => is_config_flag (fst p) = true) pairs ->
  parse_command_line (flatten pairs)
  = Run (last (map snd pairs) "config.yaml").
Proof.
  intros Hflags. unfold parse_command_line.
  generalize "config.yaml" as config_file.
  induction Hflags as [|[flag value] pairs Hflag _ IH]; intros config_file;
    [reflexivity|].
  cbn [flatten parse_from fst] in *. unfold is_config_flag in Hflag.
  assert (Hh : ((flag =? "-h") || (flag =? "--help"))%bool = false).
  { apply orb_true_iff in Hflag.
    destruct Hflag as [Hf | Hf]; apply String.eqb_eq in Hf; subst; reflexivity. }
  rewrite Hh, Hflag, IH. cbn [map snd].
  destruct pairs as [|q pairs]; [reflexivity|].
  cbn [map]. change (last (value :: snd q :: map snd pairs) config_file)
    with (last (snd q :: map snd pairs) config_file).
  f_equal. apply last_cons_default.
Qed.

(** The loop stops at the first argument that is neither a configuration
    option nor its value: with exit code 0 when it is [-h] or [--help],
    whatever comes after it, and with exit code 1 otherwise (also for a
    configuration option in last place). *)
Lemma parse_command_line_stops (pairs : list (string * string))
    (arg : string) (rest : list string) :
  Forall (fun p => is_config_flag (fst p) = true) pairs ->
  (is_config_flag arg = false \/ rest = []) ->
  parse_command_line (flatten pairs ++ arg :: rest)
  = if ((arg =? "-h") || (arg =? "--help"))%bool then Exit 0 else Exit 1.
Proof.
  intros Hflags Harg. unfold parse_command_line.
  generalize "config.yaml" as config_file.
  induction Hflags as [|[flag value] pairs Hflag _ IH]; intros config_file.
  - cbn [flatten app parse_from].
    destruct ((arg =? "-h") || (arg =? "--help"))%bool eqn:Hh; [reflexivity|].
    destruct Harg as [Hc | ->].
    + unfold is_config_flag in Hc. now rewrite Hc.
    + now destruct ((arg =? "-c") || (arg =? "--config"))%bool.
  - cbn [flatten app parse_from fst] in *. unfold is_config_flag in Hflag.
    assert (Hh : ((flag =? "-h") || (flag =? "--help"))%bool = false).
    { apply orb_true_iff in Hflag.
      destruct Hflag as [Hf | Hf]; apply String.eqb_eq in Hf; subst; reflexivity. }
    rewrite Hh, Hflag. apply IH.
Qed.

End CommandLineFacts.

Lemma parse_command_line_last_config_witness :
  CommandLine.parse_command_line ["-c"; "a.yaml"; "--config"; "-h"]%string
  = CommandLine.Run "-h"%string.
Proof.
  apply (parse_command_line_last_config
           [("-c", "a.yaml"); ("--config", "-h")]%string).
  repeat constructor.
Defined.

Lemma parse_command_line_stops_witness :
  CommandLine.parse_command_line
    (["-c"%string; "a.yaml"%string] ++ ["--help"%string; "--bogus"%string])
  = CommandLine.Exit 0.
Proof.
  apply (parse_command_line_stops [("-c", "a.yaml")]%string "--help"%string
           ["--bogus"]%string).
  - repeat constructor.
  - left. reflexivity.
Defined.

(** ** File analyzer: the window loop *)

Section AnalyzerFacts.
Import World Analyzer.
Context {F pbch : Type} `{Normalize.SampleArith F}.
Variable phy : Phy F pbch.
Variable scan_for_target : bool.
Variable target_pci : Z.
Variable samples : list (F * F).
Variable window_samples : Z.

(** A result [SsbProcessor::scan] reports as found passed the filter. *)
Lemma scan_found_filter (k : nat) (buffer : list (F * F)) (nsamples : Z)
    (target : option Z) :
  found (SsbProcessor.scan phy k buffer nsamples target) = true ->
  initialized_ phy = true /\
  forall t, target = Some t ->
    pci (SsbProcessor.scan phy k buffer nsamples target) = t.
Proof.
  unfold SsbProcessor.scan.
  destruct (initialized_ phy); cbn [negb]; [|discriminate].
  destruct (srsran_ssb_search phy k buffer nsamples) as [ok res].
  destruct ok; cbn [negb]; [|discriminate].
  destruct (pbch_crc res); cbn [negb]; [|discriminate].
  destruct target as [t|].
  - destruct (Z.eqb_spec (N_id res) t) as [E|E]; cbn [negb]; [|discriminate].
    intros _. split; [reflexivity|]. intros t' [= <-]. exact E.
  - intros _. split; [reflexivity|]. discriminate.
Qed.

Lemma window_loop_from (j : nat) :
  2 <= window_samples ->
  Z.of_nat (length samples) + window_samples < two32 ->
  forall st fuel,
    (j < fuel)%nat ->
    offset st = (windows_that_fit samples window_samples - Z.of_nat j)
                * (window_samples / 2) ->
    window_count st = windows_that_fit samples window_samples - Z.of_nat j ->
    Z.of_nat j <= windows_that_fit samples window_samples ->
    counted scan_for_target target_pci st ->
    exists st',
      window_loop phy scan_for_target target_pci samples window_samples
        fuel st = Returns st' /\
      window_count st' = windows_that_fit samples window_samples /\
      counted scan_for_target target_pci st'.
Proof.
  intros Hw Hfit.
  set (n := Z.of_nat (length samples)) in *.
  set (h := window_samples / 2).
  assert (Hh : 1 <= h) by (apply Z.div_le_lower_bound; lia).
  assert (Hhw : h <= window_samples)
    by (apply Z.div_le_upper_bound; lia).
  set (N := windows_that_fit samples window_samples).
  assert (HN : (window_samples <= n /\ N = (n - window_samples) / h + 1) \/
               (n < window_samples /\ N = 0)).
  { unfold N, windows_that_fit. fold n. fold h.
    destruct (Z.leb_spec window_samples n); [left | right]; split; lia. }
  assert (Hlast : n < N * h + window_samples /\ N * h + window_samples < two32).
  { destruct HN as [[Hle ->] | [Hlt ->]]; [|lia].
    pose proof (Z.mul_div_le (n - window_samples) h ltac:(lia)).
    pose proof (Z.mul_succ_div_gt (n - window_samples) h ltac:(lia)).
    nia. }
  induction j as [|j IH]; intros st fuel Hfuel Hoff Hcnt Hj Hinv.
  - destruct fuel as [|fuel]; [lia|]. cbn [window_loop]. fold n. fold h.
    rewrite Hoff. replace (N - Z.of_nat 0) with N by lia.
    rewrite to_uint32_id by (unfold is_uint32; nia).
    replace (N * h + window_samples <=? n) with false
      by (symmetry; apply Z.leb_gt; lia).
    exists st. repeat split; try apply Hinv. rewrite Hcnt. lia.
  - destruct fuel as [|fuel]; [lia|]. cbn [window_loop]. fold n. fold h.
    assert (Hin : window_samples <= n /\ N = (n - window_samples) / h + 1)
      by (destruct HN as [HN | HN]; [exact HN | lia]).
    destruct Hin as [Hle HNeq].
    assert (Hoffle : offset st + window_samples <= n).
    { rewrite Hoff.
      pose proof (Z.mul_div_le (n - window_samples) h ltac:(lia)). nia. }
    assert (Hoff0 : 0 <= offset st) by (rewrite Hoff; nia).
    rewrite to_uint32_id by (unfold is_uint32; lia).
    replace (offset st + window_samples <=? n) with true
      by (symmetry; apply Z.leb_le; lia).
    unfold window_at. fold n.
    replace (offset st <? n) with true by (symmetry; apply Z.ltb_lt; lia).
    replace (offset st + window_samples <=? n) with true
      by (symmetry; apply Z.leb_le; lia).
    cbn [andb].
    destruct Hinv as (Hc1 & Hc2 & Hc3).
    assert (Hwc : window_count st + 1 < two32).
    { rewrite Hcnt. fold N.
      assert (N * 1 <= N * h) by (apply Z.mul_le_mono_nonneg_l; lia). lia. }
    apply IH.
    + lia.
    + cbn [offset]. rewrite to_uint32_id by (unfold is_uint32; fold h; lia).
      rewrite Hoff. fold h. lia.
    + cbn [window_count]. rewrite to_uint32_id by (unfold is_uint32; lia).
      rewrite Hcnt. lia.
    + lia.
    + unfold counted. cbn [ssb_count window_count found_ssbs].
      rewrite (to_uint32_id (window_count st + 1)) by (unfold is_uint32; lia).
      match goal with
      | |- context [found ?r] => set (res := r)
      end.
      destruct (found res) eqn:Hfound.
      * rewrite to_uint32_id by (unfold is_uint32; lia).
        rewrite length_app. cbn [length]. repeat split; try lia.
        apply Forall_app. split; [exact Hc3|]. constructor; [|constructor].
        split; [exact Hfound|]. intros Htarget.
        destruct (scan_found_filter _ _ _ _ Hfound) as [_ Hpci].
        apply Hpci. unfold target_filter. now rewrite Htarget.
      * repeat split; try lia. exact Hc3.
Qed.

(** With a window of at least two samples, and sizes whose sum fits 32
    bits, the loop ends, reads only windows that lie inside the samples,
    and scans exactly the half-overlapping windows that fit: none when the
    samples are fewer than a window, else [(n - w) / (w / 2) + 1].  The
    results it collected are as many as [ssb_count], at most one per
    window, each of them found and, under a target filter, of the target
    cell. *)
Lemma window_loop_scans_all_windows (fuel : nat) :
  2 <= window_samples ->
  Z.of_nat (length samples) + window_samples < two32 ->
  (Z.to_nat (windows_that_fit samples window_samples) < fuel)%nat ->
  exists st,
    window_loop phy scan_for_target target_pci samples window_samples fuel
      (window_init (F := F) (pbch := pbch)) = Returns st /\
    window_count st = windows_that_fit samples window_samples /\
    0 <= ssb_count st <= window_count st /\
    ssb_count st = Z.of_nat (length (found_ssbs st)) /\
    Forall (fun r => found r = true /\
                     (scan_for_target = true -> pci r = target_pci))
           (found_ssbs st).
Proof.
  intros Hw Hfit Hfuel.
  assert (HN : 0 <= windows_that_fit samples window_samples).
  { unfold windows_that_fit.
    destruct (Z.leb_spec window_samples (Z.of_nat (length samples))); [|lia].
    assert (0 <= (Z.of_nat (length samples) - window_samples)
                 / (window_samples / 2)); [|lia].
    apply Z.div_pos; [lia|]. apply Z.div_str_pos. lia. }
  destruct (window_loop_from
              (Z.to_nat (windows_that_fit samples window_samples)) Hw Hfit
              window_init fuel) as (st & Hrun & Hcount & Hinv).
  - exact Hfuel.
  - cbn [offset window_init]. rewrite Z2Nat.id, Z.sub_diag by lia. reflexivity.
  - cbn [window_count window_init]. lia.
  - lia.
  - unfold counted. cbn. repeat split; try lia. constructor.
  - exists st. unfold counted in Hinv. tauto.
Qed.

Lemma window_loop_stuck (fuel : nat) (st : window_state F pbch) :
  0 <= window_samples <= 1 ->
  1 <= Z.of_nat (length samples) < two32 ->
  offset st = 0 ->
  window_loop phy scan_for_target target_pci samples window_samples fuel st
  = OutOfFuel.
Proof.
  intros Hw Hn. set (n := Z.of_nat (length samples)) in *. revert st.
  assert (Hhalf : window_samples / 2 = 0) by (apply Z.div_small; lia).
  induction fuel as [|fuel IH]; intros st Hoff; [reflexivity|].
  cbn [window_loop]. fold n. rewrite Hoff. cbn [Z.add].
  rewrite to_uint32_id by (unfold is_uint32, two32 in *; lia).
  replace (window_samples <=? n) with true by (symmetry; apply Z.leb_le; lia).
  unfold window_at. fold n. cbn [Z.add].
  replace (0 <? n) with true by (symmetry; apply Z.ltb_lt; lia).
  replace (window_samples <=? n) with true by (symmetry; apply Z.leb_le; lia).
  cbn [andb]. apply IH. cbn [offset]. rewrite Hhalf. reflexivity.
Qed.

End AnalyzerFacts.

Lemma window_loop_scans_all_windows_witness :
  exists st,
    Analyzer.window_loop (Scenario.phy (Some 1%nat)) true 42
      (repeat Scenario.one_sample 10) 4 5 Analyzer.window_init = Returns st /\
    Analyzer.window_count st
    = Analyzer.windows_that_fit (repeat Scenario.one_sample 10) 4 /\
    0 <= Analyzer.ssb_count st <= Analyzer.window_count st /\
    Analyzer.ssb_count st = Z.of_nat (length (Analyzer.found_ssbs st)) /\
    Forall (fun r => World.found r = true /\ (true = true -> World.pci r = 42))
           (Analyzer.found_ssbs st).
Proof.
  apply (window_loop_scans_all_windows (Scenario.phy (Some 1%nat)) true 42
           (repeat Scenario.one_sample 10) 4 5).
  - lia.
  - vm_compute. reflexivity.
  - vm_compute. lia.
Defined.

(** A window size of 0 ms gives a window of 0 samples at every sample
    rate. *)
Lemma search_window_zero (args : AnalyzerCli.AnalyzerArgs) :
  AnalyzerCli.window_size_ms args = 0 ->
  Analyzer.search_window args = 0.
Proof.
  intros Hms. unfold Analyzer.search_window, World.double_to_uint32.
  rewrite Hms.
  change (World.double_of_Z 0) with 0%float.
  rewrite div_spec, mul_spec.
  change (Prim2SF 0) with (S754_zero false).
  change (Prim2SF 1000) with (S754_finite false 8796093022208000 (-43)).
  destruct (Prim2SF (AnalyzerCli.sample_rate_hz args)) as [s| s | | s m e];
    reflexivity.
Qed.

(** With [--window 0] the analyzer never leaves its scanning loop, whatever
    the (non-empty) samples hold: the window is 0 samples wide, the offset
    never moves, and every test of the loop condition passes. *)
Lemma analyzer_zero_window_never_ends {F pbch : Type}
    `{Normalize.SampleArith F} (phy : World.Phy F pbch)
    (args : AnalyzerCli.AnalyzerArgs) (samples : list (F * F)) (fuel : nat) :
  AnalyzerCli.window_size_ms args = 0 ->
  1 <= Z.of_nat (length samples) < two32 ->
  Analyzer.window_loop phy (AnalyzerCli.scan_for_target args)
    (AnalyzerCli.target_pci args) samples (Analyzer.search_window args)
    fuel Analyzer.window_init
  = OutOfFuel.
Proof.
  intros Hms Hn. apply window_loop_stuck; [|exact Hn|reflexivity].
  rewrite search_window_zero by exact Hms. lia.
Qed.

Lemma analyzer_zero_window_never_ends_witness :
  Analyzer.window_loop (Scenario.phy (Some 0%nat))
    (AnalyzerCli.scan_for_target Fixtures.zero_window_args)
    (AnalyzerCli.target_pci Fixtures.zero_window_args)
    (repeat Scenario.one_sample 3)
    (Analyzer.search_window Fixtures.zero_window_args)
    1000 Analyzer.window_init
  = OutOfFuel.
Proof.
  apply (analyzer_zero_window_never_ends (Scenario.phy (Some 0%nat))
           Fixtures.zero_window_args (repeat Scenario.one_sample 3) 1000).
  - reflexivity.
  - vm_compute. split; [discriminate | reflexivity].
Defined.

(** ** Acquisition and transmission: what the return values mean *)

Section ReturnFacts.
Import World.
Context {F pbch : Type} `{Normalize.SampleArith F}.
Variable rf : RfHandler F.
Variable phy : Phy F pbch.
Variable running : nat -> bool.
Variable steady_clock : nat -> Z.
Variable config : Config.

Lemma scan_zero_not_found : found (SsbProcessor.result_zero phy) = false.
Proof. reflexivity. Qed.

(** What the scan loop keeps true of [result]: it holds no find. *)
Lemma scan_step_result (st st' : Scanner.scan_state) :
  (forall r, Scanner.result st = Some r -> found r = false) ->
  Scanner.scan_step rf phy running steady_clock config st
  = Scanner.ScanContinue st' ->
  forall r, Scanner.result st' = Some r -> found r = false.
Proof.
  intros Hst. unfold Scanner.scan_step.
  destruct (running (Scanner.checks st)); cbn [negb]; [|discriminate].
  destruct (_ <? _)%float; [discriminate|].
  destruct (receive rf _ _) as [nrecv rx_buffer].
  destruct (nrecv <=? 0).
  { intros [= <-]. exact Hst. }
  destruct (Burst.memcpy_at _ _ _ _) as [buffer|]; [|discriminate].
  destruct (_ >=? _).
  - destruct (found (SsbProcessor.scan _ _ _ _ _)) eqn:Hfound; [discriminate|].
    intros [= <-] r [= <-]. exact Hfound.
  - intros [= <-]. exact Hst.
Qed.

Lemma scan_step_stops (st st' : Scanner.scan_state) :
  Scanner.scan_step rf phy running steady_clock config st
  = Scanner.ScanTimeout st' \/
  Scanner.scan_step rf phy running steady_clock config st
  = Scanner.ScanCancelled st' ->
  st' = st.
Proof.
  unfold Scanner.scan_step.
  destruct (running (Scanner.checks st)); cbn [negb].
  2:{ intros [Hs | Hs]; [discriminate | now injection Hs]. }
  destruct (_ <? _)%float.
  { intros [Hs | Hs]; [now injection Hs | discriminate]. }
  destruct (receive rf _ _) as [nrecv rx_buffer].
  destruct (nrecv <=? 0); [intros [Hs | Hs]; discriminate|].
  destruct (Burst.memcpy_at _ _ _ _) as [buffer|];
    [|intros [Hs | Hs]; discriminate].
  destruct (_ >=? _); [|intros [Hs | Hs]; discriminate].
  destruct (found _); intros [Hs | Hs]; discriminate.
Qed.

Lemma scan_loop_result (fuel : nat) (st : Scanner.scan_state)
    (flag : bool) (last : option (SsbSearchResult F pbch)) :
  (forall r, Scanner.result st = Some r -> found r = false) ->
  Scanner.scan_loop rf phy running steady_clock config fuel st
  = Returns (flag, last) ->
  if flag
  then exists r, last = Some r /\ found r = true /\
         (scan_for_target (attack config) = true ->
          pci r = target_pci (attack config))
  else forall r, last = Some r -> found r = false.
Proof.
  revert st. induction fuel as [|fuel IH]; intros st Hst; [discriminate|].
  cbn [Scanner.scan_loop].
  destruct (Scanner.scan_step rf phy running steady_clock config st)
    as [st' | r | st' | st' |] eqn:Hstep; try discriminate.
  - apply IH. eapply scan_step_result; eassumption.
  - intros [= <- <-]. exists r. split; [reflexivity|].
    revert Hstep. unfold Scanner.scan_step.
    destruct (running (Scanner.checks st)); cbn [negb]; [|discriminate].
    destruct (_ <? _)%float; [discriminate|].
    destruct (receive rf _ _) as [nrecv rx_buffer].
    destruct (nrecv <=? 0); [discriminate|].
    destruct (Burst.memcpy_at _ _ _ _) as [buffer|]; [|discriminate].
    destruct (_ >=? _); [|discriminate].
    destruct (found (SsbProcessor.scan _ _ _ _ _)) eqn:Hfound; [|discriminate].
    intros [= <-]. split; [exact Hfound|]. intros Htarget.
    destruct (scan_found_filter _ _ _ _ _ Hfound) as [_ Hpci].
    apply Hpci. unfold Scanner.target_filter. now rewrite Htarget.
  - rewrite (scan_step_stops st st' (or_introl Hstep)).
    intros [= <- <-]. exact Hst.
  - rewrite (scan_step_stops st st' (or_intror Hstep)).
    intros [= <- <-]. exact Hst.
Qed.

(** Whenever [scan_for_ssb] returns, its flag says what it left in
    [result]: true comes with a found block, which is of the target cell
    when the configuration asks for one; false leaves [result] untouched or
    holding a failed search. *)
Lemma scan_for_ssb_flag_matches_result (fuel : nat) (flag : bool)
    (last : option (SsbSearchResult F pbch)) :
  Scanner.scan_for_ssb rf phy running steady_clock config fuel
  = Returns (flag, last) ->
  if flag
  then exists r, last = Some r /\ found r = true /\
         (scan_for_target (attack config) = true ->
          pci r = target_pci (attack config))
  else forall r, last = Some r -> found r = false.
Proof.
  unfold Scanner.scan_for_ssb.
  destruct (start_rx rf); cbn [negb].
  - apply scan_loop_result. cbn. discriminate.
  - intros [= <- <-]. discriminate.
Qed.

(** A false return of [transmit_spoofed_ssb] means that nothing went out:
    no burst was counted, the FATAL branch was not taken, and the only
    transmit call that can have been made is the one of single-shot mode.
    Once the transmit stream is started, continuous mode never returns
    false. *)
Lemma transmit_false_sent_nothing (fuel : nat)
    (original_ssb : SsbSearchResult F pbch) (report : Transmitter.TxReport) :
  Transmitter.transmit_spoofed_ssb rf phy running config fuel original_ssb
  = Returns report ->
  Transmitter.returned report = false ->
  Transmitter.bursts_sent report = 0 /\
  Transmitter.fatal_reported report = false /\
  (Transmitter.transmit_calls report <= 1)%nat /\
  (Transmitter.transmit_calls report = 1%nat ->
   continuous_tx (attack config) = false).
Proof.
  unfold Transmitter.transmit_spoofed_ssb.
  destruct (SsbProcessor.encode_mib _ _ _ _) as [msg|].
  2:{ intros [= <-] _. cbn. repeat split; try lia; discriminate. }
  destruct (SsbProcessor.generate_ssb _ _ _ _) as [base_samples ssb_buffer].
  destruct (base_samples =? 0).
  { intros [= <-] _. cbn. repeat split; try lia; discriminate. }
  destruct (Burst.build_burst _ _ _ _) as [tx_buffer|]; [|discriminate].
  destruct (start_tx rf); cbn [negb].
  2:{ intros [= <-] _. cbn. repeat split; try lia; discriminate. }
  destruct (continuous_tx (attack config)).
  - destruct (Transmitter.tx_loop _ _ _ _ _ _ _) as [[st why]| |];
      try discriminate.
    intros [= <-]. cbn. discriminate.
  - destruct (_ <? 0); intros [= <-]; cbn; [|discriminate].
    intros _. repeat split; lia.
Qed.

End ReturnFacts.

Lemma scan_for_ssb_flag_matches_result_witness :
  exists r,
    Some Scenario.found_result = Some r /\ World.found r = true /\
    (scan_for_target (attack Scenario.base_config) = true ->
     World.pci r = target_pci (attack Scenario.base_config)).
Proof.
  apply (scan_for_ssb_flag_matches_result
           (Scenario.radio Scenario.tx_always_sends) (Scenario.phy (Some 0%nat))
           Scenario.always_running Scenario.one_ms_clock Scenario.base_config
           20 true (Some Scenario.found_result)).
  vm_compute. reflexivity.
Defined.

Lemma transmit_false_sent_nothing_witness :
  Transmitter.bursts_sent Fixtures.failed_single_shot = 0 /\
  Transmitter.fatal_reported Fixtures.failed_single_shot = false /\
  (Transmitter.transmit_calls Fixtures.failed_single_shot <= 1)%nat /\
  (Transmitter.transmit_calls Fixtures.failed_single_shot = 1%nat ->
   continuous_tx (attack Fixtures.single_shot_config) = false).
Proof.
  apply (transmit_false_sent_nothing
           (Scenario.radio Scenario.tx_always_fails) (Scenario.phy (Some 0%nat))
           Scenario.always_running Fixtures.single_shot_config 5
           Scenario.found_result Fixtures.failed_single_shot).
  - vm_compute. reflexivity.
  - reflexivity.
Defined.

(** ** File analyzer: its command line *)

Section AnalyzerCliFacts.
Import AnalyzerCli.
Local Open Scope string_scope.
Variable stod : string -> option float.
Variable stoul : string -> option Z.

Lemma parse_from_dangling (tokens : list token) (flag : string)
    (a : AnalyzerArgs) :
  forallb well_formed tokens = true ->
  takes_value flag = true ->
  parse_from stod stoul (flatten tokens ++ [flag])%list a
  = parse_from stod stoul (flatten tokens) a.
Proof.
  intros Hwf Hflag. revert a.
  induction tokens as [|[arg [value|]] tokens IH]; intros a.
  - cbn [flatten app parse_from]. rewrite Hflag.
    destruct ((flag =? "-h") || (flag =? "--help"))%bool eqn:Hh;
      [|reflexivity].
    exfalso. clear - Hflag Hh. apply orb_true_iff in Hh.
    destruct Hh as [Hh | Hh]; apply String.eqb_eq in Hh; subst;
      discriminate Hflag.
  - cbn [forallb well_formed snd fst] in Hwf.
    apply andb_true_iff in Hwf. destruct Hwf as [Harg Hwf].
    cbn [flatten app parse_from]. rewrite Harg.
    destruct ((arg =? "-h") || (arg =? "--help"))%bool; [reflexivity|].
    destruct (store stod stoul arg value a); [|reflexivity].
    now apply IH.
  - cbn [forallb well_formed snd fst] in Hwf.
    apply andb_true_iff in Hwf. destruct Hwf as [Harg Hwf].
    apply negb_true_iff in Harg.
    cbn [flatten app parse_from]. rewrite Harg.
    destruct ((arg =? "-h") || (arg =? "--help"))%bool; [reflexivity|].
    destruct ((arg =? "-v") || (arg =? "--verbose"))%bool; [|reflexivity].
    now apply IH.
Qed.

(** An option that reads a value, given in last place without one, is
    dropped without an error: the command line is read as if it were not
    there. *)
Lemma parse_args_dangling_option (tokens : list token) (flag : string) :
  forallb well_formed tokens = true ->
  takes_value flag = true ->
  parse_args stod stoul (flatten tokens ++ [flag])%list
  = parse_args stod stoul (flatten tokens).
Proof.
  intros Hwf Hflag. unfold parse_args.
  destruct (flatten tokens ++ [flag])%list as [|x l] eqn:E.
  { now destruct (flatten tokens). }
  rewrite <- E, parse_from_dangling by assumption.
  destruct (flatten tokens) as [|y l'] eqn:E'; [|reflexivity].
  destruct tokens as [|[arg [value|]] tokens]; try discriminate E'.
  reflexivity.
Qed.

Lemma parse_from_accepts (n : nat) :
  forall (argv : list string) (a a' : AnalyzerArgs),
    (length argv <= n)%nat ->
    parse_from stod stoul argv a = Some (true, a') ->
    input_file a' <> "" /\
    (sample_rate_hz a' <=? 0)%float = false /\
    (center_freq_hz a' <=? 0)%float = false.
Proof.
  assert (Hchecked : forall a a' : AnalyzerArgs,
             Some (checked a, a) = Some (true, a') ->
             input_file a' <> "" /\
             (sample_rate_hz a' <=? 0)%float = false /\
             (center_freq_hz a' <=? 0)%float = false).
  { intros a a' [= Hc <-]. unfold checked in Hc.
    destruct (String.eqb_spec (input_file a) ""); [discriminate|].
    destruct (sample_rate_hz a <=? 0)%float; [discriminate|].
    destruct (center_freq_hz a <=? 0)%float; [discriminate|].
    repeat split. assumption. }
  induction n as [|n IH]; intros argv a a' Hlen.
  - destruct argv; [|cbn in Hlen; lia]. apply Hchecked.
  - destruct argv as [|arg rest]; [apply Hchecked|].
    cbn [parse_from].
    destruct ((arg =? "-h") || (arg =? "--help"))%bool; [discriminate|].
    destruct (takes_value arg).
    + destruct rest as [|value rest']; [apply Hchecked|].
      destruct (store stod stoul arg value a) as [a1|]; [|discriminate].
      apply IH. cbn in Hlen. lia.
    + destruct ((arg =? "-v") || (arg =? "--verbose"))%bool; [|discriminate].
      apply IH. cbn in Hlen. lia.
Qed.

(** When [parse_args] returns true there was at least one argument, and
    the arguments it leaves name an input file and hold a sample rate and a
    centre frequency that are not [<= 0].  Nothing is required of the
    pattern, the spacing or the window. *)
Lemma parse_args_accepts (argv : list string) (a : AnalyzerArgs) :
  parse_args stod stoul argv = Some (true, a) ->
  argv <> [] /\
  input_file a <> "" /\
  (sample_rate_hz a <=? 0)%float = false /\
  (center_freq_hz a <=? 0)%float = false.
Proof.
  unfold parse_args. destruct argv as [|arg rest]; [discriminate|].
  intros Hparse. split; [discriminate|].
  exact (parse_from_accepts (length (arg :: rest)) (arg :: rest) default_args a
           (le_n _) Hparse).
Qed.

End AnalyzerCliFacts.

Lemma parse_args_dangling_option_witness :
  AnalyzerCli.parse_args AnalyzerCli.stod_one AnalyzerCli.stoul_one
    (["-f"%string; "iq.dat"%string; "-v"%string] ++ ["--pci"%string])
  = AnalyzerCli.parse_args AnalyzerCli.stod_one AnalyzerCli.stoul_one
      ["-f"%string; "iq.dat"%string; "-v"%string].
Proof.
  apply (parse_args_dangling_option AnalyzerCli.stod_one AnalyzerCli.stoul_one
           [("-f"%string, Some "iq.dat"%string); ("-v"%string, None)]
           "--pci"%string); reflexivity.
Defined.

Lemma parse_args_accepts_witness :
  ["-f"%string; "iq.dat"%string; "--window"%string; "1"%string] <> [] /\
  AnalyzerCli.input_file AnalyzerCli.one_ms_args <> ""%string /\
  (AnalyzerCli.sample_rate_hz AnalyzerCli.one_ms_args <=? 0)%float = false /\
  (AnalyzerCli.center_freq_hz AnalyzerCli.one_ms_args <=? 0)%float = false.
Proof.
  apply (parse_args_accepts AnalyzerCli.stod_one AnalyzerCli.stoul_one
           ["-f"%string; "iq.dat"%string; "--window"%string; "1"%string]
           AnalyzerCli.one_ms_args).
  vm_compute. reflexivity.
Defined.
